(** * Server-side dialog sessions (dialog_server.go)

    A shallow embedding of [DialogServer] and [DialogServerSession]: the
    registry of live dialogs, the answering handshake ([WriteResponse]),
    the routing of in-dialog ACK and BYE requests ([ReadAck], [ReadBye]),
    the local hang-up ([Bye]) and the builder of the BYE request
    ([newByeRequestUAS]).

    Go pointers to sessions and transactions are addresses into finite
    maps; every effect a function has on the registry, on a session or on
    a transaction is also appended to a log, so that the order of effects
    inside one call can be stated. *)

From Stdlib Require Import ZArith Ascii String List DecimalString.
From Stdlib.Strings Require Import Byte.
From stdpp Require Import gmap strings list.

Local Open Scope string_scope.
Local Open Scope list_scope.
Local Open Scope Z_scope.

Set Warnings "-clear-no-such-hyp".

(* ===================================================================== *)
(** * The message layer (package sip) *)
(* ===================================================================== *)

Module sip.

(** Modelled from the spec: the address type of the message layer.  The
    session code only ever prints an address ([String]) or asks for its
    next hop ([HostPort]); an address is the pair of these two
    observations. *)
Record Uri := mkUri { Uri_String : string; Uri_HostPort : string }.

(** Modelled from the spec: header parameters, a Go [map[string]string];
    indexing a missing key gives the empty string. *)
Abbreviation HeaderParams := (gmap string string).

Definition param (ps : HeaderParams) (k : string) : string :=
  default "" (ps !! k).

(** Modelled from the spec: the From, To and Contact headers, three
    struct types with the same three fields. *)
Record FromHeader := mkFrom
  { from_DisplayName : string; from_Address : Uri; from_Params : HeaderParams }.
Record ToHeader := mkTo
  { to_DisplayName : string; to_Address : Uri; to_Params : HeaderParams }.
Record ContactHeader := mkContact
  { contact_DisplayName : string; contact_Address : Uri;
    contact_Params : HeaderParams }.

(** Modelled from the spec: the [Header] interface with the
    implementations the session code meets.  [HdrGeneric] is what
    [sip.NewHeader name value] builds. *)
Inductive Header :=
| HdrFrom (h : FromHeader)
| HdrTo (h : ToHeader)
| HdrCallID (h : string)
| HdrContact (h : ContactHeader)
| HdrRoute (a : Uri)
| HdrRecordRoute (a : Uri)
| HdrGeneric (name value : string).

Definition NewHeader (name value : string) : Header := HdrGeneric name value.

Definition Header_Name (h : Header) : string :=
  match h with
  | HdrFrom _ => "From"
  | HdrTo _ => "To"
  | HdrCallID _ => "Call-ID"
  | HdrContact _ => "Contact"
  | HdrRoute _ => "Route"
  | HdrRecordRoute _ => "Record-Route"
  | HdrGeneric name _ => name
  end.

Definition params_String (ps : HeaderParams) : string :=
  foldr (fun kv acc => ";" +:+ kv.1 +:+ "=" +:+ kv.2 +:+ acc) ""
        (map_to_list ps).

Definition nameaddr_String (dn : string) (a : Uri) (ps : HeaderParams) : string :=
  dn +:+ " <" +:+ Uri_String a +:+ ">" +:+ params_String ps.

(** Modelled from the spec: [Header.Value], the text of a header after
    its name. *)
Definition Header_Value (h : Header) : string :=
  match h with
  | HdrFrom f => nameaddr_String (from_DisplayName f) (from_Address f) (from_Params f)
  | HdrTo t => nameaddr_String (to_DisplayName t) (to_Address t) (to_Params t)
  | HdrCallID c => c
  | HdrContact c =>
      nameaddr_String (contact_DisplayName c) (contact_Address c) (contact_Params c)
  | HdrRoute a => "<" +:+ Uri_String a +:+ ">"
  | HdrRecordRoute a => "<" +:+ Uri_String a +:+ ">"
  | HdrGeneric _ value => value
  end.

(** Header names compare without regard to ASCII case. *)
Definition ascii_lower (c : ascii) : ascii :=
  let n := nat_of_ascii c in
  if (Nat.leb 65 n && Nat.leb n 90)%bool then ascii_of_nat (n + 32) else c.

Fixpoint HeaderToLower (s : string) : string :=
  match s with
  | EmptyString => EmptyString
  | String c r => String (ascii_lower c) (HeaderToLower r)
  end.

Definition name_matches (name : string) (h : Header) : bool :=
  bool_decide (HeaderToLower (Header_Name h) = HeaderToLower name).

(** Modelled from the spec: the header store shared by requests and
    responses.  Headers are kept in order of appearance; [GetHeaders]
    returns, in that order, those of a given name, and a typed accessor
    returns the first header of its type (Go [nil] is [None]). *)
Definition GetHeaders (hs : list Header) (name : string) : list Header :=
  filter (fun h => name_matches name h = true) hs.

Fixpoint hs_From (hs : list Header) : option FromHeader :=
  match hs with
  | [] => None
  | HdrFrom f :: _ => Some f
  | _ :: r => hs_From r
  end.

Fixpoint hs_To (hs : list Header) : option ToHeader :=
  match hs with
  | [] => None
  | HdrTo t :: _ => Some t
  | _ :: r => hs_To r
  end.

Fixpoint hs_CallID (hs : list Header) : option string :=
  match hs with
  | [] => None
  | HdrCallID c :: _ => Some c
  | _ :: r => hs_CallID r
  end.

Fixpoint hs_Contact (hs : list Header) : option ContactHeader :=
  match hs with
  | [] => None
  | HdrContact c :: _ => Some c
  | _ :: r => hs_Contact r
  end.

(** Modelled from the spec: reading an address back from the text of a
    header.  The address is the text between "<" and ">", or the text up
    to the first ";" when there are no brackets; it reads
    "sip:" or "sips:", an optional user part ending in "@", the host,
    and an optional ":" with a decimal port.  [HostPort] prints the host
    and the port, 0 when the text has none. *)
Fixpoint break (stop : ascii -> bool) (s : string) : string * string :=
  match s with
  | EmptyString => (EmptyString, EmptyString)
  | String c r =>
      if stop c then (EmptyString, s)
      else let (a, b) := break stop r in (String c a, b)
  end.

Definition is_char (c : ascii) : ascii -> bool :=
  fun d => bool_decide (d = c).

Definition one_of (cs : list ascii) : ascii -> bool :=
  fun d => bool_decide (d ∈ cs).

(** The text after the first character that satisfies [stop]. *)
Definition after (stop : ascii -> bool) (s : string) : option string :=
  match (break stop s).2 with
  | EmptyString => None
  | String _ r => Some r
  end.

Definition strip_scheme (s : string) : option string :=
  if bool_decide (HeaderToLower (substring 0 4 s) = "sip:")
  then Some (substring 4 (String.length s - 4) s)
  else if bool_decide (HeaderToLower (substring 0 5 s) = "sips:")
  then Some (substring 5 (String.length s - 5) s)
  else None.

Fixpoint decimal (acc : N) (s : string) : option N :=
  match s with
  | EmptyString => Some acc
  | String c r =>
      let n := N_of_ascii c in
      if ((48 <=? n) && (n <=? 57))%N then decimal (10 * acc + (n - 48))%N r
      else None
  end.

Definition ParsePort (s : string) : option N :=
  match s with
  | EmptyString => None
  | _ => decimal 0%N s
  end.

Definition ParseUri (text : string) : option Uri :=
  match strip_scheme text with
  | None => None
  | Some rest =>
      let hostport := default rest (after (is_char "@") rest) in
      let (host, more) := break (one_of [":"; ";"; "?"]%char) hostport in
      let port :=
        match more with
        | String ":" r => ParsePort (break (one_of [";"; "?"]%char) r).1
        | _ => Some 0%N
        end in
      match port with
      | None => None
      | Some port =>
          Some {| Uri_String := text;
                  Uri_HostPort :=
                    host +:+ ":" +:+ NilZero.string_of_uint (N.to_uint port) |}
      end
  end.

Definition address_text (value : string) : string :=
  match after (is_char "<") value with
  | Some inner => (break (is_char ">") inner).1
  | None => (break (is_char ";") value).1
  end.

Definition ParseRouteValue (value : string) : option Uri :=
  ParseUri (address_text value).

(** Modelled from the spec: [Route] is the first Route header of the
    message; one built by [NewHeader] from a name and a text, as the
    BYE builder does, is read back from its text. *)
Fixpoint hs_Route (hs : list Header) : option Uri :=
  match hs with
  | [] => None
  | HdrRoute a :: _ => Some a
  | HdrGeneric name value :: r =>
      if bool_decide (HeaderToLower name = "route") then ParseRouteValue value
      else hs_Route r
  | _ :: r => hs_Route r
  end.

(** Modelled from the spec: requests and responses of the message layer. *)
Record Request := mkRequest
  { Method : string;
    Recipient : Uri;
    req_headers : list Header;
    req_body : option (list byte);
    req_destination : string }.

Record Response := mkResponse
  { StatusCode : Z;
    Reason : string;
    res_headers : list Header;
    res_body : option (list byte) }.

Definition BYE : string := "BYE".
Definition StatusOK : Z := 200.

Definition NewRequest (method : string) (recipient : Uri) : Request :=
  {| Method := method; Recipient := recipient; req_headers := [];
     req_body := None; req_destination := "" |}.

Definition req_AppendHeader (r : Request) (h : Header) : Request :=
  {| Method := Method r; Recipient := Recipient r;
     req_headers := req_headers r ++ [h];
     req_body := req_body r; req_destination := req_destination r |}.

Definition SetDestination (r : Request) (dest : string) : Request :=
  {| Method := Method r; Recipient := Recipient r;
     req_headers := req_headers r;
     req_body := req_body r; req_destination := dest |}.

Definition res_AppendHeader (r : Response) (h : Header) : Response :=
  {| StatusCode := StatusCode r; Reason := Reason r;
     res_headers := res_headers r ++ [h]; res_body := res_body r |}.

Definition req_Contact (r : Request) := hs_Contact (req_headers r).
Definition req_From (r : Request) := hs_From (req_headers r).
Definition req_To (r : Request) := hs_To (req_headers r).
Definition req_CallID (r : Request) := hs_CallID (req_headers r).
Definition req_Route (r : Request) := hs_Route (req_headers r).
Definition req_GetHeaders (r : Request) (name : string) :=
  GetHeaders (req_headers r) name.

Definition res_From (r : Response) := hs_From (res_headers r).
Definition res_To (r : Response) := hs_To (res_headers r).
Definition res_CallID (r : Response) := hs_CallID (res_headers r).

(** Modelled from the spec: the status classification of a response. *)
Definition IsProvisional (r : Response) : bool := StatusCode r <? 200.
Definition IsSuccess (r : Response) : bool :=
  (200 <=? StatusCode r) && (StatusCode r <? 300).

(** Modelled from the spec: the helper that builds a response from a
    request; it carries over the Record-Route and Via headers and the
    From, To, Call-ID and CSeq of the request. *)
Definition opt_header {A} (mk : A -> Header) (o : option A) : list Header :=
  match o with Some a => [mk a] | None => [] end.

Definition NewResponseFromRequest (req : Request) (code : Z) (reason : string)
    (body : option (list byte)) : Response :=
  {| StatusCode := code; Reason := reason;
     res_headers :=
       req_GetHeaders req "Record-Route" ++ req_GetHeaders req "Via" ++
       opt_header HdrFrom (req_From req) ++ opt_header HdrTo (req_To req) ++
       opt_header HdrCallID (req_CallID req) ++ req_GetHeaders req "CSeq";
     res_body := body |}.

Definition NewSDPResponseFromRequest (req : Request) (sdp : list byte) : Response :=
  res_AppendHeader
    (NewResponseFromRequest req 200 "OK" (Some sdp))
    (NewHeader "Content-Type" "application/sdp").

(** Modelled from the spec: the dialog identity, derived from the call
    identifier and the two tags. *)
Definition MakeDialogID (callID innerID externalID : string) : string :=
  callID +:+ "__" +:+ innerID +:+ "__" +:+ externalID.

(** Errors raised inside the message layer. *)
Inductive IDError :=
| MissingCallID | MissingTo | MissingToTag | MissingFrom | MissingFromTag.

(** Modelled from the spec: the identity of a message; it cannot be
    computed when the Call-ID, the To tag or the From tag is missing. *)
Definition getDialogIDFromMessage (hs : list Header) : string + IDError :=
  match hs_CallID hs with
  | None => inr MissingCallID
  | Some callID =>
      match hs_To hs with
      | None => inr MissingTo
      | Some to =>
          match to_Params to !! "tag" with
          | None => inr MissingToTag
          | Some toTag =>
              match hs_From hs with
              | None => inr MissingFrom
              | Some from =>
                  match from_Params from !! "tag" with
                  | None => inr MissingFromTag
                  | Some fromTag => inl (MakeDialogID callID toTag fromTag)
                  end
              end
          end
      end
  end.

Definition MakeDialogIDFromRequest (r : Request) : string + IDError :=
  getDialogIDFromMessage (req_headers r).

Definition MakeDialogIDFromResponse (r : Response) : string + IDError :=
  getDialogIDFromMessage (res_headers r).

(** The dialog states, compared as integers by the session code. *)
Definition DialogStateEstablished : Z := 1.
Definition DialogStateConfirmed : Z := 2.
Definition DialogStateEnded : Z := 3.

End sip.

(* ===================================================================== *)
(** * Errors, transactions and the state of the world *)
(* ===================================================================== *)

(** The error values of the session layer.  The four sentinels are the
    package's own variables; [ErrIDError] wraps an error raised inside
    the message layer, which cannot be one of the sentinels. *)
Inductive error :=
| ErrDialogOutsideDialog
| ErrDialogDoesNotExists
| ErrDialogInviteNoContact
| ErrDialogCanceled
| ErrDialogResponse (res : sip.Response)
| ErrIDError (e : sip.IDError)
| ErrorString (msg : string)
| ErrNonMatchingID (id byeID : string)
| ErrJoin (a b : error)
| ErrTransaction (code : nat)
| ErrContext (deadline : bool).

(** [errors.Is err ErrDialogOutsideDialog]: the sentinel itself, or a
    join that holds it. *)
Fixpoint Is_OutsideDialog (e : error) : bool :=
  match e with
  | ErrDialogOutsideDialog => true
  | ErrJoin a b => Is_OutsideDialog a || Is_OutsideDialog b
  | _ => false
  end.

Fixpoint Is_DoesNotExists (e : error) : bool :=
  match e with
  | ErrDialogDoesNotExists => true
  | ErrJoin a b => Is_DoesNotExists a || Is_DoesNotExists b
  | _ => false
  end.

(** [errors.Join a b] for two errors that are not nil. *)
Definition errors_Join (a b : error) : error := ErrJoin a b.

Definition ptr := nat.
Definition txid := nat.

(** A server transaction as the session code sees it: the requests
    waiting in its [Cancels] channel, whether [Done] is closed, what
    [Err] returns, and the results of the coming [Respond] calls (nil
    once the list is used up). *)
Record ServerTx := mkServerTx
  { tx_cancels : list sip.Request;
    tx_done : bool;
    tx_err : option error;
    tx_respond : list (option error) }.

Definition idle_tx : ServerTx :=
  {| tx_cancels := []; tx_done := false; tx_err := None; tx_respond := [] |}.

(** [DialogServerSession] with its embedded [Dialog].  [cancelled]
    counts the calls of the [cancel] function of the lifetime context. *)
Record DialogServerSession := mkSession
  { ID : string;
    InviteRequest : sip.Request;
    InviteResponse : option sip.Response;
    state : Z;
    stateCh : list Z;
    cancelled : nat;
    inviteTx : txid }.

(** What a function did, in the order it did it. *)
Inductive Event :=
| EvLoad (id : string) (found : option ptr)
| EvStore (id : string) (p : ptr)
| EvDelete (id : string)
| EvLoadState (p : ptr) (st : Z)
| EvSetState (p : ptr) (st : Z)
| EvSetResponse (p : ptr) (res : sip.Response)
| EvSetID (p : ptr) (id : string)
| EvRaceCheck (tx : txid)
| EvRespond (tx : txid) (res : sip.Response) (result : option error)
| EvTerminate (tx : txid)
| EvWaitInviteDone (tx : txid)
| EvWaitTimer
| EvWaitCtxDone (err : error)
| EvRequest (req : sip.Request) (result : option error)
| EvClientTerminate.

(** [dialogs] is the [sync.Map] of the [DialogServer], [contactHDR] its
    contact header; [sessions] and [txs] are the heap. *)
Record World := mkWorld
  { dialogs : gmap string ptr;
    contactHDR : sip.ContactHeader;
    sessions : gmap ptr DialogServerSession;
    txs : gmap txid ServerTx;
    log : list Event }.

Definition set_dialogs (d : gmap string ptr) (w : World) : World :=
  {| dialogs := d; contactHDR := contactHDR w; sessions := sessions w;
     txs := txs w; log := log w |}.

Definition set_sessions (s : gmap ptr DialogServerSession) (w : World) : World :=
  {| dialogs := dialogs w; contactHDR := contactHDR w; sessions := s;
     txs := txs w; log := log w |}.

Definition set_txs (t : gmap txid ServerTx) (w : World) : World :=
  {| dialogs := dialogs w; contactHDR := contactHDR w; sessions := sessions w;
     txs := t; log := log w |}.

Definition add_log (e : Event) (w : World) : World :=
  {| dialogs := dialogs w; contactHDR := contactHDR w; sessions := sessions w;
     txs := txs w; log := log w ++ [e] |}.

Definition get_tx (w : World) (t : txid) : ServerTx :=
  default idle_tx (txs w !! t).

(** ** Computations

    A call returns, panics (a nil dereference), or is still blocked in
    a [select] when the events given to it are used up. *)
Inductive Outcome (A : Type) :=
| Ret (a : A)
| Panic
| Blocked.
Arguments Ret {A} a.
Arguments Panic {A}.
Arguments Blocked {A}.

Definition M (A : Type) : Type := World -> Outcome A * World.

Definition ret {A} (a : A) : M A := fun w => (Ret a, w).
Definition panic {A} : M A := fun w => (Panic, w).
Definition blocked {A} : M A := fun w => (Blocked, w).

Definition bind {A B} (m : M A) (k : A -> M B) : M B :=
  fun w =>
    match m w with
    | (Ret a, w') => k a w'
    | (Panic, w') => (Panic, w')
    | (Blocked, w') => (Blocked, w')
    end.

Notation "'let!' x ':=' m 'in' k" := (bind m (fun x => k))
  (at level 10, x pattern, m at level 100, k at level 200).
Notation "m ;; k" := (bind m (fun _ => k))
  (at level 100, k at level 200, right associativity).

(** [defer d] before [body]: [d] runs when [body] returns or panics. *)
Definition defer {A} (d : M unit) (body : M A) : M A :=
  fun w =>
    match body w with
    | (Blocked, w') => (Blocked, w')
    | (r, w') => (r, (d w').2)
    end.

Definition emit (e : Event) : M unit := fun w => (Ret tt, add_log e w).

Definition get_world : M World := fun w => (Ret w, w).

(** Reading through a session pointer; a pointer to nothing is a nil
    dereference. *)
Definition sessionOf (p : ptr) : M DialogServerSession :=
  fun w =>
    match sessions w !! p with
    | Some s => (Ret s, w)
    | None => (Panic, w)
    end.

Definition modify_session (p : ptr) (f : DialogServerSession -> DialogServerSession)
    : M unit :=
  fun w =>
    match sessions w !! p with
    | Some s => (Ret tt, set_sessions (<[p := f s]> (sessions w)) w)
    | None => (Panic, w)
    end.

Definition with_ID (id : string) (s : DialogServerSession) : DialogServerSession :=
  {| ID := id; InviteRequest := InviteRequest s;
     InviteResponse := InviteResponse s; state := state s;
     stateCh := stateCh s; cancelled := cancelled s; inviteTx := inviteTx s |}.

Definition with_InviteResponse (res : sip.Response) (s : DialogServerSession)
    : DialogServerSession :=
  {| ID := ID s; InviteRequest := InviteRequest s;
     InviteResponse := Some res; state := state s;
     stateCh := stateCh s; cancelled := cancelled s; inviteTx := inviteTx s |}.

(** Modelled from the spec: [Dialog.setState], an unconditional atomic
    write of the state followed by a send on the buffered notification
    channel (capacity 3) that does not block. *)
Definition with_state (st : Z) (s : DialogServerSession) : DialogServerSession :=
  {| ID := ID s; InviteRequest := InviteRequest s;
     InviteResponse := InviteResponse s; state := st;
     stateCh := if (length (stateCh s) <? 3)%nat then stateCh s ++ [st]
                else stateCh s;
     cancelled := cancelled s; inviteTx := inviteTx s |}.

Definition setState (p : ptr) (st : Z) : M unit :=
  modify_session p (with_state st) ;; emit (EvSetState p st).

(** ** The operations of a server transaction *)

Definition with_respond (rs : list (option error)) (t : ServerTx) : ServerTx :=
  {| tx_cancels := tx_cancels t; tx_done := tx_done t; tx_err := tx_err t;
     tx_respond := rs |}.

Definition with_cancels (cs : list sip.Request) (t : ServerTx) : ServerTx :=
  {| tx_cancels := cs; tx_done := tx_done t; tx_err := tx_err t;
     tx_respond := tx_respond t |}.

Definition with_done (t : ServerTx) : ServerTx :=
  {| tx_cancels := tx_cancels t; tx_done := true; tx_err := tx_err t;
     tx_respond := tx_respond t |}.

Definition tx_Respond (t : txid) (res : sip.Response) : M (option error) :=
  fun w =>
    let tx := get_tx w t in
    match tx_respond tx with
    | [] => (Ret None, add_log (EvRespond t res None) w)
    | r :: rest =>
        (Ret r, add_log (EvRespond t res r)
                  (set_txs (<[t := with_respond rest tx]> (txs w)) w))
    end.

Definition tx_Terminate (t : txid) : M unit := emit (EvTerminate t).

Definition tx_Err (t : txid) : M (option error) :=
  fun w => (Ret (tx_err (get_tx w t)), w).

(* ===================================================================== *)
(** * The registry and the sessions (dialog_server.go) *)
(* ===================================================================== *)

Definition dialogs_Load (id : string) : M (option ptr) :=
  fun w => (Ret (dialogs w !! id), add_log (EvLoad id (dialogs w !! id)) w).

Definition dialogs_Store (id : string) (p : ptr) : M unit :=
  fun w => (Ret tt, add_log (EvStore id p) (set_dialogs (<[id := p]> (dialogs w)) w)).

Definition dialogs_Delete (id : string) : M unit :=
  fun w => (Ret tt, add_log (EvDelete id) (set_dialogs (delete id (dialogs w)) w)).

Definition loadDialog (id : string) : M (option ptr) := dialogs_Load id.

(** [ReadInvite]: a new session in the initial state 0, with a fresh
    lifetime context, not in the registry. *)
Definition ReadInvite (req : sip.Request) (tx : txid) : M (ptr + error) :=
  match sip.req_Contact req with
  | None => ret (inr ErrDialogInviteNoContact)
  | Some _ =>
      fun w =>
        let p := fresh (dom (sessions w)) in
        let dtx := {| ID := ""; InviteRequest := req; InviteResponse := None;
                      state := 0; stateCh := []; cancelled := 0%nat;
                      inviteTx := tx |} in
        (Ret (inl p), set_sessions (<[p := dtx]> (sessions w)) w)
  end.

Definition ReadAck (req : sip.Request) (tx : txid) : M (option error) :=
  match sip.MakeDialogIDFromRequest req with
  | inr err => ret (Some (errors_Join ErrDialogOutsideDialog (ErrIDError err)))
  | inl id =>
      let! dt := loadDialog id in
      match dt with
      | None => ret (Some ErrDialogDoesNotExists)
      | Some dt =>
          setState dt sip.DialogStateConfirmed ;;
          ret None
      end
  end.

Definition Close (s : ptr) : M (option error) :=
  let! ses := sessionOf s in
  dialogs_Delete (ID ses) ;;
  ret None.

Definition ReadBye (req : sip.Request) (tx : txid) : M (option error) :=
  match sip.MakeDialogIDFromRequest req with
  | inr err => ret (Some (ErrIDError err))
  | inl id =>
      let! dt := loadDialog id in
      match dt with
      | None => ret (Some ErrDialogDoesNotExists)
      | Some dt =>
          let! ses := sessionOf dt in
          defer (Close dt ;; ret tt)
            (defer (tx_Terminate (inviteTx ses))
               (let res := sip.NewResponseFromRequest req 200 "OK" None in
                let! err := tx_Respond tx res in
                match err with
                | Some err => ret (Some err)
                | None =>
                    setState dt sip.DialogStateEnded ;;
                    ret None
                end))
      end
  end.

(** The [select] of [WriteResponse].  Both the [Cancels] and the [Done]
    case can be ready; Go then takes either, here by [pick_cancel]. *)
Inductive RaceCheck :=
| RaceCancel (req : sip.Request)
| RaceDone
| RaceDefault.

Definition race_check (t : txid) (pick_cancel : bool) : M RaceCheck :=
  fun w =>
    let tx := get_tx w t in
    let w1 := add_log (EvRaceCheck t) w in
    match tx_cancels tx with
    | req :: rest =>
        if tx_done tx && negb pick_cancel
        then (Ret RaceDone, w1)
        else (Ret (RaceCancel req),
              set_txs (<[t := with_cancels rest tx]> (txs w1)) w1)
    | [] =>
        if tx_done tx then (Ret RaceDone, w1) else (Ret RaceDefault, w1)
    end.

Definition WriteResponse (s : ptr) (res : sip.Response) (pick_cancel : bool)
    : M (option error) :=
  let! ses := sessionOf s in
  let tx := inviteTx ses in
  let! w := get_world in
  let res := sip.res_AppendHeader res (sip.HdrContact (contactHDR w)) in
  modify_session s (with_InviteResponse res) ;;
  emit (EvSetResponse s res) ;;
  let! c := race_check tx pick_cancel in
  match c with
  | RaceCancel req =>
      tx_Respond tx (sip.NewResponseFromRequest req sip.StatusOK "OK" None) ;;
      ret (Some ErrDialogCanceled)
  | RaceDone => tx_Err tx
  | RaceDefault =>
      if negb (sip.IsSuccess res) then
        if sip.IsProvisional res then tx_Respond tx res
        else
          let! err := tx_Respond tx res in
          match err with
          | Some err => ret (Some err)
          | None =>
              setState s sip.DialogStateEnded ;;
              ret None
          end
      else
        match sip.MakeDialogIDFromResponse res with
        | inr err => ret (Some (ErrIDError err))
        | inl id =>
            modify_session s (with_ID id) ;;
            emit (EvSetID s id) ;;
            dialogs_Store id s ;;
            setState s sip.DialogStateEstablished ;;
            let! err := tx_Respond tx res in
            match err with
            | Some err =>
                dialogs_Delete id ;;
                ret (Some err)
            | None => ret None
            end
        end
  end.

Definition Respond (s : ptr) (statusCode : Z) (reason : string)
    (body : option (list byte)) (headers : list sip.Header) (pick_cancel : bool)
    : M (option error) :=
  let! ses := sessionOf s in
  let res := sip.NewResponseFromRequest (InviteRequest ses) statusCode reason body in
  let res := fold_left sip.res_AppendHeader headers res in
  WriteResponse s res pick_cancel.

Definition RespondSDP (s : ptr) (sdp : option (list byte)) (pick_cancel : bool)
    : M (option error) :=
  match sdp with
  | None => ret (Some (ErrorString "sdp not provided"))
  | Some sdp =>
      let! ses := sessionOf s in
      WriteResponse s (sip.NewSDPResponseFromRequest (InviteRequest ses) sdp)
        pick_cancel
  end.

(** [newByeRequestUAS].  [None] is the nil dereference of a request
    without Contact or of a response without To or From.  A response
    without Call-ID gives a request without one (Go appends the nil
    pointer; [bye.CallID] is nil either way). *)
Definition newByeRequestUAS (req : sip.Request) (res : sip.Response)
    : option sip.Request :=
  match sip.req_Contact req with
  | None => None
  | Some cont =>
      let bye := sip.NewRequest sip.BYE (sip.contact_Address cont) in
      let from := sip.res_From res in
      let to := sip.res_To res in
      let callid := sip.res_CallID res in
      match to, from with
      | Some to, Some from =>
          let newFrom :=
            {| sip.from_DisplayName := sip.to_DisplayName to;
               sip.from_Address := sip.to_Address to;
               sip.from_Params := sip.to_Params to |} in
          let newTo :=
            {| sip.to_DisplayName := sip.from_DisplayName from;
               sip.to_Address := sip.from_Address from;
               sip.to_Params := sip.from_Params from |} in
          let bye := sip.req_AppendHeader bye (sip.HdrFrom newFrom) in
          let bye := sip.req_AppendHeader bye (sip.HdrTo newTo) in
          let bye :=
            match callid with
            | Some c => sip.req_AppendHeader bye (sip.HdrCallID c)
            | None => bye
            end in
          let hdrs := sip.req_GetHeaders req "Record-Route" in
          Some (fold_left
                  (fun bye recordRoute =>
                     sip.req_AppendHeader bye
                       (sip.NewHeader "Route" (sip.Header_Value recordRoute)))
                  (rev hdrs) bye)
      | _, _ => None
      end
  end.

(** What ends one blocking [select] of the confirmation wait of [Bye]:
    the setup transaction is done, the timer [T1] fires (after ACK
    requests were routed by [ReadAck] meanwhile), or the context of the
    caller is cancelled. *)
Inductive WaitOutcome :=
| WaitTxDone
| WaitTimer (acks : list (sip.Request * txid))
| WaitCtxDone (err : error).

(** What ends the [select] on the BYE transaction. *)
Inductive ByeOutcome :=
| ByeResponse (res : sip.Response)
| ByeTxDone (err : option error)
| ByeCtxDone (err : error).

(** The surroundings of one call of [Bye]: the events of its waits and
    the result of [Client.TransactionRequest]. *)
Record ByeEnv := mkByeEnv
  { bye_waits : list WaitOutcome;
    bye_request : option error;
    bye_final : ByeOutcome }.

Definition mark_done (t : txid) : M unit :=
  fun w => (Ret tt, set_txs (<[t := with_done (get_tx w t)]> (txs w)) w).

Fixpoint route_acks (acks : list (sip.Request * txid)) : M unit :=
  match acks with
  | [] => ret tt
  | (req, tx) :: rest => ReadAck req tx ;; route_acks rest
  end.

(** The [for] loop of [Bye]: [None] is the [break], [Some err] the
    [return ctx.Err()]. *)
Fixpoint wait_confirmed (s : ptr) (waits : list WaitOutcome) : M (option error) :=
  let! ses := sessionOf s in
  emit (EvLoadState s (state ses)) ;;
  if state ses <? sip.DialogStateConfirmed then
    match waits with
    | [] => blocked
    | WaitTxDone :: _ =>
        mark_done (inviteTx ses) ;;
        emit (EvWaitInviteDone (inviteTx ses)) ;;
        ret None
    | WaitTimer acks :: rest =>
        route_acks acks ;;
        emit EvWaitTimer ;;
        wait_confirmed s rest
    | WaitCtxDone err :: _ =>
        emit (EvWaitCtxDone err) ;;
        ret (Some err)
    end
  else ret None.

Definition cli_TransactionRequest (bye : sip.Request) (result : option error)
    : M (option error) :=
  emit (EvRequest bye result) ;; ret result.

(** The last [select] of [Bye], on the BYE transaction. *)
Definition Bye_await (s : ptr) (final : ByeOutcome) : M (option error) :=
  match final with
  | ByeResponse res =>
      if negb (bool_decide (sip.StatusCode res = 200))
      then ret (Some (ErrDialogResponse res))
      else
        setState s sip.DialogStateEnded ;;
        ret None
  | ByeTxDone err => ret err
  | ByeCtxDone err => ret (Some err)
  end.

(** [Bye] after its confirmation wait: build the BYE, check that it
    belongs to this dialog, send it and wait for the answer. *)
Definition Bye_send (s : ptr) (req : sip.Request) (res : sip.Response)
    (env : ByeEnv) : M (option error) :=
  match newByeRequestUAS req res with
  | None => panic
  | Some bye =>
      match sip.req_CallID bye, sip.req_From bye, sip.req_To bye with
      | Some callidHDR, Some newFrom, Some newTo =>
          let byeID :=
            sip.MakeDialogID callidHDR
              (sip.param (sip.from_Params newFrom) "tag")
              (sip.param (sip.to_Params newTo) "tag") in
          let! now := sessionOf s in
          if negb (bool_decide (ID now = byeID)) then
            ret (Some (ErrNonMatchingID (ID now) byeID))
          else
            let bye :=
              match sip.req_Route bye with
              | Some rr => sip.SetDestination bye (sip.Uri_HostPort rr)
              | None => bye
              end in
            let! err := cli_TransactionRequest bye (bye_request env) in
            match err with
            | Some err => ret (Some err)
            | None =>
                defer (emit EvClientTerminate) (Bye_await s (bye_final env))
            end
      | _, _, _ => panic
      end
  end.

(** [Bye].  A session that never got a response has a nil
    [InviteResponse], and [res.IsSuccess] dereferences it. *)
Definition Bye (s : ptr) (env : ByeEnv) : M (option error) :=
  let! ses := sessionOf s in
  emit (EvLoadState s (state ses)) ;;
  if state ses =? sip.DialogStateEnded then ret None
  else
    let req := InviteRequest ses in
    match InviteResponse ses with
    | None => panic
    | Some res =>
        if negb (sip.IsSuccess res) then
          ret (Some (ErrorString "can not send bye on NON success response"))
        else
          defer (Close s ;; ret tt)
            (defer (tx_Terminate (inviteTx ses))
               (let! stop := wait_confirmed s (bye_waits env) in
                match stop with
                | Some err => ret (Some err)
                | None => Bye_send s req res env
                end))
    end.

(** What the two deferred calls of [Bye] leave behind: the setup
    transaction terminated, then the session closed. *)
Definition Bye_cleanup (s : ptr) (tx : txid) (w : World) : World :=
  ((Close s ;; ret tt) (tx_Terminate tx w).2).2.

(** The events a call added to the log. *)
Definition since (w w' : World) : list Event := drop (length (log w)) (log w').

Definition is_request (e : Event) : bool :=
  match e with EvRequest _ _ => true | _ => false end.

Definition is_respond (e : Event) : bool :=
  match e with EvRespond _ _ _ => true | _ => false end.

(** A BYE for which [TransactionRequest] gave a transaction. *)
Definition is_sent (e : Event) : bool :=
  match e with EvRequest _ None => true | _ => false end.

Definition is_ctx_done (e : Event) : bool :=
  match e with EvWaitCtxDone _ => true | _ => false end.

(** Events that are neither the sending of a BYE nor the cancellation
    of the caller's context. *)
Definition quiet (e : Event) : bool := negb (is_request e) && negb (is_ctx_done e).

Definition state_of (w : World) (p : ptr) : option Z :=
  state <$> sessions w !! p.

(** The result of the next [Respond] on a transaction. *)
Definition next_respond (t : ServerTx) : option error :=
  match tx_respond t with [] => None | r :: _ => r end.

(** Nothing is ready in the [select] of [WriteResponse]: no CANCEL
    waits and the transaction is not done. *)
Definition idle (w : World) (t : txid) : Prop :=
  tx_cancels (get_tx w t) = [] /\ tx_done (get_tx w t) = false.

(* ===================================================================== *)
(** * Sequences of operations *)
(* ===================================================================== *)

(** [NewDialogServer]: an empty registry with the given contact header;
    no session and no transaction exists yet. *)
Definition NewDialogServer (contactHDR : sip.ContactHeader) : World :=
  {| dialogs := ∅; contactHDR := contactHDR; sessions := ∅; txs := ∅;
     log := [] |}.

(** The calls an application and the transaction layer make, one after
    the other.  [OpTransaction] is the transaction layer changing a
    server transaction (a CANCEL arrives, the transaction ends, the next
    send will fail). *)
Inductive Op :=
| OpReadInvite (req : sip.Request) (tx : txid)
| OpReadAck (req : sip.Request) (tx : txid)
| OpReadBye (req : sip.Request) (tx : txid)
| OpClose (s : ptr)
| OpWriteResponse (s : ptr) (res : sip.Response) (pick_cancel : bool)
| OpRespond (s : ptr) (statusCode : Z) (reason : string)
    (body : option (list byte)) (headers : list sip.Header) (pick_cancel : bool)
| OpRespondSDP (s : ptr) (sdp : option (list byte)) (pick_cancel : bool)
| OpBye (s : ptr) (env : ByeEnv)
| OpTransaction (t : txid) (tx : ServerTx).

Definition run_op (op : Op) (w : World) : World :=
  match op with
  | OpReadInvite req tx => (ReadInvite req tx w).2
  | OpReadAck req tx => (ReadAck req tx w).2
  | OpReadBye req tx => (ReadBye req tx w).2
  | OpClose s => (Close s w).2
  | OpWriteResponse s res pick => (WriteResponse s res pick w).2
  | OpRespond s code reason body headers pick =>
      (Respond s code reason body headers pick w).2
  | OpRespondSDP s sdp pick => (RespondSDP s sdp pick w).2
  | OpBye s env => (Bye s env w).2
  | OpTransaction t tx => set_txs (<[t := tx]> (txs w)) w
  end.

Definition run (ops : list Op) (w : World) : World :=
  fold_left (fun w op => run_op op w) ops w.

(** The session an operation answers with a final (not provisional)
    response, if it does. *)
Definition final_answer (op : Op) : option ptr :=
  match op with
  | OpWriteResponse s res _ => if sip.IsProvisional res then None else Some s
  | OpRespond s code _ _ _ _ => if code <? 200 then None else Some s
  | OpRespondSDP s (Some _) _ => Some s
  | _ => None
  end.

(** No session is answered with a final response twice; [answered] are
    the sessions that already were. *)
Fixpoint one_final_answer (answered : gset ptr) (ops : list Op) : bool :=
  match ops with
  | [] => true
  | op :: rest =>
      match final_answer op with
      | None => one_final_answer answered rest
      | Some s =>
          bool_decide (s ∉ answered) && one_final_answer ({[s]} ∪ answered) rest
      end
  end.

Definition answered_after (answered : gset ptr) (op : Op) : gset ptr :=
  match final_answer op with
  | None => answered
  | Some s => {[s]} ∪ answered
  end.

(** Two values of one session that differ at most in the state and its
    notifications. *)
Definition same_dialog (s s' : DialogServerSession) : Prop :=
  ID s' = ID s /\ InviteRequest s' = InviteRequest s /\
  InviteResponse s' = InviteResponse s /\ inviteTx s' = inviteTx s /\
  cancelled s' = cancelled s.

(** What routing ACK requests does to the registry and the sessions:
    the registry is as before, and any session is as before or, if it
    was registered, Confirmed. *)
Definition acked (d d' : gmap string ptr)
    (ss ss' : gmap ptr DialogServerSession) : Prop :=
  d' = d /\
  forall q,
    match ss !! q with
    | None => ss' !! q = None
    | Some s =>
        exists s', ss' !! q = Some s' /\ same_dialog s s' /\
          (state s' = state s \/
           (state s' = sip.DialogStateConfirmed /\ exists k, d !! k = Some q))
    end.

(** The invariant of the registry, given the sessions that were
    answered with a final response: a registered session exists, is
    registered under its own ID, is Established or Confirmed and was
    answered; a session that left the initial state, or that holds a
    final response, was answered. *)
Definition registry_ok (answered : gset ptr) (d : gmap string ptr)
    (ss : gmap ptr DialogServerSession) : Prop :=
  (forall k p, d !! k = Some p ->
     exists s, ss !! p = Some s /\ ID s = k /\
       (state s = sip.DialogStateEstablished \/ state s = sip.DialogStateConfirmed) /\
       p ∈ answered) /\
  (forall p s, ss !! p = Some s -> state s <> 0 -> p ∈ answered) /\
  (forall p s res, ss !! p = Some s -> InviteResponse s = Some res ->
     sip.IsProvisional res = false -> p ∈ answered).

(** Sessions that are Ended stay Ended. *)
Definition ended_stay (ss ss' : gmap ptr DialogServerSession) : Prop :=
  forall p s, ss !! p = Some s -> state s = sip.DialogStateEnded ->
    exists s', ss' !! p = Some s' /\ state s' = sip.DialogStateEnded.

(** The events that send something or end a transaction. *)
Definition is_tx_event (e : Event) : bool :=
  match e with
  | EvRespond _ _ _ | EvTerminate _ | EvRequest _ _ | EvClientTerminate => true
  | _ => false
  end.

(** No registry entry points to nothing. *)
Definition live (w : World) : Prop :=
  forall k p, dialogs w !! k = Some p -> is_Some (sessions w !! p).

(** Several responses written to one session, one call after the other;
    each comes with the choice its [select] makes when it has one. *)
Fixpoint write_all (s : ptr) (rs : list (sip.Response * bool)) (w : World) : World :=
  match rs with
  | [] => w
  | (res, pick) :: rest => write_all s rest (WriteResponse s res pick w).2
  end.

(** The responses handed to [Respond], in order. *)
Fixpoint responded (tr : list Event) : list sip.Response :=
  match tr with
  | [] => []
  | EvRespond _ res _ :: rest => res :: responded rest
  | _ :: rest => responded rest
  end.

(* ===================================================================== *)
(** * A call between Alice and Bob, used to run the definitions *)
(* ===================================================================== *)

Module Example.
Import sip.

Definition uri (s : string) : Uri := default (mkUri s "") (ParseUri s).

Definition alice : FromHeader :=
  mkFrom "Alice" (uri "sip:alice@a.example") {[ "tag" := "fa" ]}.
Definition bob_untagged : ToHeader := mkTo "Bob" (uri "sip:bob@b.example") ∅.
Definition bob : ToHeader :=
  mkTo "Bob" (uri "sip:bob@b.example") {[ "tag" := "tb" ]}.
Definition alice_contact : ContactHeader :=
  mkContact "" (uri "sip:alice@192.0.2.1") ∅.
Definition bob_contact : ContactHeader :=
  mkContact "" (uri "sip:bob@192.0.2.2") ∅.

(** An INVITE that crossed three proxies. *)
Definition invite : Request :=
  {| Method := "INVITE"; Recipient := uri "sip:bob@b.example";
     req_headers :=
       [ HdrGeneric "Via" "SIP/2.0/UDP 192.0.2.1";
         HdrRecordRoute (uri "sip:p1.example");
         HdrRecordRoute (uri "sip:p2.example");
         HdrRecordRoute (uri "sip:p3.example");
         HdrFrom alice; HdrTo bob_untagged; HdrCallID "call-1";
         HdrContact alice_contact ];
     req_body := None; req_destination := "" |}.

Definition response (code : Z) (reason : string) : Response :=
  {| StatusCode := code; Reason := reason;
     res_headers := [HdrFrom alice; HdrTo bob; HdrCallID "call-1"];
     res_body := None |}.

Definition ok200 : Response := response 200 "OK".
Definition accepted202 : Response := response 202 "Accepted".
Definition busy486 : Response := response 486 "Busy Here".
Definition ringing180 : Response := response 180 "Ringing".

Definition dialog_id : string := "call-1__tb__fa".

(** In-dialog requests of Alice: an ACK, a BYE, and a BYE that lost
    its Call-ID. *)
Definition in_dialog (method : string) : Request :=
  {| Method := method; Recipient := uri "sip:bob@192.0.2.2";
     req_headers := [HdrFrom alice; HdrTo bob; HdrCallID "call-1"];
     req_body := None; req_destination := "" |}.

Definition ack : Request := in_dialog "ACK".
Definition bye_in : Request := in_dialog "BYE".
Definition cancel : Request := in_dialog "CANCEL".

Definition bye_without_callid : Request :=
  {| Method := "BYE"; Recipient := uri "sip:bob@192.0.2.2";
     req_headers := [HdrFrom alice; HdrTo bob];
     req_body := None; req_destination := "" |}.

(** The server before any call; transaction 1 carries the INVITE. *)
Definition world0 : World :=
  {| dialogs := ∅; contactHDR := bob_contact; sessions := ∅; txs := ∅;
     log := [] |}.

(** After [ReadInvite]: session 0 exists, nothing was answered. *)
Definition world_invited : World := (ReadInvite invite 1%nat world0).2.

(** After the 200 was written and sent: session 0 is established. *)
Definition world_established : World :=
  (WriteResponse 0%nat ok200 true world_invited).2.

(** After the ACK: session 0 is confirmed. *)
Definition world_confirmed : World := (ReadAck ack 2%nat world_established).2.

(** The setup transaction with a CANCEL waiting; [done] says whether it
    has also concluded, then with error 7. *)
Definition cancelled_tx (done : bool) : ServerTx :=
  {| tx_cancels := [cancel]; tx_done := done;
     tx_err := Some (ErrTransaction 7); tx_respond := [] |}.

Definition world_cancelled (done : bool) : World :=
  set_txs (<[1%nat := cancelled_tx done]> (txs world_invited)) world_invited.

(** The setup transaction whose next [Respond] fails with error 9. *)
Definition world_send_fails : World :=
  set_txs (<[1%nat := with_respond [Some (ErrTransaction 9)] idle_tx]>
             (txs world_invited)) world_invited.

(** [Bye] with no wait events, whose BYE gets the given answer. *)
Definition bye_answered (res : Response) : ByeEnv :=
  {| bye_waits := []; bye_request := None; bye_final := ByeResponse res |}.

(** [Bye] that sees the timer fire once, then the given wait event. *)
Definition bye_after_timer (o : WaitOutcome) : ByeEnv :=
  {| bye_waits := [WaitTimer []; o]; bye_request := None;
     bye_final := ByeResponse ok200 |}.

(** A whole call: ringing, answered, acknowledged, hung up locally. *)
Definition call_ops : list Op :=
  [ OpReadInvite invite 1%nat;
    OpWriteResponse 0%nat ringing180 true;
    OpWriteResponse 0%nat ok200 true;
    OpReadAck ack 2%nat;
    OpBye 0%nat (bye_answered ok200) ].

(** A session answered 200 and then 486. *)
Definition answered_twice_ops : list Op :=
  [ OpReadInvite invite 1%nat;
    OpWriteResponse 0%nat ok200 true;
    OpWriteResponse 0%nat busy486 true ].

(** A session answered 486 and then 200. *)
Definition refused_then_accepted_ops : list Op :=
  [ OpReadInvite invite 1%nat;
    OpWriteResponse 0%nat busy486 true;
    OpWriteResponse 0%nat ok200 true ].

End Example.

(* ===================================================================== *)
(** * Properties *)
(* ===================================================================== *)

(** ** The BYE builder *)

Lemma fold_append_routes (l : list sip.Header) (bye : sip.Request) :
  fold_left
    (fun bye recordRoute =>
       sip.req_AppendHeader bye
         (sip.NewHeader "Route" (sip.Header_Value recordRoute))) l bye
  = {| sip.Method := sip.Method bye; sip.Recipient := sip.Recipient bye;
       sip.req_headers :=
         sip.req_headers bye ++
         map (fun h => sip.NewHeader "Route" (sip.Header_Value h)) l;
       sip.req_body := sip.req_body bye;
       sip.req_destination := sip.req_destination bye |}.
Proof.
  revert bye. induction l as [|h l IH]; intros bye; simpl.
  - rewrite app_nil_r. by destruct bye.
  - rewrite IH. simpl. by rewrite <- app_assoc.
Qed.

Lemma GetHeaders_routes (l : list sip.Header) :
  sip.GetHeaders (map (fun h => sip.NewHeader "Route" (sip.Header_Value h)) l) "Route"
  = map (fun h => sip.NewHeader "Route" (sip.Header_Value h)) l.
Proof.
  unfold sip.GetHeaders. induction l as [|h l IH]; [done|].
  simpl. rewrite filter_cons_True; [by rewrite IH | done].
Qed.

(** C2: for a setup request with a Contact and a final response with
    From, To and Call-ID, the BYE built by [newByeRequestUAS] is
    addressed to the contact of the setup request, its From is the To of
    the response and its To the From of the response (with their
    parameters, so with their tags), its Call-ID is that of the response,
    and its Route headers are the Record-Route values of the setup
    request in reverse order of appearance. *)
Theorem newByeRequestUAS_correct (req : sip.Request) (res : sip.Response)
    (cont : sip.ContactHeader) (from : sip.FromHeader) (to : sip.ToHeader)
    (callid : string) :
  sip.req_Contact req = Some cont ->
  sip.res_From res = Some from ->
  sip.res_To res = Some to ->
  sip.res_CallID res = Some callid ->
  exists bye,
    newByeRequestUAS req res = Some bye /\
    sip.Method bye = sip.BYE /\
    sip.Recipient bye = sip.contact_Address cont /\
    sip.req_From bye =
      Some (sip.mkFrom (sip.to_DisplayName to) (sip.to_Address to) (sip.to_Params to)) /\
    sip.req_To bye =
      Some (sip.mkTo (sip.from_DisplayName from) (sip.from_Address from)
              (sip.from_Params from)) /\
    sip.req_CallID bye = Some callid /\
    sip.req_GetHeaders bye "Route" =
      map (fun h => sip.NewHeader "Route" (sip.Header_Value h))
          (rev (sip.req_GetHeaders req "Record-Route")) /\
    map sip.Header_Value (sip.req_GetHeaders bye "Route") =
      rev (map sip.Header_Value (sip.req_GetHeaders req "Record-Route")).
Proof.
  intros Hc Hf Ht Hid. unfold newByeRequestUAS.
  rewrite Hc, Hf, Ht, Hid, fold_append_routes. simpl.
  eexists. split; [reflexivity|]. simpl.
  assert (Hroutes :
    sip.req_GetHeaders
      {| sip.Method := sip.BYE; sip.Recipient := sip.contact_Address cont;
         sip.req_headers :=
           [sip.HdrFrom (sip.mkFrom (sip.to_DisplayName to) (sip.to_Address to)
                           (sip.to_Params to));
            sip.HdrTo (sip.mkTo (sip.from_DisplayName from) (sip.from_Address from)
                         (sip.from_Params from));
            sip.HdrCallID callid] ++
           map (fun h => sip.NewHeader "Route" (sip.Header_Value h))
               (rev (sip.req_GetHeaders req "Record-Route"));
         sip.req_body := None; sip.req_destination := "" |} "Route"
    = map (fun h => sip.NewHeader "Route" (sip.Header_Value h))
          (rev (sip.req_GetHeaders req "Record-Route"))).
  { unfold sip.req_GetHeaders at 1. cbn [sip.req_headers app].
    unfold sip.GetHeaders at 1.
    rewrite !filter_cons_False by (by vm_compute).
    apply GetHeaders_routes. }
  repeat split; try done; try exact Hroutes.
  cbn [app] in Hroutes. rewrite Hroutes, map_map, map_rev. done.
Qed.

Lemma newByeRequestUAS_correct_witness :
  exists bye,
    newByeRequestUAS Example.invite Example.ok200 = Some bye /\
    sip.Recipient bye = sip.contact_Address Example.alice_contact /\
    map sip.Header_Value (sip.req_GetHeaders bye "Route") =
      ["<sip:p3.example>"; "<sip:p2.example>"; "<sip:p1.example>"].
Proof.
  destruct (newByeRequestUAS_correct Example.invite Example.ok200
              Example.alice_contact Example.alice Example.bob "call-1"
              eq_refl eq_refl eq_refl eq_refl)
    as (bye & Hb & _ & Hr & _ & _ & _ & _ & Hroutes).
  exists bye. split; [exact Hb|]. split; [exact Hr|].
  rewrite Hroutes. reflexivity.
Defined.

(** ** Routing of in-dialog requests *)

Lemma Is_OutsideDialog_IDError (e : sip.IDError) :
  Is_OutsideDialog (ErrIDError e) = false.
Proof. reflexivity. Qed.

Lemma ReadAck_outside_dialog (req : sip.Request) (tx : txid) (w : World)
    (e : sip.IDError) :
  sip.MakeDialogIDFromRequest req = inr e ->
  ReadAck req tx w =
    (Ret (Some (errors_Join ErrDialogOutsideDialog (ErrIDError e))), w) /\
  Is_OutsideDialog (errors_Join ErrDialogOutsideDialog (ErrIDError e)) = true.
Proof. intros H. unfold ReadAck. rewrite H. done. Qed.

Lemma ReadBye_outside_dialog (req : sip.Request) (tx : txid) (w : World)
    (e : sip.IDError) :
  sip.MakeDialogIDFromRequest req = inr e ->
  ReadBye req tx w = (Ret (Some (ErrIDError e)), w).
Proof. intros H. unfold ReadBye. rewrite H. done. Qed.

Lemma ReadAck_not_found (req : sip.Request) (tx : txid) (w : World) (id : string) :
  sip.MakeDialogIDFromRequest req = inl id ->
  dialogs w !! id = None ->
  ReadAck req tx w = (Ret (Some ErrDialogDoesNotExists), add_log (EvLoad id None) w).
Proof.
  intros H Hd. unfold ReadAck. rewrite H.
  unfold bind, loadDialog, dialogs_Load. rewrite Hd. done.
Qed.

Lemma ReadBye_not_found (req : sip.Request) (tx : txid) (w : World) (id : string) :
  sip.MakeDialogIDFromRequest req = inl id ->
  dialogs w !! id = None ->
  ReadBye req tx w = (Ret (Some ErrDialogDoesNotExists), add_log (EvLoad id None) w).
Proof.
  intros H Hd. unfold ReadBye. rewrite H.
  unfold bind, loadDialog, dialogs_Load. rewrite Hd. done.
Qed.

(** C6: a BYE whose identity cannot be computed.  [ReadBye] returns the
    error of the message layer as it is, which is not
    [ErrDialogOutsideDialog]; [ReadAck], on the same request, returns a
    join that holds [ErrDialogOutsideDialog]. *)
Theorem ReadBye_returns_bare_id_error :
  sip.MakeDialogIDFromRequest Example.bye_without_callid = inr sip.MissingCallID /\
  ReadBye Example.bye_without_callid 3%nat Example.world_established =
    (Ret (Some (ErrIDError sip.MissingCallID)), Example.world_established) /\
  Is_OutsideDialog (ErrIDError sip.MissingCallID) = false /\
  exists e,
    (ReadAck Example.bye_without_callid 3%nat Example.world_established).1 =
      Ret (Some e) /\
    Is_OutsideDialog e = true.
Proof.
  assert (H : sip.MakeDialogIDFromRequest Example.bye_without_callid =
              inr sip.MissingCallID) by reflexivity.
  split; [exact H|]. split; [by apply ReadBye_outside_dialog|].
  split; [reflexivity|].
  destruct (ReadAck_outside_dialog _ 3%nat Example.world_established _ H)
    as [Hr Hi].
  eexists. rewrite Hr. split; [reflexivity | exact Hi].
Qed.

(** ** Close *)

Lemma Close_eq (w : World) (p : ptr) (s : DialogServerSession) :
  sessions w !! p = Some s ->
  Close p w =
    (Ret None, add_log (EvDelete (ID s)) (set_dialogs (delete (ID s) (dialogs w)) w)).
Proof.
  intros H. unfold Close, bind, sessionOf. rewrite H. reflexivity.
Qed.

(** C9, as the code has it: [Close] deletes the registry entry under the
    ID of the session and returns nil; it touches no session, so the
    lifetime context is not cancelled; a second call deletes nothing
    more and returns nil again. *)
Theorem Close_deletes_only (w : World) (p : ptr) (s : DialogServerSession) :
  sessions w !! p = Some s ->
  let w1 := (Close p w).2 in
  let w2 := (Close p w1).2 in
  (Close p w).1 = Ret None /\
  dialogs w1 = delete (ID s) (dialogs w) /\
  dialogs w1 !! ID s = None /\
  sessions w1 = sessions w /\
  txs w1 = txs w /\
  since w w1 = [EvDelete (ID s)] /\
  (Close p w1).1 = Ret None /\
  dialogs w2 = dialogs w1 /\
  sessions w2 = sessions w.
Proof.
  intros H. cbn zeta.
  rewrite (Close_eq w p s H). cbn [fst snd].
  rewrite (Close_eq _ p s) by exact H. cbn [fst snd].
  repeat split.
  - cbn. apply lookup_delete_eq.
  - unfold since. cbn. by rewrite drop_app_length.
  - cbn. apply delete_delete_eq.
Qed.

Lemma Close_deletes_only_witness :
  let w1 := (Close 0%nat Example.world_established).2 in
  dialogs Example.world_established !! Example.dialog_id = Some 0%nat /\
  dialogs w1 !! Example.dialog_id = None /\
  sessions w1 = sessions Example.world_established.
Proof.
  cbn zeta.
  assert (Hs : exists s, sessions Example.world_established !! 0%nat = Some s
                         /\ ID s = Example.dialog_id).
  { eexists. split; [vm_compute; reflexivity | reflexivity]. }
  destruct Hs as (s & Hs & Hid).
  destruct (Close_deletes_only Example.world_established 0%nat s Hs)
    as (_ & _ & Hgone & Hsame & _).
  split; [by vm_compute|]. rewrite <- Hid. split; [exact Hgone | exact Hsame].
Defined.

(** C9, a handle the claim fails on: after [Close] on the established
    session of the example, the cancel function of its lifetime context
    has been called zero times, not once. *)
Lemma Close_does_not_cancel :
  (Close 0%nat Example.world_established).1 = Ret None /\
  cancelled <$> sessions (Close 0%nat Example.world_established).2 !! 0%nat
    = Some 0%nat /\
  cancelled <$> sessions (Close 0%nat Example.world_established).2 !! 0%nat
    <> Some 1%nat.
Proof. by vm_compute. Qed.

(** ** Symbolic execution of [WriteResponse] *)

Lemma since_app w w' tr : log w' = log w ++ tr -> since w w' = tr.
Proof. intros H. unfold since. rewrite H. apply drop_app_length. Qed.


Ltac unfold_ops :=
  unfold WriteResponse, ReadAck, ReadBye, Close, loadDialog, dialogs_Load,
    dialogs_Store, dialogs_Delete, setState, bind, defer, sessionOf, get_world,
    modify_session, emit, race_check, tx_Respond, tx_Err, tx_Terminate, ret,
    panic, blocked, get_tx, next_respond in *.

Ltac use_eqs :=
  match goal with
  | H : ?l = _ |- context [?l] => rewrite H
  end.

Ltac exec := repeat first [ progress cbn | use_eqs | rewrite lookup_insert_eq ].

Lemma WriteResponse_cancel w p s res pick req rest :
  sessions w !! p = Some s ->
  tx_cancels (get_tx w (inviteTx s)) = req :: rest ->
  tx_done (get_tx w (inviteTx s)) = false \/ pick = true ->
  let res' := sip.res_AppendHeader res (sip.HdrContact (contactHDR w)) in
  let r := WriteResponse p res pick w in
  r.1 = Ret (Some ErrDialogCanceled) /\
  dialogs r.2 = dialogs w /\
  sessions r.2 = <[p := with_InviteResponse res' s]> (sessions w) /\
  log r.2 = log w ++ [EvSetResponse p res'; EvRaceCheck (inviteTx s);
                      EvRespond (inviteTx s) (sip.NewResponseFromRequest req sip.StatusOK "OK" None)
                        (next_respond (get_tx w (inviteTx s)))].
Proof.
  intros Hs Hc Hd. cbn zeta. unfold_ops.
  assert (Hb : tx_done (default idle_tx (txs w !! inviteTx s)) && negb pick = false).
  { destruct Hd as [-> | ->]; [done | by rewrite andb_false_r]. }
  clear Hd. exec.
  destruct (tx_respond (default idle_tx (txs w !! inviteTx s))) as [|r rs]; exec;
    rewrite <- !app_assoc; done.
Qed.

Lemma WriteResponse_done w p s res pick :
  sessions w !! p = Some s ->
  tx_done (get_tx w (inviteTx s)) = true ->
  tx_cancels (get_tx w (inviteTx s)) = [] \/ pick = false ->
  let res' := sip.res_AppendHeader res (sip.HdrContact (contactHDR w)) in
  let r := WriteResponse p res pick w in
  r.1 = Ret (tx_err (get_tx w (inviteTx s))) /\
  dialogs r.2 = dialogs w /\
  sessions r.2 = <[p := with_InviteResponse res' s]> (sessions w) /\
  log r.2 = log w ++ [EvSetResponse p res'; EvRaceCheck (inviteTx s)].
Proof.
  intros Hs Hd Hc. cbn zeta. unfold_ops.
  destruct (tx_cancels (default idle_tx (txs w !! inviteTx s))) as [|c cs] eqn:Hcs.
  - exec. rewrite <- !app_assoc. done.
  - destruct Hc as [? | ->]; [done|]. exec. rewrite <- !app_assoc. done.
Qed.

Lemma WriteResponse_provisional w p s res pick :
  sessions w !! p = Some s ->
  idle w (inviteTx s) ->
  sip.IsProvisional res = true ->
  let res' := sip.res_AppendHeader res (sip.HdrContact (contactHDR w)) in
  let r := WriteResponse p res pick w in
  r.1 = Ret (next_respond (get_tx w (inviteTx s))) /\
  dialogs r.2 = dialogs w /\
  sessions r.2 = <[p := with_InviteResponse res' s]> (sessions w) /\
  log r.2 = log w ++ [EvSetResponse p res'; EvRaceCheck (inviteTx s);
                      EvRespond (inviteTx s) res' (next_respond (get_tx w (inviteTx s)))].
Proof.
  intros Hs [Hc Hd] Hp. cbn zeta.
  assert (Hn : sip.IsSuccess (sip.res_AppendHeader res (sip.HdrContact (contactHDR w))) = false).
  { unfold sip.IsProvisional, sip.IsSuccess in *. cbn. lia. }
  assert (Hp' : sip.IsProvisional (sip.res_AppendHeader res (sip.HdrContact (contactHDR w))) = true) by exact Hp.
  unfold_ops. exec.
  destruct (tx_respond (default idle_tx (txs w !! inviteTx s))) as [|r rs]; exec;
    rewrite <- !app_assoc; done.
Qed.

Lemma WriteResponse_failure w p s res pick :
  sessions w !! p = Some s ->
  idle w (inviteTx s) ->
  sip.IsProvisional res = false ->
  sip.IsSuccess res = false ->
  let res' := sip.res_AppendHeader res (sip.HdrContact (contactHDR w)) in
  let r := WriteResponse p res pick w in
  let sent := next_respond (get_tx w (inviteTx s)) in
  r.1 = Ret sent /\
  dialogs r.2 = dialogs w /\
  sessions r.2 =
    <[p := match sent with
           | None => with_state sip.DialogStateEnded (with_InviteResponse res' s)
           | Some _ => with_InviteResponse res' s
           end]> (sessions w) /\
  log r.2 = log w ++ [EvSetResponse p res'; EvRaceCheck (inviteTx s);
                      EvRespond (inviteTx s) res' sent] ++
            match sent with
            | None => [EvSetState p sip.DialogStateEnded]
            | Some _ => []
            end.
Proof.
  intros Hs [Hc Hd] Hp Hn. cbn zeta.
  assert (Hn' : sip.IsSuccess (sip.res_AppendHeader res (sip.HdrContact (contactHDR w))) = false) by exact Hn.
  assert (Hp' : sip.IsProvisional (sip.res_AppendHeader res (sip.HdrContact (contactHDR w))) = false) by exact Hp.
  unfold_ops. exec.
  destruct (tx_respond (default idle_tx (txs w !! inviteTx s))) as [|[e|] rs]; exec;
    rewrite <- ?app_assoc, ?insert_insert_eq; done.
Qed.

Lemma WriteResponse_no_identity w p s res pick e :
  sessions w !! p = Some s ->
  idle w (inviteTx s) ->
  sip.IsSuccess res = true ->
  let res' := sip.res_AppendHeader res (sip.HdrContact (contactHDR w)) in
  sip.MakeDialogIDFromResponse res' = inr e ->
  let r := WriteResponse p res pick w in
  r.1 = Ret (Some (ErrIDError e)) /\
  dialogs r.2 = dialogs w /\
  sessions r.2 = <[p := with_InviteResponse res' s]> (sessions w) /\
  log r.2 = log w ++ [EvSetResponse p res'; EvRaceCheck (inviteTx s)].
Proof.
  intros Hs [Hc Hd] Hn. cbn zeta. intros Hid.
  assert (Hn' : sip.IsSuccess (sip.res_AppendHeader res (sip.HdrContact (contactHDR w))) = true) by exact Hn.
  unfold_ops. exec. rewrite <- ?app_assoc. done.
Qed.

Lemma WriteResponse_success w p s res pick id :
  sessions w !! p = Some s ->
  idle w (inviteTx s) ->
  sip.IsSuccess res = true ->
  let res' := sip.res_AppendHeader res (sip.HdrContact (contactHDR w)) in
  sip.MakeDialogIDFromResponse res' = inl id ->
  let r := WriteResponse p res pick w in
  let sent := next_respond (get_tx w (inviteTx s)) in
  r.1 = Ret sent /\
  dialogs r.2 =
    match sent with
    | None => <[id := p]> (dialogs w)
    | Some _ => delete id (dialogs w)
    end /\
  sessions r.2 =
    <[p := with_state sip.DialogStateEstablished
             (with_ID id (with_InviteResponse res' s))]> (sessions w) /\
  log r.2 = log w ++ [EvSetResponse p res'; EvRaceCheck (inviteTx s);
                      EvSetID p id; EvStore id p;
                      EvSetState p sip.DialogStateEstablished;
                      EvRespond (inviteTx s) res' sent] ++
            match sent with
            | None => []
            | Some _ => [EvDelete id]
            end.
Proof.
  intros Hs [Hc Hd] Hn. cbn zeta. intros Hid.
  assert (Hn' : sip.IsSuccess (sip.res_AppendHeader res (sip.HdrContact (contactHDR w))) = true) by exact Hn.
  unfold_ops. exec.
  destruct (tx_respond (default idle_tx (txs w !! inviteTx s))) as [|[e|] rs]; exec;
    rewrite <- ?app_assoc, ?insert_insert_eq, ?delete_insert_eq; done.
Qed.


Lemma GetHeaders_In (hs : list sip.Header) (name : string) (h : sip.Header) :
  In h (sip.GetHeaders hs name) -> sip.name_matches name h = true.
Proof.
  unfold sip.GetHeaders. intros H. apply list_elem_of_In in H.
  apply list_elem_of_filter in H. tauto.
Qed.

Lemma NewResponseFromRequest_no_contact req code reason body h :
  ~ In (sip.HdrContact h) (sip.res_headers (sip.NewResponseFromRequest req code reason body)).
Proof.
  cbn. rewrite !in_app_iff. unfold sip.req_GetHeaders, sip.opt_header.
  intros [H|[H|[H|[H|[H|H]]]]];
    try (apply GetHeaders_In in H; vm_compute in H; discriminate).
  - destruct (sip.req_From req); cbn in H; [destruct H as [H|[]]; discriminate | done].
  - destruct (sip.req_To req); cbn in H; [destruct H as [H|[]]; discriminate | done].
  - destruct (sip.req_CallID req); cbn in H; [destruct H as [H|[]]; discriminate | done].
Qed.

Lemma ack_of_cancel_differs req code reason body res h :
  sip.NewResponseFromRequest req code reason body <> sip.res_AppendHeader res (sip.HdrContact h).
Proof.
  intros H. apply (NewResponseFromRequest_no_contact req code reason body h).
  rewrite H. cbn. apply in_app_iff. right. by left.
Qed.

Lemma state_of_insert w w' p s' :
  sessions w' = <[p := s']> (sessions w) -> state_of w' p = Some (state s').
Proof. intros H. unfold state_of. rewrite H, lookup_insert_eq. done. Qed.

Lemma nil_split_inv {A} (tr1 : list A) (x : A) (tr2 : list A) :
  [] = tr1 ++ x :: tr2 -> False.
Proof. by destruct tr1. Qed.

Lemma cons_split_inv {A} (a : A) (l tr1 : list A) (x : A) (tr2 : list A) :
  a :: l = tr1 ++ x :: tr2 ->
  (tr1 = [] /\ a = x /\ l = tr2) \/
  (exists tr1', tr1 = a :: tr1' /\ l = tr1' ++ x :: tr2).
Proof.
  destruct tr1 as [|b tr1]; cbn; intros H; injection H as -> ->; eauto.
Qed.

(** All the ways an explicit list splits around a given element. *)
Ltac splits H :=
  lazymatch type of H with
  | [] = _ ++ _ :: _ => destruct (nil_split_inv _ _ _ H)
  | _ :: _ = _ ++ _ :: _ =>
      let Hx := fresh "Hx" in
      let tr := fresh "tr" in
      apply cons_split_inv in H;
      destruct H as [(-> & Hx & <-) | (tr & -> & H)];
      [ first [ discriminate Hx | congruence | simplify_eq ] | splits H ]
  end.

(** C10: in every call of [WriteResponse] the contact header of the
    registry is appended to the response and the response is stored as
    the setup response of the session before the race check on the
    transaction runs.  So whatever the call returns, the session holds
    the response afterwards; in particular when a CANCEL waits or the
    transaction is done, the call returns [ErrDialogCanceled] or the
    error of the transaction, never passes the response to [Respond],
    and leaves registry and state as they were. *)
Theorem WriteResponse_stores_first (w : World) (p : ptr) (s : DialogServerSession)
    (res : sip.Response) (pick : bool) :
  sessions w !! p = Some s ->
  let tx := inviteTx s in
  let res' := sip.res_AppendHeader res (sip.HdrContact (contactHDR w)) in
  let r := WriteResponse p res pick w in
  sip.res_headers res' = sip.res_headers res ++ [sip.HdrContact (contactHDR w)] /\
  InviteResponse <$> sessions r.2 !! p = Some (Some res') /\
  (exists tr, since w r.2 = EvSetResponse p res' :: EvRaceCheck tx :: tr) /\
  (tx_cancels (get_tx w tx) <> [] \/ tx_done (get_tx w tx) = true ->
   (r.1 = Ret (Some ErrDialogCanceled) \/ r.1 = Ret (tx_err (get_tx w tx))) /\
   (forall t e, ~ In (EvRespond t res' e) (since w r.2)) /\
   dialogs r.2 = dialogs w /\
   state_of r.2 p = state_of w p).
Proof.
  intros Hs. cbn zeta. split; [reflexivity|].
  assert (Hst : state_of w p = Some (state s)) by (unfold state_of; by rewrite Hs).
  destruct (tx_cancels (get_tx w (inviteTx s))) as [|c cs] eqn:Hc;
    destruct (tx_done (get_tx w (inviteTx s))) eqn:Hd.
  - destruct (WriteResponse_done w p s res pick Hs Hd (or_introl Hc))
      as (Hr & Hdg & Hss & Hl).
    rewrite (since_app _ _ _ Hl), Hss, lookup_insert_eq.
    split; [done|]. split; [eauto|]. intros _.
    repeat split; eauto.
    + intros t e [?|[?|[]]]; discriminate.
    + by rewrite (state_of_insert _ _ _ _ Hss).
  - assert (Hi : idle w (inviteTx s)) by done.
    destruct (sip.IsProvisional res) eqn:Hp; [|destruct (sip.IsSuccess res) eqn:Hn].
    + destruct (WriteResponse_provisional w p s res pick Hs Hi Hp)
        as (Hr & Hdg & Hss & Hl).
      rewrite (since_app _ _ _ Hl), Hss, lookup_insert_eq.
      split; [done|]. split; [eauto|]. intros [?|?]; done.
    + destruct (sip.MakeDialogIDFromResponse
                  (sip.res_AppendHeader res (sip.HdrContact (contactHDR w))))
        as [id|e] eqn:Hid.
      * destruct (WriteResponse_success w p s res pick id Hs Hi Hn Hid)
          as (Hr & Hdg & Hss & Hl).
        rewrite (since_app _ _ _ Hl), Hss, lookup_insert_eq.
        split; [done|]. split; [eauto|]. intros [?|?]; done.
      * destruct (WriteResponse_no_identity w p s res pick e Hs Hi Hn Hid)
          as (Hr & Hdg & Hss & Hl).
        rewrite (since_app _ _ _ Hl), Hss, lookup_insert_eq.
        split; [done|]. split; [eauto|]. intros [?|?]; done.
    + destruct (WriteResponse_failure w p s res pick Hs Hi Hp Hn)
        as (Hr & Hdg & Hss & Hl).
      rewrite (since_app _ _ _ Hl), Hss, lookup_insert_eq.
      split; [by destruct (next_respond (get_tx w (inviteTx s)))|].
      split; [eauto|]. intros [?|?]; done.
  - destruct pick.
    + destruct (WriteResponse_cancel w p s res true c cs Hs Hc (or_intror eq_refl))
        as (Hr & Hdg & Hss & Hl).
      rewrite (since_app _ _ _ Hl), Hss, lookup_insert_eq.
      split; [done|]. split; [eauto|]. intros _.
      repeat split; eauto.
      * intros t e [Hx|[Hx|[Hx|[]]]]; try discriminate.
        pose proof (ack_of_cancel_differs c sip.StatusOK "OK" None res (contactHDR w));
        congruence.
      * by rewrite (state_of_insert _ _ _ _ Hss).
    + destruct (WriteResponse_done w p s res false Hs Hd (or_intror eq_refl))
        as (Hr & Hdg & Hss & Hl).
      rewrite (since_app _ _ _ Hl), Hss, lookup_insert_eq.
      split; [done|]. split; [eauto|]. intros _.
      repeat split; eauto.
      * intros t e [?|[?|[]]]; discriminate.
      * by rewrite (state_of_insert _ _ _ _ Hss).
  - destruct (WriteResponse_cancel w p s res pick c cs Hs Hc (or_introl Hd))
      as (Hr & Hdg & Hss & Hl).
    rewrite (since_app _ _ _ Hl), Hss, lookup_insert_eq.
    split; [done|]. split; [eauto|]. intros _.
    repeat split; eauto.
    + intros t e [Hx|[Hx|[Hx|[]]]]; try discriminate.
      pose proof (ack_of_cancel_differs c sip.StatusOK "OK" None res (contactHDR w));
        congruence.
    + by rewrite (state_of_insert _ _ _ _ Hss).
Qed.

Lemma WriteResponse_stores_first_witness :
  let r := WriteResponse 0%nat Example.ok200 true (Example.world_cancelled false) in
  r.1 = Ret (Some ErrDialogCanceled) /\
  InviteResponse <$> sessions r.2 !! 0%nat =
    Some (Some (sip.res_AppendHeader Example.ok200
                  (sip.HdrContact Example.bob_contact))) /\
  dialogs r.2 = dialogs (Example.world_cancelled false).
Proof.
  cbn zeta.
  assert (Hs : exists s, sessions (Example.world_cancelled false) !! 0%nat = Some s
                         /\ inviteTx s = 1%nat).
  { eexists. split; [vm_compute; reflexivity | reflexivity]. }
  destruct Hs as (s & Hs & Htx).
  destruct (WriteResponse_stores_first (Example.world_cancelled false) 0%nat s
              Example.ok200 true Hs) as (_ & Hstored & _ & Hrace).
  destruct Hrace as ([Hr|Hr] & _ & Hd & _).
  { left. rewrite Htx. by vm_compute. }
  - split; [exact Hr|]. split; [exact Hstored | exact Hd].
  - split; [by vm_compute|]. split; [exact Hstored | exact Hd].
Defined.

(** ** Cancellation seen by [WriteResponse] *)

(** C5, as the code has it: when a CANCEL waits on the setup
    transaction, [WriteResponse] changes neither the registry nor the
    state nor the ID of the session, whatever the response.  If the
    transaction is not done, or it is done and the [select] takes the
    [Cancels] case, the call answers the CANCEL with 200 OK and returns
    [ErrDialogCanceled]; if the transaction is done and the [select]
    takes the [Done] case, the call returns the error of the transaction
    and answers nothing. *)
Theorem WriteResponse_cancel_pending (w : World) (p : ptr)
    (s : DialogServerSession) (res : sip.Response) (pick : bool)
    (req : sip.Request) (rest : list sip.Request) :
  sessions w !! p = Some s ->
  tx_cancels (get_tx w (inviteTx s)) = req :: rest ->
  let tx := inviteTx s in
  let res' := sip.res_AppendHeader res (sip.HdrContact (contactHDR w)) in
  let r := WriteResponse p res pick w in
  dialogs r.2 = dialogs w /\
  state_of r.2 p = state_of w p /\
  ID <$> sessions r.2 !! p = Some (ID s) /\
  (tx_done (get_tx w tx) = false \/ pick = true ->
   r.1 = Ret (Some ErrDialogCanceled) /\
   since w r.2 =
     [EvSetResponse p res'; EvRaceCheck tx;
      EvRespond tx (sip.NewResponseFromRequest req sip.StatusOK "OK" None)
        (next_respond (get_tx w tx))]) /\
  (tx_done (get_tx w tx) = true /\ pick = false ->
   r.1 = Ret (tx_err (get_tx w tx)) /\
   since w r.2 = [EvSetResponse p res'; EvRaceCheck tx]).
Proof.
  intros Hs Hc. cbn zeta.
  assert (Hst : state_of w p = Some (state s)) by (unfold state_of; by rewrite Hs).
  assert (Hcases : tx_done (get_tx w (inviteTx s)) = false \/ pick = true \/
                   (tx_done (get_tx w (inviteTx s)) = true /\ pick = false)).
  { destruct (tx_done (get_tx w (inviteTx s))), pick; auto. }
  destruct Hcases as [Hd|[Hd|[Hd Hp]]].
  - destruct (WriteResponse_cancel w p s res pick req rest Hs Hc (or_introl Hd))
      as (Hr & Hdg & Hss & Hl).
    rewrite (since_app _ _ _ Hl), Hss, lookup_insert_eq,
      (state_of_insert _ _ _ _ Hss).
    split; [done|]. split; [done|]. split; [done|]. split; [done|].
    intros [Hd' _]. congruence.
  - destruct (WriteResponse_cancel w p s res pick req rest Hs Hc (or_intror Hd))
      as (Hr & Hdg & Hss & Hl).
    rewrite (since_app _ _ _ Hl), Hss, lookup_insert_eq,
      (state_of_insert _ _ _ _ Hss).
    split; [done|]. split; [done|]. split; [done|]. split; [done|].
    intros [_ Hp]. congruence.
  - destruct (WriteResponse_done w p s res pick Hs Hd (or_intror Hp))
      as (Hr & Hdg & Hss & Hl).
    rewrite (since_app _ _ _ Hl), Hss, lookup_insert_eq,
      (state_of_insert _ _ _ _ Hss).
    split; [done|]. split; [done|]. split; [done|].
    split; [intros [?|?]; congruence | done].
Qed.

Lemma WriteResponse_cancel_pending_witness :
  let r := WriteResponse 0%nat Example.ok200 false (Example.world_cancelled false) in
  r.1 = Ret (Some ErrDialogCanceled) /\
  dialogs r.2 = dialogs (Example.world_cancelled false) /\
  state_of r.2 0%nat = Some 0.
Proof.
  cbn zeta.
  assert (Hs : exists s, sessions (Example.world_cancelled false) !! 0%nat = Some s
                         /\ inviteTx s = 1%nat).
  { eexists. split; [vm_compute; reflexivity | reflexivity]. }
  destruct Hs as (s & Hs & Htx).
  assert (Hc : tx_cancels (get_tx (Example.world_cancelled false) (inviteTx s))
               = [Example.cancel]).
  { rewrite Htx. by vm_compute. }
  destruct (WriteResponse_cancel_pending (Example.world_cancelled false) 0%nat s
              Example.ok200 false Example.cancel [] Hs Hc)
    as (Hd & Hst & _ & Hcancel & _).
  destruct Hcancel as [Hr _].
  { left. rewrite Htx. by vm_compute. }
  split; [exact Hr|]. split; [exact Hd|]. rewrite Hst. by vm_compute.
Defined.

(** C5, an input the claim fails on: a CANCEL waits on the setup
    transaction, which is also done (with error 7); the [select] takes
    the [Done] case.  The 200 is a final success response, yet the call
    returns the error of the transaction, not [ErrDialogCanceled], and
    answers nothing to the CANCEL. *)
Lemma WriteResponse_cancel_lost_to_done :
  let w := Example.world_cancelled true in
  let r := WriteResponse 0%nat Example.ok200 false w in
  tx_cancels (get_tx w 1%nat) = [Example.cancel] /\
  (inviteTx <$> sessions w !! 0%nat) = Some 1%nat /\
  sip.IsSuccess Example.ok200 = true /\
  r.1 = Ret (Some (ErrTransaction 7)) /\
  r.1 <> Ret (Some ErrDialogCanceled) /\
  existsb is_respond (since w r.2) = false.
Proof. by vm_compute. Qed.

(** ** Registration and the sending of the final success response *)

Lemma ReadAck_found (req : sip.Request) (tx : txid) (w : World) (id : string)
    (p : ptr) (s : DialogServerSession) :
  sip.MakeDialogIDFromRequest req = inl id ->
  dialogs w !! id = Some p ->
  sessions w !! p = Some s ->
  ReadAck req tx w =
    (Ret None,
     add_log (EvSetState p sip.DialogStateConfirmed)
       (set_sessions (<[p := with_state sip.DialogStateConfirmed s]> (sessions w))
          (add_log (EvLoad id (Some p)) w))).
Proof.
  intros Hid Hd Hs. unfold ReadAck. rewrite Hid. unfold_ops. exec. done.
Qed.

(** C1: [WriteResponse] with a final success response.  Whenever the
    response is passed to [Respond] on the setup transaction, the
    session was stored in the registry under the identity of the
    response earlier in the same call and not deleted in between.  If
    that send succeeds the call returns nil, the registry holds the
    session under that identity, and [ReadAck] on any request of that
    identity finds it.  If that send fails the call deletes the entry
    again as its last effect and returns the error of the send. *)
Theorem WriteResponse_registers_before_send (w : World) (p : ptr)
    (s : DialogServerSession) (res : sip.Response) (pick : bool) :
  sessions w !! p = Some s ->
  sip.IsSuccess res = true ->
  let tx := inviteTx s in
  let res' := sip.res_AppendHeader res (sip.HdrContact (contactHDR w)) in
  let r := WriteResponse p res pick w in
  forall tr1 sent tr2,
    since w r.2 = tr1 ++ EvRespond tx res' sent :: tr2 ->
    exists id,
      sip.MakeDialogIDFromResponse res' = inl id /\
      In (EvStore id p) tr1 /\
      ~ In (EvDelete id) tr1 /\
      r.1 = Ret sent /\
      match sent with
      | None =>
          tr2 = [] /\
          dialogs r.2 !! id = Some p /\
          forall ack tx',
            sip.MakeDialogIDFromRequest ack = inl id ->
            (ReadAck ack tx' r.2).1 = Ret None
      | Some _ =>
          tr2 = [EvDelete id] /\
          dialogs r.2 !! id = None
      end.
Proof.
  intros Hs Hn. cbn zeta. intros tr1 sent tr2 Hsplit.
  destruct (tx_cancels (get_tx w (inviteTx s))) as [|c cs] eqn:Hc;
    destruct (tx_done (get_tx w (inviteTx s))) eqn:Hd.
  - destruct (WriteResponse_done w p s res pick Hs Hd (or_introl Hc))
      as (_ & _ & _ & Hl).
    rewrite (since_app _ _ _ Hl) in Hsplit. splits Hsplit.
  - assert (Hi : idle w (inviteTx s)) by done.
    destruct (sip.MakeDialogIDFromResponse
                (sip.res_AppendHeader res (sip.HdrContact (contactHDR w))))
      as [id|e] eqn:Hid.
    + destruct (WriteResponse_success w p s res pick id Hs Hi Hn Hid)
        as (Hr & Hdg & Hss & Hl).
      rewrite (since_app _ _ _ Hl) in Hsplit.
      exists id. split; [done|].
      destruct (next_respond (get_tx w (inviteTx s))) as [e|] eqn:Hsent;
        cbn in Hsplit; splits Hsplit.
      * split; [cbn; tauto|]. split; [cbn; intros H'; intuition discriminate|].
        split; [done|]. split; [done|].
        rewrite Hdg. apply lookup_delete_eq.
      * split; [cbn; tauto|]. split; [cbn; intros H'; intuition discriminate|].
        split; [done|]. split; [done|].
        assert (Hreg : dialogs (WriteResponse p res pick w).2 !! id = Some p)
          by (rewrite Hdg; apply lookup_insert_eq).
        split; [exact Hreg|].
        intros ack tx' Hack.
        erewrite ReadAck_found; [done | exact Hack | exact Hreg |].
        rewrite Hss. apply lookup_insert_eq.
    + destruct (WriteResponse_no_identity w p s res pick e Hs Hi Hn Hid)
        as (_ & _ & _ & Hl).
      rewrite (since_app _ _ _ Hl) in Hsplit. splits Hsplit.
  - destruct pick.
    + destruct (WriteResponse_cancel w p s res true c cs Hs Hc (or_intror eq_refl))
        as (_ & _ & _ & Hl).
      rewrite (since_app _ _ _ Hl) in Hsplit.
      pose proof (ack_of_cancel_differs c sip.StatusOK "OK" None res (contactHDR w)).
      splits Hsplit.
    + destruct (WriteResponse_done w p s res false Hs Hd (or_intror eq_refl))
        as (_ & _ & _ & Hl).
      rewrite (since_app _ _ _ Hl) in Hsplit. splits Hsplit.
  - destruct (WriteResponse_cancel w p s res pick c cs Hs Hc (or_introl Hd))
      as (_ & _ & _ & Hl).
    rewrite (since_app _ _ _ Hl) in Hsplit.
    pose proof (ack_of_cancel_differs c sip.StatusOK "OK" None res (contactHDR w)).
    splits Hsplit.
Qed.

Lemma WriteResponse_registers_before_send_witness :
  let r := WriteResponse 0%nat Example.ok200 true Example.world_invited in
  r.1 = Ret None /\
  dialogs r.2 !! Example.dialog_id = Some 0%nat /\
  (ReadAck Example.ack 2%nat r.2).1 = Ret None.
Proof.
  cbn zeta.
  assert (Hs : exists s, sessions Example.world_invited !! 0%nat = Some s
                         /\ inviteTx s = 1%nat).
  { eexists. split; [vm_compute; reflexivity | reflexivity]. }
  destruct Hs as (s & Hs & Htx).
  destruct (WriteResponse_registers_before_send Example.world_invited 0%nat s
              Example.ok200 true Hs eq_refl
              [EvSetResponse 0%nat
                 (sip.res_AppendHeader Example.ok200
                    (sip.HdrContact Example.bob_contact));
               EvRaceCheck 1%nat; EvSetID 0%nat Example.dialog_id;
               EvStore Example.dialog_id 0%nat;
               EvSetState 0%nat sip.DialogStateEstablished]
              None [])
    as (id & Hid & _ & _ & Hr & _ & Hreg & Hack).
  { rewrite Htx. by vm_compute. }
  assert (id = Example.dialog_id) as ->.
  { vm_compute in Hid. by injection Hid as <-. }
  split; [exact Hr|]. split; [exact Hreg|].
  apply Hack. reflexivity.
Defined.

(** ** The log of [Bye] *)

Lemma ReadAck_log (req : sip.Request) (tx : txid) (w : World) :
  exists tr, log (ReadAck req tx w).2 = log w ++ tr /\ forallb quiet tr = true.
Proof.
  unfold ReadAck. destruct (sip.MakeDialogIDFromRequest req) as [id|e].
  - unfold_ops. exec. destruct (dialogs w !! id) as [p|]; exec.
    + destruct (sessions w !! p); exec.
      * eexists. rewrite <- app_assoc. split; [reflexivity | done].
      * eexists. split; [reflexivity | done].
    + eexists. split; [reflexivity | done].
  - exists []. by rewrite app_nil_r.
Qed.

Lemma route_acks_log (acks : list (sip.Request * txid)) (w : World) :
  exists tr, log (route_acks acks w).2 = log w ++ tr /\ forallb quiet tr = true.
Proof.
  revert w. induction acks as [|[req tx] acks IH]; intros w; cbn.
  - exists []. by rewrite app_nil_r.
  - unfold bind. destruct (ReadAck_log req tx w) as (tr1 & H1 & Q1).
    destruct (ReadAck req tx w) as [[a| |] w1]; cbn in *.
    + destruct (IH w1) as (tr2 & H2 & Q2). exists (tr1 ++ tr2).
      rewrite H2, H1, app_assoc, forallb_app, Q1, Q2. done.
    + eauto.
    + eauto.
Qed.


Lemma wait_confirmed_eq (p : ptr) (waits : list WaitOutcome) (w : World) :
  wait_confirmed p waits w =
  match sessions w !! p with
  | None => (Panic, w)
  | Some s =>
      let w1 := add_log (EvLoadState p (state s)) w in
      if state s <? sip.DialogStateConfirmed then
        match waits with
        | [] => (Blocked, w1)
        | WaitTxDone :: _ =>
            (Ret None,
             add_log (EvWaitInviteDone (inviteTx s))
               (set_txs (<[inviteTx s := with_done (get_tx w1 (inviteTx s))]> (txs w1))
                  w1))
        | WaitTimer acks :: rest =>
            match route_acks acks w1 with
            | (Ret _, w2) => wait_confirmed p rest (add_log EvWaitTimer w2)
            | (Panic, w2) => (Panic, w2)
            | (Blocked, w2) => (Blocked, w2)
            end
        | WaitCtxDone err :: _ => (Ret (Some err), add_log (EvWaitCtxDone err) w1)
        end
      else (Ret None, w1)
  end.
Proof.
  destruct waits as [|[|acks|err] rest]; cbn [wait_confirmed];
    unfold bind at 1; unfold sessionOf at 1;
    (destruct (sessions w !! p) as [s|]; [|reflexivity]);
    unfold bind at 1; unfold emit at 1; cbn [fst snd];
    (destruct (state s <? sip.DialogStateConfirmed); [|reflexivity]);
    reflexivity.
Qed.

Lemma quiet_no_request (tr : list Event) :
  forallb quiet tr = true -> forallb (fun e => negb (is_request e)) tr = true.
Proof.
  rewrite !forallb_forall. intros Q e He. specialize (Q e He).
  unfold quiet in Q. by apply andb_true_iff in Q as [? _].
Qed.

Lemma quiet_no_ctx_done (tr : list Event) (err : error) :
  forallb quiet tr = true -> ~ In (EvWaitCtxDone err) tr.
Proof.
  rewrite forallb_forall. intros Q He. by specialize (Q _ He).
Qed.

(** The log of the confirmation wait: it sends nothing; it ends with a
    [break] only after the setup transaction was seen done or a state at
    or above Confirmed was loaded; it records the cancellation of the
    context exactly when it returns the error of the context. *)
Lemma wait_confirmed_log (p : ptr) (waits : list WaitOutcome) (w : World) :
  exists tr,
    log (wait_confirmed p waits w).2 = log w ++ tr /\
    forallb (fun e => negb (is_request e)) tr = true /\
    match (wait_confirmed p waits w).1 with
    | Ret None =>
        forallb quiet tr = true /\
        ((exists t, In (EvWaitInviteDone t) tr) \/
         (exists st, In (EvLoadState p st) tr /\ sip.DialogStateConfirmed <= st))
    | Ret (Some err) =>
        forall err', In (EvWaitCtxDone err') tr -> err' = err
    | _ => forallb quiet tr = true
    end.
Proof.
  revert w. induction waits as [|o waits IH]; intros w;
    rewrite wait_confirmed_eq;
    (destruct (sessions w !! p) as [s|];
     [|exists []; cbn; by rewrite app_nil_r]);
    cbn zeta;
    (destruct (state s <? sip.DialogStateConfirmed) eqn:Hlt;
     [|cbn; eexists; split; [reflexivity|]; split; [done|]; split; [done|];
       right; exists (state s); split; [by left | lia]]).
  - cbn. eexists. split; [reflexivity|]. done.
  - destruct o as [|acks|err].
    + cbn. eexists. rewrite <- app_assoc. split; [reflexivity|]. split; [done|].
      split; [done|]. left. eexists. right. by left.
    + destruct (route_acks_log acks (add_log (EvLoadState p (state s)) w))
        as (tr1 & H1 & Q1).
      pose proof (quiet_no_request _ Q1) as Q1'.
      destruct (route_acks acks (add_log (EvLoadState p (state s)) w))
        as [[[]| |] w1]; cbn [fst snd] in *.
      * destruct (IH (add_log EvWaitTimer w1)) as (tr2 & H2 & R2 & P2).
        exists (EvLoadState p (state s) :: tr1 ++ EvWaitTimer :: tr2).
        split.
        { rewrite H2. cbn. rewrite H1. cbn. rewrite <- !app_assoc. done. }
        split.
        { cbn. rewrite forallb_app. cbn. by rewrite Q1', R2. }
        destruct (wait_confirmed p waits (add_log EvWaitTimer w1)).1 as [[e|]| |].
        -- intros err' [He|He]; [discriminate|].
           apply in_app_iff in He as [He|[He|He]]; [|discriminate|by apply P2].
           by apply quiet_no_ctx_done in He.
        -- destruct P2 as [P2 D2]. split.
           { cbn. rewrite forallb_app. cbn. by rewrite Q1, P2. }
           destruct D2 as [(t & Ht)|(st & Hst & Hle)].
           ++ left. exists t. right. apply in_app_iff. right. by right.
           ++ right. exists st. split; [|done]. right. apply in_app_iff.
              right. by right.
        -- cbn. rewrite forallb_app. cbn. by rewrite Q1, P2.
        -- cbn. rewrite forallb_app. cbn. by rewrite Q1, P2.
      * exists (EvLoadState p (state s) :: tr1). cbn in H1.
        split; [by rewrite H1, <- app_assoc|]. split; by cbn.
      * exists (EvLoadState p (state s) :: tr1). cbn in H1.
        split; [by rewrite H1, <- app_assoc|]. split; by cbn.
    + cbn. eexists. rewrite <- app_assoc. split; [reflexivity|]. split; [done|].
      intros err' [He|[He|[]]]; [discriminate|]. by injection He.
Qed.

Lemma Bye_cleanup_eq (p : ptr) (tx : txid) (w : World) :
  Bye_cleanup p tx w =
  match sessions w !! p with
  | Some s =>
      add_log (EvDelete (ID s))
        (set_dialogs (delete (ID s) (dialogs w)) (add_log (EvTerminate tx) w))
  | None => add_log (EvTerminate tx) w
  end.
Proof.
  unfold Bye_cleanup. unfold_ops. cbn. by destruct (sessions w !! p).
Qed.

Lemma Bye_cleanup_log (p : ptr) (tx : txid) (w : World) :
  exists tr, log (Bye_cleanup p tx w) = log w ++ tr /\ forallb quiet tr = true.
Proof.
  rewrite Bye_cleanup_eq. destruct (sessions w !! p); cbn.
  - eexists. rewrite <- app_assoc. split; [reflexivity | done].
  - eexists. split; [reflexivity | done].
Qed.

Lemma Bye_eq (p : ptr) (env : ByeEnv) (w : World) :
  Bye p env w =
  match sessions w !! p with
  | None => (Panic, w)
  | Some s =>
      let w1 := add_log (EvLoadState p (state s)) w in
      if state s =? sip.DialogStateEnded then (Ret None, w1)
      else
        match InviteResponse s with
        | None => (Panic, w1)
        | Some res =>
            if negb (sip.IsSuccess res) then
              (Ret (Some (ErrorString "can not send bye on NON success response")), w1)
            else
              match wait_confirmed p (bye_waits env) w1 with
              | (Blocked, w2) => (Blocked, w2)
              | (Panic, w2) => (Panic, Bye_cleanup p (inviteTx s) w2)
              | (Ret (Some err), w2) =>
                  (Ret (Some err), Bye_cleanup p (inviteTx s) w2)
              | (Ret None, w2) =>
                  match Bye_send p (InviteRequest s) res env w2 with
                  | (Blocked, w3) => (Blocked, w3)
                  | (r, w3) => (r, Bye_cleanup p (inviteTx s) w3)
                  end
              end
        end
  end.
Proof.
  unfold Bye. unfold bind at 1. unfold sessionOf at 1.
  destruct (sessions w !! p) as [s|]; [|reflexivity].
  unfold bind at 1. unfold emit at 1. cbn [fst snd].
  destruct (state s =? sip.DialogStateEnded); [reflexivity|].
  destruct (InviteResponse s) as [res|]; [|reflexivity].
  destruct (negb (sip.IsSuccess res)); [reflexivity|].
  unfold defer at 1 2. unfold bind at 1. cbn zeta.
  destruct (wait_confirmed p (bye_waits env) (add_log (EvLoadState p (state s)) w))
    as [[[err|]| |] w2]; try reflexivity.
  destruct (Bye_send p (InviteRequest s) res env w2) as [[r| |] w3]; reflexivity.
Qed.

(** What [Bye_send] does, by cases: it stops before the request (a nil
    dereference or the identity check), the request fails, or the
    request is sent and the last [select] decides. *)
Lemma Bye_send_cases (p : ptr) (req : sip.Request) (res : sip.Response)
    (env : ByeEnv) (w : World) :
  let r := Bye_send p req res env w in
  dialogs r.2 = dialogs w /\
  ((log r.2 = log w /\ sessions r.2 = sessions w /\
    (r.1 = Panic \/ exists a b, r.1 = Ret (Some (ErrNonMatchingID a b)))) \/
   (exists bye e,
      bye_request env = Some e /\
      log r.2 = log w ++ [EvRequest bye (Some e)] /\
      sessions r.2 = sessions w /\ r.1 = Ret (Some e)) \/
   (exists bye now,
      bye_request env = None /\ sessions w !! p = Some now /\
      match bye_final env with
      | ByeResponse a =>
          if bool_decide (sip.StatusCode a = 200) then
            r.1 = Ret None /\
            log r.2 = log w ++ [EvRequest bye None;
                                EvSetState p sip.DialogStateEnded;
                                EvClientTerminate] /\
            sessions r.2 = <[p := with_state sip.DialogStateEnded now]> (sessions w)
          else
            r.1 = Ret (Some (ErrDialogResponse a)) /\
            log r.2 = log w ++ [EvRequest bye None; EvClientTerminate] /\
            sessions r.2 = sessions w
      | ByeTxDone err =>
          r.1 = Ret err /\
          log r.2 = log w ++ [EvRequest bye None; EvClientTerminate] /\
          sessions r.2 = sessions w
      | ByeCtxDone err =>
          r.1 = Ret (Some err) /\
          log r.2 = log w ++ [EvRequest bye None; EvClientTerminate] /\
          sessions r.2 = sessions w
      end)).
Proof.
  cbn zeta. remember (Bye_send p req res env w) as r eqn:Hr.
  unfold Bye_send in Hr.
  destruct (newByeRequestUAS req res) as [bye|];
    [|subst r; cbn; split; [done|]; left; eauto].
  destruct (sip.req_CallID bye) as [callid|];
    [|subst r; cbn; split; [done|]; left; eauto].
  destruct (sip.req_From bye) as [newFrom|];
    [|subst r; cbn; split; [done|]; left; eauto].
  destruct (sip.req_To bye) as [newTo|];
    [|subst r; cbn; split; [done|]; left; eauto].
  unfold bind at 1 in Hr. unfold sessionOf at 1 in Hr.
  destruct (sessions w !! p) as [now|] eqn:Hnow;
    [|subst r; cbn; split; [done|]; left; eauto].
  destruct (negb (bool_decide (ID now = _)));
    [subst r; cbn; split; [done|]; left; split; [done|]; split; [done|];
     right; eauto|].
  unfold cli_TransactionRequest, Bye_await in Hr. unfold_ops.
  destruct (bye_request env) as [e|] eqn:Hreq.
  { subst r. cbn. split; [done|]. right; left. eauto 10. }
  destruct (bye_final env) as [a|err|err] eqn:Hfin.
  - destruct (bool_decide (sip.StatusCode a = 200)) eqn:Hcode;
      cbn in Hr; rewrite ?Hnow in Hr; cbn in Hr; subst r; cbn.
    + split; [done|]. right; right. eexists _, now.
      rewrite <- !app_assoc. done.
    + split; [done|]. right; right. eexists _, now.
      rewrite <- !app_assoc. done.
  - subst r; cbn. split; [done|]. right; right. eexists _, now.
    rewrite <- !app_assoc. done.
  - subst r; cbn. split; [done|]. right; right. eexists _, now.
    rewrite <- !app_assoc. done.
Qed.

Lemma prefix_before_request (a rest l1 l2 : list Event) (x : Event) :
  l1 ++ x :: l2 = a ++ rest ->
  is_request x = true ->
  forallb (fun e => negb (is_request e)) a = true ->
  exists c, l1 = a ++ c.
Proof.
  revert l1. induction a as [|h a IH]; intros l1 H Hx Ha; [by eexists|].
  cbn in Ha. apply andb_true_iff in Ha as [Hh Ha].
  destruct l1 as [|h' l1]; cbn in H; injection H as -> H.
  - by rewrite Hx in Hh.
  - destruct (IH l1 H Hx Ha) as [c ->]. by exists c.
Qed.

Lemma no_request_no_split (l tr1 tr2 : list Event) (x : Event) :
  l = tr1 ++ x :: tr2 ->
  is_request x = true ->
  forallb (fun e => negb (is_request e)) l = true ->
  False.
Proof.
  intros -> Hx H. rewrite forallb_app in H. cbn in H. rewrite Hx in H.
  cbn in H. by rewrite andb_false_r in H.
Qed.

Lemma no_request_existsb (l : list Event) :
  forallb (fun e => negb (is_request e)) l = true -> existsb is_request l = false.
Proof.
  induction l as [|h l IH]; cbn; [done|].
  intros H. apply andb_true_iff in H as [Hh Hl]. rewrite (IH Hl).
  by destruct (is_request h).
Qed.

(** The shape of the log of [Bye]: nothing notable at all; or the wait
    ended with the context of the caller and nothing was sent; or one
    BYE was sent, after the wait saw the setup transaction done or a
    state at or above Confirmed. *)
Lemma Bye_log (p : ptr) (env : ByeEnv) (w : World) :
  let r := Bye p env w in
  exists tr,
    log r.2 = log w ++ tr /\
    (forallb quiet tr = true \/
     (exists err,
        r.1 = Ret (Some err) /\
        forallb (fun e => negb (is_request e)) tr = true /\
        forall err', In (EvWaitCtxDone err') tr -> err' = err) \/
     (exists pre bye e post,
        tr = pre ++ EvRequest bye e :: post /\
        forallb quiet pre = true /\ forallb quiet post = true /\
        ((exists t, In (EvWaitInviteDone t) pre) \/
         (exists st, In (EvLoadState p st) pre /\ sip.DialogStateConfirmed <= st)))).
Proof.
  cbn zeta. rewrite Bye_eq.
  destruct (sessions w !! p) as [s|];
    [|exists []; cbn; rewrite app_nil_r; auto].
  cbn zeta.
  destruct (state s =? sip.DialogStateEnded);
    [eexists; split; [reflexivity|]; by left|].
  destruct (InviteResponse s) as [res|];
    [|eexists; split; [reflexivity|]; by left].
  destruct (negb (sip.IsSuccess res));
    [eexists; split; [reflexivity|]; by left|].
  destruct (wait_confirmed_log p (bye_waits env)
              (add_log (EvLoadState p (state s)) w)) as (trw & Hw & Rw & Pw).
  destruct (wait_confirmed p (bye_waits env) (add_log (EvLoadState p (state s)) w))
    as [[[err|]| |] w2]; cbn [fst snd] in *.
  - destruct (Bye_cleanup_log p (inviteTx s) w2) as (trc & Hc & Qc).
    exists (EvLoadState p (state s) :: trw ++ trc). split.
    { rewrite Hc, Hw. cbn. by rewrite <- ?app_assoc. }
    right; left. exists err. split; [done|]. split.
    { cbn. rewrite forallb_app, Rw. by rewrite (quiet_no_request _ Qc). }
    intros err' [He|He]; [discriminate|].
    apply in_app_iff in He as [He|He]; [by apply Pw|].
    by apply quiet_no_ctx_done in He.
  - destruct Pw as [Qw Dw].
    destruct (Bye_send_cases p (InviteRequest s) res env w2) as [_ Hcases].
    assert (Hnb : (Bye_send p (InviteRequest s) res env w2).1 <> Blocked).
    { destruct Hcases as [(_ & _ & [->|(a & b & ->)])|[(bye & e & _ & _ & _ & ->)|
        (bye & now & _ & _ & Hf)]]; try done.
      destruct (bye_final env) as [a| |];
        [destruct (bool_decide (sip.StatusCode a = 200))|..];
        destruct Hf as [-> _]; done. }
    destruct (Bye_send p (InviteRequest s) res env w2) as [o w3] eqn:Hsend.
    cbn [fst snd] in *.
    destruct (Bye_cleanup_log p (inviteTx s) w3) as (trc & Hc & Qc).
    assert (Hpre : forallb quiet (EvLoadState p (state s) :: trw) = true)
      by (cbn; by rewrite Qw).
    assert (Hd : (exists t, In (EvWaitInviteDone t) (EvLoadState p (state s) :: trw)) \/
                 (exists st, In (EvLoadState p st) (EvLoadState p (state s) :: trw) /\
                             sip.DialogStateConfirmed <= st)).
    { destruct Dw as [(t & Ht)|(st & Hst & Hle)].
      - left. exists t. by right.
      - right. exists st. split; [by right | done]. }
    assert (Hsent : forall bye e post,
              log w3 = log w2 ++ EvRequest bye e :: post ->
              forallb quiet post = true ->
              exists tr,
                log (Bye_cleanup p (inviteTx s) w3) = log w ++ tr /\
                exists pre bye' e' post',
                  tr = pre ++ EvRequest bye' e' :: post' /\
                  forallb quiet pre = true /\ forallb quiet post' = true /\
                  ((exists t, In (EvWaitInviteDone t) pre) \/
                   (exists st, In (EvLoadState p st) pre /\
                               sip.DialogStateConfirmed <= st))).
    { intros bye e post Hl Qp.
      exists ((EvLoadState p (state s) :: trw) ++ EvRequest bye e :: post ++ trc).
      split.
      { rewrite Hc, Hl, Hw. cbn. by rewrite <- ?app_assoc. }
      exists (EvLoadState p (state s) :: trw), bye, e, (post ++ trc).
      split; [done|]. split; [done|]. split; [|done].
      by rewrite forallb_app, Qp, Qc. }
    assert (Hres : exists tr,
              log (Bye_cleanup p (inviteTx s) w3) = log w ++ tr /\
              (forallb quiet tr = true \/
               (exists pre bye e post,
                  tr = pre ++ EvRequest bye e :: post /\
                  forallb quiet pre = true /\ forallb quiet post = true /\
                  ((exists t, In (EvWaitInviteDone t) pre) \/
                   (exists st, In (EvLoadState p st) pre /\
                               sip.DialogStateConfirmed <= st))))).
    { destruct Hcases as [(Hl & _)|[(bye & e & _ & Hl & _)|(bye & now & _ & _ & Hf)]].
      - exists (EvLoadState p (state s) :: trw ++ trc). split.
        { rewrite Hc, Hl, Hw. cbn. by rewrite <- ?app_assoc. }
        left. cbn. by rewrite forallb_app, Qw, Qc.
      - destruct (Hsent bye (Some e) [] Hl eq_refl) as (tr & Htr & H').
        exists tr. split; [done|]. by right.
      - destruct (bye_final env) as [a| |];
          [destruct (bool_decide (sip.StatusCode a = 200))|..];
          destruct Hf as (_ & Hl & _);
          destruct (Hsent bye None _ Hl eq_refl) as (tr & Htr & H');
          exists tr; (split; [done|]); by right. }
    destruct Hres as (tr & Htr & Hshape).
    destruct o as [a| |]; [| |done]; exists tr; (split; [exact Htr|]);
      (destruct Hshape as [?|?]; [by left | by right; right]).
  - destruct (Bye_cleanup_log p (inviteTx s) w2) as (trc & Hc & Qc).
    exists (EvLoadState p (state s) :: trw ++ trc). split.
    { rewrite Hc, Hw. cbn. by rewrite <- ?app_assoc. }
    left. cbn. by rewrite forallb_app, Pw, Qc.
  - exists (EvLoadState p (state s) :: trw). split.
    { rewrite Hw. cbn. by rewrite <- ?app_assoc. }
    left. cbn. by rewrite Pw.
Qed.

(** ** The deadline of the confirmation wait *)

Lemma live_next (w w' : World) :
  live w ->
  (forall k q, dialogs w' !! k = Some q ->
     dialogs w !! k = Some q \/ is_Some (sessions w' !! q)) ->
  (forall q, is_Some (sessions w !! q) -> is_Some (sessions w' !! q)) ->
  live w'.
Proof.
  intros Hl Hd Hs k q Hk. destruct (Hd k q Hk) as [Hold|?]; [|done].
  apply Hs. by eapply Hl.
Qed.

Lemma insert_keeps (ss : gmap ptr DialogServerSession) (p : ptr)
    (s : DialogServerSession) (q : ptr) :
  is_Some (ss !! q) -> is_Some (<[p := s]> ss !! q).
Proof.
  intros H. destruct (decide (q = p)) as [->|Hne].
  - rewrite lookup_insert_eq. eauto.
  - by rewrite lookup_insert_ne.
Qed.

(** [live] can be computed on a given world. *)
Lemma live_check (w : World) :
  forallb (fun kp => bool_decide (is_Some (sessions w !! kp.2)))
          (map_to_list (dialogs w)) = true ->
  live w.
Proof.
  intros H k p Hk. apply elem_of_map_to_list in Hk.
  rewrite forallb_forall in H. apply list_elem_of_In in Hk.
  specialize (H _ Hk). by apply bool_decide_eq_true in H.
Qed.

(** An ACK that is not for the session at [p] returns and leaves that
    session as it was. *)
Lemma ReadAck_other (req : sip.Request) (tx : txid) (w : World) (p : ptr) :
  live w ->
  (forall id, sip.MakeDialogIDFromRequest req = inl id -> dialogs w !! id <> Some p) ->
  exists o w',
    ReadAck req tx w = (Ret o, w') /\ live w' /\
    dialogs w' = dialogs w /\ sessions w' !! p = sessions w !! p.
Proof.
  intros Hl Hno.
  destruct (sip.MakeDialogIDFromRequest req) as [id|e] eqn:Hid.
  2:{ destruct (ReadAck_outside_dialog req tx w e Hid) as [-> _]. eauto 10. }
  destruct (dialogs w !! id) as [q|] eqn:Hd.
  2:{ rewrite (ReadAck_not_found req tx w id Hid Hd). eauto 10. }
  destruct (Hl id q Hd) as [sq Hq].
  rewrite (ReadAck_found req tx w id q sq Hid Hd Hq).
  eexists _, _. split; [reflexivity|]. cbn.
  split; [|split; [done|]].
  - eapply live_next; [exact Hl | intros k r Hk; by left|].
    intros r. apply insert_keeps.
  - apply lookup_insert_ne. intros ->. by apply (Hno id).
Qed.

Lemma route_acks_other (acks : list (sip.Request * txid)) (w : World) (p : ptr) :
  live w ->
  (forall req tx id, In (req, tx) acks ->
     sip.MakeDialogIDFromRequest req = inl id -> dialogs w !! id <> Some p) ->
  exists w',
    route_acks acks w = (Ret tt, w') /\ live w' /\
    dialogs w' = dialogs w /\ sessions w' !! p = sessions w !! p.
Proof.
  revert w. induction acks as [|[req tx] acks IH]; intros w Hl Hno.
  { exists w. done. }
  destruct (ReadAck_other req tx w p Hl) as (o & w1 & Hr & Hl1 & Hd1 & Hs1).
  { intros id. apply (Hno req tx id). by left. }
  destruct (IH w1 Hl1) as (w2 & Hr2 & Hl2 & Hd2 & Hs2).
  { intros req' tx' id Hin. rewrite Hd1. apply (Hno req' tx' id). by right. }
  exists w2. cbn [route_acks]. unfold bind. rewrite Hr. cbn.
  split; [exact Hr2|]. split; [exact Hl2|]. split; congruence.
Qed.

(** The wait of a session that is not Confirmed, while the timer fires
    and no ACK for this session comes, until the context is done. *)
Lemma wait_confirmed_deadline (p : ptr) (s : DialogServerSession)
    (timers : list (list (sip.Request * txid))) (err : error)
    (rest : list WaitOutcome) (w : World) :
  sessions w !! p = Some s ->
  state s < sip.DialogStateConfirmed ->
  live w ->
  (forall req tx id, In (req, tx) (concat timers) ->
     sip.MakeDialogIDFromRequest req = inl id -> dialogs w !! id <> Some p) ->
  exists w',
    wait_confirmed p (map WaitTimer timers ++ WaitCtxDone err :: rest) w
      = (Ret (Some err), w') /\
    sessions w' !! p = Some s.
Proof.
  intros Hs Hlt. revert w Hs.
  induction timers as [|acks timers IH]; intros w Hs Hl Hno;
    rewrite wait_confirmed_eq, Hs; cbn zeta;
    apply Z.ltb_lt in Hlt as Hlt'; rewrite Hlt'; cbn [map app].
  { eexists. split; [reflexivity|]. exact Hs. }
  set (w1 := add_log (EvLoadState p (state s)) w).
  destruct (route_acks_other acks w1 p Hl) as (w2 & Hr & Hl2 & Hd2 & Hs2).
  { intros req tx id Hin. apply (Hno req tx id). cbn. apply in_app_iff. by left. }
  rewrite Hr.
  apply (IH (add_log EvWaitTimer w2)).
  - cbn. rewrite Hs2. exact Hs.
  - exact Hl2.
  - intros req tx id Hin. cbn. rewrite Hd2. apply (Hno req tx id).
    cbn. apply in_app_iff. by right.
Qed.

(** C3: in every call of [Bye], a BYE is handed to the client only after
    the confirmation wait saw the setup transaction done or loaded a
    state at or above Confirmed.  And on a session that holds a success
    response and is below Confirmed: when, in the surroundings of the
    call, the timer fires any number of times while no ACK for this
    session is routed and then the context of the caller is done, [Bye]
    returns the error of the context and hands no BYE to the client. *)
Theorem Bye_waits_for_confirmation (w : World) (p : ptr) (env : ByeEnv) :
  let r := Bye p env w in
  let tr := since w r.2 in
  (forall tr1 bye e tr2,
     tr = tr1 ++ EvRequest bye e :: tr2 ->
     (exists t, In (EvWaitInviteDone t) tr1) \/
     (exists st, In (EvLoadState p st) tr1 /\ sip.DialogStateConfirmed <= st)) /\
  (forall s res timers err rest,
     sessions w !! p = Some s ->
     InviteResponse s = Some res ->
     sip.IsSuccess res = true ->
     state s < sip.DialogStateConfirmed ->
     live w ->
     bye_waits env = map WaitTimer timers ++ WaitCtxDone err :: rest ->
     (forall req tx id, In (req, tx) (concat timers) ->
        sip.MakeDialogIDFromRequest req = inl id -> dialogs w !! id <> Some p) ->
     r.1 = Ret (Some err) /\ existsb is_request tr = false).
Proof.
  cbn zeta. split.
  - destruct (Bye_log p env w) as (tr & Hl & Hshape).
    rewrite (since_app _ _ _ Hl).
    destruct Hshape as [Q|[(err & Hr & R & Hctx)|
      (pre & bye & e & post & -> & Qpre & Qpost & D)]].
    + intros tr1 bye e tr2 Hs. exfalso.
      eapply no_request_no_split; [exact Hs | done | by apply quiet_no_request].
    + intros tr1 bye e tr2 Hs. exfalso.
      eapply no_request_no_split; [exact Hs | done | exact R].
    + intros tr1 bye' e' tr2 Hs. symmetry in Hs.
      destruct (prefix_before_request pre (EvRequest bye e :: post) tr1 tr2
                  (EvRequest bye' e') Hs eq_refl (quiet_no_request _ Qpre))
        as [c ->].
      destruct D as [(t & Ht)|(st & Hst & Hle)].
      * left. exists t. apply in_app_iff. by left.
      * right. exists st. split; [|done]. apply in_app_iff. by left.
  - intros s res timers err rest Hs Hres Hsucc Hlt Hl Hw Hno.
    set (w1 := add_log (EvLoadState p (state s)) w).
    destruct (wait_confirmed_deadline p s timers err rest w1 Hs Hlt Hl Hno)
      as (w2 & Hwait & Hs2).
    pose proof (wait_confirmed_log p (bye_waits env) w1) as (trw & Hlw & Rw & _).
    rewrite Hw, Hwait in Hlw. cbn [snd] in Hlw.
    destruct (Bye_cleanup_log p (inviteTx s) w2) as (trc & Hlc & Qc).
    assert (Hne : (state s =? sip.DialogStateEnded) = false).
    { apply Z.eqb_neq. unfold sip.DialogStateEnded, sip.DialogStateConfirmed in *.
      lia. }
    rewrite Bye_eq, Hs. cbn zeta. rewrite Hne, Hres, Hsucc. cbn [negb].
    fold w1. rewrite Hw, Hwait. cbn [fst snd].
    split; [done|].
    rewrite (since_app w _ (EvLoadState p (state s) :: trw ++ trc)).
    + apply no_request_existsb. cbn. rewrite forallb_app, Rw.
      by rewrite (quiet_no_request _ Qc).
    + rewrite Hlc, Hlw. subst w1. cbn. by rewrite <- !app_assoc.
Qed.

Lemma Bye_waits_for_confirmation_witness :
  let env := Example.bye_after_timer (WaitCtxDone (ErrContext true)) in
  let r := Bye 0%nat env Example.world_established in
  r.1 = Ret (Some (ErrContext true)) /\
  existsb is_request (since Example.world_established r.2) = false.
Proof.
  cbn zeta.
  assert (Hs : exists s, sessions Example.world_established !! 0%nat = Some s /\
                         InviteResponse s =
                           Some (sip.res_AppendHeader Example.ok200
                                   (sip.HdrContact Example.bob_contact)) /\
                         state s = sip.DialogStateEstablished).
  { eexists. split; [vm_compute; reflexivity | by split]. }
  destruct Hs as (s & Hs & Hres & Hst).
  apply (proj2 (Bye_waits_for_confirmation Example.world_established 0%nat
                  (Example.bye_after_timer (WaitCtxDone (ErrContext true))))
           s _ [[]] (ErrContext true) [] Hs Hres eq_refl).
  - rewrite Hst. reflexivity.
  - apply live_check. by vm_compute.
  - reflexivity.
  - intros req tx id [].
Defined.

(** ** The invariant of the registry *)

Lemma same_dialog_refl (s : DialogServerSession) : same_dialog s s.
Proof. by repeat split. Qed.

Lemma same_dialog_trans (s1 s2 s3 : DialogServerSession) :
  same_dialog s1 s2 -> same_dialog s2 s3 -> same_dialog s1 s3.
Proof. unfold same_dialog. intuition congruence. Qed.

Lemma same_dialog_with_state (st : Z) (s : DialogServerSession) :
  same_dialog s (with_state st s).
Proof. by repeat split. Qed.

Lemma acked_refl (d : gmap string ptr) (ss : gmap ptr DialogServerSession) :
  acked d d ss ss.
Proof.
  split; [done|]. intros q. destruct (ss !! q) as [s|] eqn:Hq; [|done].
  exists s. split; [done|]. split; [apply same_dialog_refl | by left].
Qed.

Lemma acked_trans (d1 d2 d3 : gmap string ptr)
    (ss1 ss2 ss3 : gmap ptr DialogServerSession) :
  acked d1 d2 ss1 ss2 -> acked d2 d3 ss2 ss3 -> acked d1 d3 ss1 ss3.
Proof.
  intros [-> H1] [-> H2]. split; [done|]. intros q.
  specialize (H1 q). specialize (H2 q).
  destruct (ss1 !! q) as [s1|].
  - destruct H1 as (s2 & Hs2 & Hsame1 & Hst1). rewrite Hs2 in H2.
    destruct H2 as (s3 & Hs3 & Hsame2 & Hst2).
    exists s3. split; [done|]. split; [by eapply same_dialog_trans|].
    destruct Hst2 as [Hst2|Hst2]; [|by right].
    rewrite Hst2. exact Hst1.
  - by rewrite H1 in H2.
Qed.

Lemma acked_confirm (d : gmap string ptr) (ss : gmap ptr DialogServerSession)
    (k : string) (p : ptr) (s : DialogServerSession) :
  d !! k = Some p -> ss !! p = Some s ->
  acked d d ss (<[p := with_state sip.DialogStateConfirmed s]> ss).
Proof.
  intros Hk Hp. split; [done|]. intros q.
  destruct (decide (q = p)) as [->|Hne].
  - rewrite Hp, lookup_insert_eq. eexists. split; [done|].
    split; [apply same_dialog_with_state|]. right. split; [done|]. eauto.
  - rewrite lookup_insert_ne by done. destruct (ss !! q) as [s'|]; [|done].
    exists s'. split; [done|]. split; [apply same_dialog_refl | by left].
Qed.

Lemma ReadAck_acked (req : sip.Request) (tx : txid) (w : World) :
  acked (dialogs w) (dialogs (ReadAck req tx w).2)
        (sessions w) (sessions (ReadAck req tx w).2).
Proof.
  unfold ReadAck. destruct (sip.MakeDialogIDFromRequest req) as [id|e];
    [|apply acked_refl].
  unfold_ops. cbn. destruct (dialogs w !! id) as [p|] eqn:Hd; cbn;
    [|apply acked_refl].
  destruct (sessions w !! p) as [s|] eqn:Hs; cbn; [|apply acked_refl].
  by eapply acked_confirm.
Qed.

Lemma route_acks_acked (acks : list (sip.Request * txid)) (w : World) :
  acked (dialogs w) (dialogs (route_acks acks w).2)
        (sessions w) (sessions (route_acks acks w).2).
Proof.
  revert w. induction acks as [|[req tx] acks IH]; intros w; cbn;
    [apply acked_refl|].
  unfold bind. pose proof (ReadAck_acked req tx w) as H.
  destruct (ReadAck req tx w) as [[a| |] w1]; cbn in *; [|done..].
  eapply acked_trans; [exact H | apply IH].
Qed.

Lemma wait_confirmed_acked (p : ptr) (waits : list WaitOutcome) (w : World) :
  acked (dialogs w) (dialogs (wait_confirmed p waits w).2)
        (sessions w) (sessions (wait_confirmed p waits w).2).
Proof.
  revert w. induction waits as [|o waits IH]; intros w;
    rewrite wait_confirmed_eq;
    (destruct (sessions w !! p) as [s|]; [|apply acked_refl]); cbn zeta;
    (destruct (state s <? sip.DialogStateConfirmed); [|apply acked_refl]).
  - apply acked_refl.
  - destruct o as [|acks|err]; [apply acked_refl| |apply acked_refl].
    pose proof (route_acks_acked acks (add_log (EvLoadState p (state s)) w)) as H.
    destruct (route_acks acks (add_log (EvLoadState p (state s)) w))
      as [[[]| |] w1]; cbn in *; [|done..].
    eapply acked_trans; [exact H|]. apply (IH (add_log EvWaitTimer w1)).
Qed.

Lemma registry_ok_acked (F : gset ptr) (d d' : gmap string ptr)
    (ss ss' : gmap ptr DialogServerSession) :
  registry_ok F d ss -> acked d d' ss ss' ->
  registry_ok F d' ss' /\ ended_stay ss ss'.
Proof.
  intros (I1 & I2 & I3) [-> Ha]. split; [split; [|split]|].
  - intros k p Hk. destruct (I1 k p Hk) as (s & Hs & Hid & Hst & HF).
    specialize (Ha p). rewrite Hs in Ha.
    destruct Ha as (s' & Hs' & (Hid' & _) & Hst').
    exists s'. split; [done|]. split; [congruence|]. split; [|done].
    destruct Hst' as [->|[-> _]]; [done | by right].
  - intros p s' Hs' Hne. specialize (Ha p).
    destruct (ss !! p) as [s|] eqn:Hs; [|congruence].
    destruct Ha as (s'' & Hs'' & _ & Hst'). simplify_eq.
    destruct Hst' as [Heq|[_ (k & Hk)]].
    + apply (I2 p s Hs). congruence.
    + by destruct (I1 k p Hk) as (_ & _ & _ & _ & HF).
  - intros p s' res Hs' Hres Hprov. specialize (Ha p).
    destruct (ss !! p) as [s|] eqn:Hs; [|congruence].
    destruct Ha as (s'' & Hs'' & (_ & _ & Hr & _) & _). simplify_eq.
    apply (I3 p s res Hs); congruence.
  - intros p s Hs Hend. specialize (Ha p). rewrite Hs in Ha.
    destruct Ha as (s' & Hs' & _ & Hst'). exists s'. split; [done|].
    destruct Hst' as [->|[_ (k & Hk)]]; [done|].
    destruct (I1 k p Hk) as (s0 & Hs0 & _ & Hst0 & _). simplify_eq.
    rewrite Hend in Hst0. by destruct Hst0.
Qed.

Lemma ended_stay_refl (ss : gmap ptr DialogServerSession) : ended_stay ss ss.
Proof. intros p s Hs He. eauto. Qed.

Lemma ended_stay_trans (ss1 ss2 ss3 : gmap ptr DialogServerSession) :
  ended_stay ss1 ss2 -> ended_stay ss2 ss3 -> ended_stay ss1 ss3.
Proof.
  intros H1 H2 p s Hs He. destruct (H1 p s Hs He) as (s' & Hs' & He').
  by apply (H2 p s').
Qed.

Lemma ended_stay_insert (ss : gmap ptr DialogServerSession) (p : ptr)
    (s s' : DialogServerSession) :
  ss !! p = Some s ->
  (state s = sip.DialogStateEnded -> state s' = sip.DialogStateEnded) ->
  ended_stay ss (<[p := s']> ss).
Proof.
  intros Hp Hst q sq Hq He. destruct (decide (q = p)) as [->|Hne].
  - rewrite lookup_insert_eq. simplify_eq. eauto.
  - rewrite lookup_insert_ne by done. eauto.
Qed.

Lemma registry_ok_mono (F F' : gset ptr) (d : gmap string ptr)
    (ss : gmap ptr DialogServerSession) :
  F ⊆ F' -> registry_ok F d ss -> registry_ok F' d ss.
Proof.
  intros Hsub (I1 & I2 & I3). split; [|split].
  - intros k p Hk. destruct (I1 k p Hk) as (s & ? & ? & ? & ?).
    exists s. repeat split; try done. set_solver.
  - intros p s Hs Hne. specialize (I2 p s Hs Hne). set_solver.
  - intros p s res Hs Hr Hp. specialize (I3 p s res Hs Hr Hp). set_solver.
Qed.

Lemma registry_ok_delete (F : gset ptr) (d : gmap string ptr)
    (ss : gmap ptr DialogServerSession) (k : string) :
  registry_ok F d ss -> registry_ok F (delete k d) ss.
Proof.
  intros (I1 & I2 & I3). split; [|split]; [|done..].
  intros k' p Hk. apply lookup_delete_Some in Hk as [_ Hk]. by apply I1.
Qed.

(** The session is set to Ended and its registry entry is deleted. *)
Lemma registry_ok_end (F : gset ptr) (d : gmap string ptr)
    (ss : gmap ptr DialogServerSession) (p : ptr) (s s' : DialogServerSession) :
  registry_ok F d ss -> ss !! p = Some s -> p ∈ F ->
  same_dialog s s' -> state s' = sip.DialogStateEnded ->
  registry_ok F (delete (ID s) d) (<[p := s']> ss).
Proof.
  intros (I1 & I2 & I3) Hp HF (Hid & _ & Hres & _) Hst. split; [|split].
  - intros k q Hk. apply lookup_delete_Some in Hk as [Hne Hk].
    destruct (I1 k q Hk) as (sq & Hq & Hidq & Hstq & HFq).
    destruct (decide (q = p)) as [->|Hqp]; [simplify_eq|].
    exists sq. by rewrite lookup_insert_ne.
  - intros q sq Hq Hne. destruct (decide (q = p)) as [->|Hqp]; [done|].
    rewrite lookup_insert_ne in Hq by done. by eapply I2.
  - intros q sq res Hq Hr Hprov. destruct (decide (q = p)) as [->|Hqp]; [done|].
    rewrite lookup_insert_ne in Hq by done. by eapply I3.
Qed.

(** The response of a session is replaced. *)
Lemma registry_ok_response (F F' : gset ptr) (d : gmap string ptr)
    (ss : gmap ptr DialogServerSession) (p : ptr) (s : DialogServerSession)
    (res : sip.Response) :
  registry_ok F d ss -> ss !! p = Some s -> F ⊆ F' ->
  (sip.IsProvisional res = false -> p ∈ F') ->
  registry_ok F' d (<[p := with_InviteResponse res s]> ss).
Proof.
  intros (I1 & I2 & I3) Hp Hsub Hfin. split; [|split].
  - intros k q Hk. destruct (I1 k q Hk) as (sq & Hq & Hidq & Hstq & HFq).
    destruct (decide (q = p)) as [->|Hqp].
    + simplify_eq. rewrite lookup_insert_eq. eexists. split; [done|].
      cbn. repeat split; try done. set_solver.
    + exists sq. rewrite lookup_insert_ne by done. repeat split; try done.
      set_solver.
  - intros q sq Hq Hne. destruct (decide (q = p)) as [->|Hqp].
    + rewrite lookup_insert_eq in Hq. simplify_eq. cbn in Hne.
      specialize (I2 p s Hp Hne). set_solver.
    + rewrite lookup_insert_ne in Hq by done. specialize (I2 q sq Hq Hne).
      set_solver.
  - intros q sq r Hq Hr Hprov. destruct (decide (q = p)) as [->|Hqp].
    + rewrite lookup_insert_eq in Hq. simplify_eq. cbn in Hr. simplify_eq.
      by apply Hfin.
    + rewrite lookup_insert_ne in Hq by done.
      specialize (I3 q sq r Hq Hr Hprov). set_solver.
Qed.

(** A session that was never answered gets its final response and a new
    state; the registry gains at most the entry of that session. *)
Lemma registry_ok_answer (F : gset ptr) (d d' : gmap string ptr)
    (ss : gmap ptr DialogServerSession) (p : ptr) (s' : DialogServerSession) :
  registry_ok F d ss -> p ∉ F ->
  (d' = d \/
   (d' = <[ID s' := p]> d /\ state s' = sip.DialogStateEstablished) \/
   d' = delete (ID s') d) ->
  registry_ok ({[p]} ∪ F) d' (<[p := s']> ss).
Proof.
  intros (I1 & I2 & I3) HF Hd. split; [|split].
  - intros k q Hk.
    assert (Hold : d !! k = Some q -> q <> p).
    { intros Hk' ->. destruct (I1 k p Hk') as (_ & _ & _ & _ & ?). done. }
    assert (Hkeep : d !! k = Some q ->
              exists s, <[p := s']> ss !! q = Some s /\ ID s = k /\
                (state s = sip.DialogStateEstablished \/
                 state s = sip.DialogStateConfirmed) /\ q ∈ {[p]} ∪ F).
    { intros Hk'. destruct (I1 k q Hk') as (sq & Hq & Hidq & Hstq & HFq).
      exists sq. rewrite lookup_insert_ne by (by specialize (Hold Hk')).
      repeat split; try done. set_solver. }
    destruct Hd as [->|[[-> Hst]| ->]].
    + by apply Hkeep.
    + destruct (decide (k = ID s')) as [->|Hne].
      * rewrite lookup_insert_eq in Hk. simplify_eq. exists s'.
        rewrite lookup_insert_eq. repeat split; try done; [by left | set_solver].
      * rewrite lookup_insert_ne in Hk by done. by apply Hkeep.
    + apply lookup_delete_Some in Hk as [_ Hk]. by apply Hkeep.
  - intros q sq Hq Hne. destruct (decide (q = p)) as [->|Hqp]; [set_solver|].
    rewrite lookup_insert_ne in Hq by done. specialize (I2 q sq Hq Hne).
    set_solver.
  - intros q sq r Hq Hr Hprov. destruct (decide (q = p)) as [->|Hqp]; [set_solver|].
    rewrite lookup_insert_ne in Hq by done. specialize (I3 q sq r Hq Hr Hprov).
    set_solver.
Qed.

(** ** One operation keeps the invariant *)

Lemma WriteResponse_effect (w : World) (p : ptr) (s : DialogServerSession)
    (res : sip.Response) (pick : bool) :
  sessions w !! p = Some s ->
  let res' := sip.res_AppendHeader res (sip.HdrContact (contactHDR w)) in
  let w' := (WriteResponse p res pick w).2 in
  (dialogs w' = dialogs w /\
   sessions w' = <[p := with_InviteResponse res' s]> (sessions w)) \/
  (sip.IsProvisional res = false /\ dialogs w' = dialogs w /\
   sessions w' =
     <[p := with_state sip.DialogStateEnded (with_InviteResponse res' s)]>
       (sessions w)) \/
  (sip.IsProvisional res = false /\
   exists id,
     sessions w' =
       <[p := with_state sip.DialogStateEstablished
                (with_ID id (with_InviteResponse res' s))]> (sessions w) /\
     (dialogs w' = <[id := p]> (dialogs w) \/ dialogs w' = delete id (dialogs w))).
Proof.
  intros Hs. cbn zeta.
  destruct (tx_cancels (get_tx w (inviteTx s))) as [|c cs] eqn:Hc;
    destruct (tx_done (get_tx w (inviteTx s))) eqn:Hd.
  - destruct (WriteResponse_done w p s res pick Hs Hd (or_introl Hc))
      as (_ & Hdg & Hss & _). by left.
  - assert (Hi : idle w (inviteTx s)) by done.
    destruct (sip.IsProvisional res) eqn:Hp; [|destruct (sip.IsSuccess res) eqn:Hn].
    + destruct (WriteResponse_provisional w p s res pick Hs Hi Hp)
        as (_ & Hdg & Hss & _). by left.
    + destruct (sip.MakeDialogIDFromResponse
                  (sip.res_AppendHeader res (sip.HdrContact (contactHDR w))))
        as [id|e] eqn:Hid.
      * destruct (WriteResponse_success w p s res pick id Hs Hi Hn Hid)
          as (_ & Hdg & Hss & _).
        right; right. split; [done|]. exists id. split; [done|].
        destruct (next_respond (get_tx w (inviteTx s))); auto.
      * destruct (WriteResponse_no_identity w p s res pick e Hs Hi Hn Hid)
          as (_ & Hdg & Hss & _). by left.
    + destruct (WriteResponse_failure w p s res pick Hs Hi Hp Hn)
        as (_ & Hdg & Hss & _).
      destruct (next_respond (get_tx w (inviteTx s))); [by left|].
      right; left. done.
  - destruct pick.
    + destruct (WriteResponse_cancel w p s res true c cs Hs Hc (or_intror eq_refl))
        as (_ & Hdg & Hss & _). by left.
    + destruct (WriteResponse_done w p s res false Hs Hd (or_intror eq_refl))
        as (_ & Hdg & Hss & _). by left.
  - destruct (WriteResponse_cancel w p s res pick c cs Hs Hc (or_introl Hd))
      as (_ & Hdg & Hss & _). by left.
Qed.

Lemma WriteResponse_no_session (w : World) (p : ptr) (res : sip.Response)
    (pick : bool) :
  sessions w !! p = None -> WriteResponse p res pick w = (Panic, w).
Proof. intros H. unfold WriteResponse, bind, sessionOf. by rewrite H. Qed.

Lemma WriteResponse_step (F : gset ptr) (w : World) (p : ptr) (res : sip.Response)
    (pick : bool) :
  registry_ok F (dialogs w) (sessions w) ->
  (sip.IsProvisional res = false -> p ∉ F) ->
  let w' := (WriteResponse p res pick w).2 in
  registry_ok (if sip.IsProvisional res then F else {[p]} ∪ F)
    (dialogs w') (sessions w') /\
  ended_stay (sessions w) (sessions w').
Proof.
  intros Hok Hfresh. cbn zeta.
  destruct (sessions w !! p) as [s|] eqn:Hs.
  2:{ rewrite (WriteResponse_no_session w p res pick Hs). cbn.
      split; [|apply ended_stay_refl].
      eapply registry_ok_mono; [|exact Hok].
      destruct (sip.IsProvisional res); set_solver. }
  destruct (WriteResponse_effect w p s res pick Hs)
    as [[Hd Hss]|[(Hfin & Hd & Hss)|(Hfin & id & Hss & Hd)]].
  - rewrite Hd, Hss. split.
    + eapply registry_ok_response; [exact Hok | exact Hs | |].
      * destruct (sip.IsProvisional res); set_solver.
      * intros Hp. change (sip.IsProvisional res = false) in Hp.
        rewrite Hp. set_solver.
    + by eapply ended_stay_insert.
  - rewrite Hd, Hss, Hfin. specialize (Hfresh Hfin). split.
    + apply (registry_ok_answer F (dialogs w)); [exact Hok | exact Hfresh | by left].
    + by eapply ended_stay_insert.
  - rewrite Hss, Hfin. specialize (Hfresh Hfin). split.
    + apply (registry_ok_answer F (dialogs w)); [exact Hok | exact Hfresh |].
      destruct Hd as [-> | ->]; [right; left | right; right]; done.
    + eapply ended_stay_insert; [exact Hs|].
      intros Hend. destruct Hok as (_ & I2 & _).
      exfalso. apply Hfresh. apply (I2 p s Hs). rewrite Hend. done.
Qed.

Lemma ReadAck_step (F : gset ptr) (req : sip.Request) (tx : txid) (w : World) :
  registry_ok F (dialogs w) (sessions w) ->
  let w' := (ReadAck req tx w).2 in
  registry_ok F (dialogs w') (sessions w') /\
  ended_stay (sessions w) (sessions w').
Proof.
  intros Hok. cbn zeta. eapply registry_ok_acked; [exact Hok|].
  apply ReadAck_acked.
Qed.

Lemma Close_step (F : gset ptr) (p : ptr) (w : World) :
  registry_ok F (dialogs w) (sessions w) ->
  let w' := (Close p w).2 in
  registry_ok F (dialogs w') (sessions w') /\
  ended_stay (sessions w) (sessions w').
Proof.
  intros Hok. cbn zeta. destruct (sessions w !! p) as [s|] eqn:Hs.
  - rewrite (Close_eq w p s Hs). cbn.
    split; [by apply registry_ok_delete | apply ended_stay_refl].
  - unfold Close, bind, sessionOf. rewrite Hs. cbn.
    split; [done | apply ended_stay_refl].
Qed.

Lemma ReadInvite_step (F : gset ptr) (req : sip.Request) (tx : txid) (w : World) :
  registry_ok F (dialogs w) (sessions w) ->
  let w' := (ReadInvite req tx w).2 in
  registry_ok F (dialogs w') (sessions w') /\
  ended_stay (sessions w) (sessions w').
Proof.
  intros Hok. cbn zeta. unfold ReadInvite.
  destruct (sip.req_Contact req); [|split; [done | apply ended_stay_refl]].
  cbn. set (p := fresh (dom (sessions w))).
  assert (Hfresh : sessions w !! p = None).
  { apply not_elem_of_dom. apply is_fresh. }
  destruct Hok as (I1 & I2 & I3). split; [split; [|split]|].
  - intros k q Hk. destruct (I1 k q Hk) as (sq & Hq & ?).
    exists sq. rewrite lookup_insert_ne by congruence. done.
  - intros q sq Hq Hne. destruct (decide (q = p)) as [->|Hqp].
    + rewrite lookup_insert_eq in Hq. by simplify_eq.
    + rewrite lookup_insert_ne in Hq by done. by eapply I2.
  - intros q sq r Hq Hr Hp. destruct (decide (q = p)) as [->|Hqp].
    + rewrite lookup_insert_eq in Hq. by simplify_eq.
    + rewrite lookup_insert_ne in Hq by done. by eapply I3.
  - intros q sq Hq Hend. exists sq. rewrite lookup_insert_ne by congruence. done.
Qed.

Lemma ReadBye_effect (req : sip.Request) (tx : txid) (w : World) :
  let w' := (ReadBye req tx w).2 in
  (dialogs w' = dialogs w /\ sessions w' = sessions w) \/
  (exists id p s,
     dialogs w !! id = Some p /\ sessions w !! p = Some s /\
     dialogs w' = delete (ID s) (dialogs w) /\
     (sessions w' = sessions w \/
      sessions w' = <[p := with_state sip.DialogStateEnded s]> (sessions w))).
Proof.
  cbn zeta. remember (ReadBye req tx w) as r eqn:Hr. unfold ReadBye in Hr.
  destruct (sip.MakeDialogIDFromRequest req) as [id|e]; [|subst r; by left].
  unfold_ops. cbn in Hr.
  destruct (dialogs w !! id) as [p|] eqn:Hd; [|subst r; by left].
  cbn in Hr. destruct (sessions w !! p) as [s|] eqn:Hs; [|subst r; by left].
  cbn in Hr.
  destruct (tx_respond (default idle_tx (txs w !! tx))) as [|[e|] rs];
    cbn in Hr; rewrite ?Hs in Hr; cbn in Hr; rewrite ?lookup_insert_eq in Hr;
    cbn in Hr; subst r; cbn; right; exists id, p, s; auto.
Qed.

Lemma ReadBye_step (F : gset ptr) (req : sip.Request) (tx : txid) (w : World) :
  registry_ok F (dialogs w) (sessions w) ->
  let w' := (ReadBye req tx w).2 in
  registry_ok F (dialogs w') (sessions w') /\
  ended_stay (sessions w) (sessions w').
Proof.
  intros Hok. cbn zeta.
  destruct (ReadBye_effect req tx w)
    as [[-> ->]|(id & p & s & Hd & Hs & -> & [-> | ->])].
  - split; [done | apply ended_stay_refl].
  - split; [by apply registry_ok_delete | apply ended_stay_refl].
  - split.
    + eapply registry_ok_end; [exact Hok | exact Hs | |
                               apply same_dialog_with_state | done].
      destruct Hok as (I1 & _). by destruct (I1 id p Hd) as (_ & _ & _ & _ & ?).
    + by eapply ended_stay_insert.
Qed.

Lemma IsSuccess_final (res : sip.Response) :
  sip.IsSuccess res = true -> sip.IsProvisional res = false.
Proof. unfold sip.IsSuccess, sip.IsProvisional. lia. Qed.

Lemma Bye_send_not_blocked (p : ptr) (req : sip.Request) (res : sip.Response)
    (env : ByeEnv) (w : World) :
  (Bye_send p req res env w).1 <> Blocked.
Proof.
  destruct (Bye_send_cases p req res env w) as [_ Hcases].
  destruct Hcases as [(_ & _ & [->|(a & b & ->)])|[(bye & e & _ & _ & _ & ->)|
    (bye & now & _ & _ & Hf)]]; try done.
  destruct (bye_final env) as [a| |];
    [destruct (bool_decide (sip.StatusCode a = 200))|..];
    destruct Hf as [-> _]; done.
Qed.

Lemma Bye_step (F : gset ptr) (p : ptr) (env : ByeEnv) (w : World) :
  registry_ok F (dialogs w) (sessions w) ->
  let w' := (Bye p env w).2 in
  registry_ok F (dialogs w') (sessions w') /\
  ended_stay (sessions w) (sessions w').
Proof.
  intros Hok. cbn zeta. rewrite Bye_eq.
  destruct (sessions w !! p) as [s|] eqn:Hs;
    [|split; [done | apply ended_stay_refl]].
  cbn zeta.
  destruct (state s =? sip.DialogStateEnded);
    [split; [done | apply ended_stay_refl]|].
  destruct (InviteResponse s) as [res|] eqn:Hres;
    [|split; [done | apply ended_stay_refl]].
  destruct (sip.IsSuccess res) eqn:Hsucc;
    [|split; [done | apply ended_stay_refl]].
  cbn [negb].
  pose proof (wait_confirmed_acked p (bye_waits env)
                (add_log (EvLoadState p (state s)) w)) as Hack.
  cbn [dialogs sessions add_log] in Hack.
  destruct (registry_ok_acked _ _ _ _ _ Hok Hack) as [Hok2 Hstay2].
  assert (Hs2 : exists s2,
            sessions (wait_confirmed p (bye_waits env)
                        (add_log (EvLoadState p (state s)) w)).2 !! p = Some s2 /\
            same_dialog s s2).
  { destruct Hack as [_ Ha]. specialize (Ha p). rewrite Hs in Ha.
    destruct Ha as (s2 & ? & ? & _). eauto. }
  destruct Hs2 as (s2 & Hs2 & Hsame).
  destruct (wait_confirmed p (bye_waits env) (add_log (EvLoadState p (state s)) w))
    as [[[err|]| |] w2]; cbn [fst snd] in *.
  - rewrite Bye_cleanup_eq, Hs2. cbn.
    split; [by apply registry_ok_delete | done].
  - pose proof (Bye_send_not_blocked p (InviteRequest s) res env w2) as Hnb.
    destruct (Bye_send_cases p (InviteRequest s) res env w2) as [Hd3 Hcases].
    assert (Hss3 : sessions (Bye_send p (InviteRequest s) res env w2).2 = sessions w2 \/
                   sessions (Bye_send p (InviteRequest s) res env w2).2 =
                     <[p := with_state sip.DialogStateEnded s2]> (sessions w2)).
    { destruct Hcases as [(_ & ? & _)|[(bye & e & _ & _ & ? & _)|
        (bye & now & _ & Hnow & Hf)]]; [by left..|].
      rewrite Hs2 in Hnow. injection Hnow as <-.
      destruct (bye_final env) as [a| |];
        [destruct (bool_decide (sip.StatusCode a = 200))|..];
        destruct Hf as (_ & _ & ?); auto. }
    destruct (Bye_send p (InviteRequest s) res env w2) as [o w3].
    cbn [fst snd] in *.
    assert (Hgoal : registry_ok F (dialogs (Bye_cleanup p (inviteTx s) w3))
                      (sessions (Bye_cleanup p (inviteTx s) w3)) /\
                    ended_stay (sessions w) (sessions (Bye_cleanup p (inviteTx s) w3))).
    { rewrite Bye_cleanup_eq. destruct Hss3 as [Hss3|Hss3].
      - rewrite Hss3, Hs2. cbn. rewrite Hd3, Hss3.
        split; [by apply registry_ok_delete | done].
      - rewrite Hss3, lookup_insert_eq. cbn. rewrite Hd3, Hss3.
        change (ID (with_state sip.DialogStateEnded s2)) with (ID s2). split.
        + eapply registry_ok_end; [exact Hok2 | exact Hs2 | |
                                   apply same_dialog_with_state | done].
          destruct Hok2 as (_ & _ & I3). apply (I3 p s2 res Hs2).
          * destruct Hsame as (_ & _ & -> & _). exact Hres.
          * by apply IsSuccess_final.
        + eapply ended_stay_trans; [exact Hstay2|].
          by eapply ended_stay_insert. }
    destruct o as [a| |]; [exact Hgoal | exact Hgoal | done].
  - rewrite Bye_cleanup_eq, Hs2. cbn.
    split; [by apply registry_ok_delete | done].
  - done.
Qed.

Lemma Respond_eq (p : ptr) (code : Z) (reason : string) (body : option (list byte))
    (headers : list sip.Header) (pick : bool) (w : World) :
  Respond p code reason body headers pick w =
  match sessions w !! p with
  | Some s =>
      WriteResponse p
        (fold_left sip.res_AppendHeader headers
           (sip.NewResponseFromRequest (InviteRequest s) code reason body))
        pick w
  | None => (Panic, w)
  end.
Proof.
  unfold Respond. unfold bind at 1. unfold sessionOf at 1.
  by destruct (sessions w !! p).
Qed.

Lemma fold_AppendHeader_status (headers : list sip.Header) (res : sip.Response) :
  sip.StatusCode (fold_left sip.res_AppendHeader headers res) = sip.StatusCode res.
Proof.
  revert res. induction headers as [|h hs IH]; intros res; [done|].
  cbn. by rewrite IH.
Qed.

Lemma RespondSDP_eq (p : ptr) (sdp : option (list byte)) (pick : bool) (w : World) :
  RespondSDP p sdp pick w =
  match sdp with
  | None => (Ret (Some (ErrorString "sdp not provided")), w)
  | Some sdp =>
      match sessions w !! p with
      | Some s =>
          WriteResponse p (sip.NewSDPResponseFromRequest (InviteRequest s) sdp)
            pick w
      | None => (Panic, w)
      end
  end.
Proof.
  unfold RespondSDP. destruct sdp as [sdp|]; [|done].
  unfold bind at 1. unfold sessionOf at 1. by destruct (sessions w !! p).
Qed.

(** Every operation keeps the invariant, for the sessions answered so
    far, as long as it does not answer a session a second time. *)
Lemma run_op_step (F : gset ptr) (op : Op) (w : World) :
  registry_ok F (dialogs w) (sessions w) ->
  (forall p, final_answer op = Some p -> p ∉ F) ->
  registry_ok (answered_after F op) (dialogs (run_op op w)) (sessions (run_op op w)) /\
  ended_stay (sessions w) (sessions (run_op op w)).
Proof.
  intros Hok Hfresh. unfold answered_after.
  destruct op as [req tx|req tx|req tx|p|p res pick|p code reason body hs pick|
                  p sdp pick|p env|t tx]; cbn [run_op final_answer] in *.
  - by apply ReadInvite_step.
  - by apply ReadAck_step.
  - by apply ReadBye_step.
  - by apply Close_step.
  - destruct (WriteResponse_step F w p res pick Hok) as [H1 H2].
    { intros Hp. apply Hfresh. by rewrite Hp. }
    split; [|done]. by destruct (sip.IsProvisional res).
  - rewrite Respond_eq. destruct (sessions w !! p) as [s|] eqn:Hs.
    + set (res := fold_left sip.res_AppendHeader hs
                    (sip.NewResponseFromRequest (InviteRequest s) code reason body)).
      assert (Hprov : sip.IsProvisional res = (code <? 200)).
      { unfold sip.IsProvisional, res. by rewrite fold_AppendHeader_status. }
      destruct (WriteResponse_step F w p res pick Hok) as [H1 H2].
      { intros Hp. apply Hfresh. rewrite <- Hprov. by rewrite Hp. }
      split; [|done]. rewrite <- Hprov. by destruct (sip.IsProvisional res).
    + cbn. split; [|apply ended_stay_refl].
      eapply registry_ok_mono; [|exact Hok]. destruct (code <? 200); set_solver.
  - rewrite RespondSDP_eq. destruct sdp as [sdp|];
      [|split; [done | apply ended_stay_refl]].
    destruct (sessions w !! p) as [s|] eqn:Hs.
    + destruct (WriteResponse_step F w p
                  (sip.NewSDPResponseFromRequest (InviteRequest s) sdp) pick Hok)
        as [H1 H2]; [intros _; by apply Hfresh|].
      split; done.
    + cbn. split; [|apply ended_stay_refl].
      eapply registry_ok_mono; [|exact Hok]. set_solver.
  - by apply Bye_step.
  - split; [done | apply ended_stay_refl].
Qed.

(** ** Sequences of operations *)

Lemma run_app (pre post : list Op) (w : World) :
  run (pre ++ post) w = run post (run pre w).
Proof. unfold run. apply fold_left_app. Qed.

Lemma one_final_answer_split (F : gset ptr) (pre post : list Op) :
  one_final_answer F (pre ++ post) = true ->
  one_final_answer F pre = true /\
  one_final_answer (fold_left answered_after pre F) post = true.
Proof.
  revert F. induction pre as [|op pre IH]; intros F H; [done|].
  cbn in *. unfold answered_after at 2.
  destruct (final_answer op) as [s|]; [|by apply IH].
  apply andb_true_iff in H as [Hs H]. rewrite Hs. by apply IH.
Qed.

Lemma run_keeps (F : gset ptr) (ops : list Op) (w : World) :
  registry_ok F (dialogs w) (sessions w) ->
  one_final_answer F ops = true ->
  registry_ok (fold_left answered_after ops F)
    (dialogs (run ops w)) (sessions (run ops w)) /\
  ended_stay (sessions w) (sessions (run ops w)).
Proof.
  revert F w. induction ops as [|op ops IH]; intros F w Hok Hone.
  - split; [done | apply ended_stay_refl].
  - cbn in Hone |- *.
    assert (Hfresh : forall p, final_answer op = Some p -> p ∉ F).
    { intros p Hp. rewrite Hp in Hone. apply andb_true_iff in Hone as [Hn _].
      by apply bool_decide_eq_true in Hn. }
    assert (Hrest : one_final_answer (answered_after F op) ops = true).
    { unfold answered_after. destruct (final_answer op); [|done].
      by apply andb_true_iff in Hone as [_ ?]. }
    destruct (run_op_step F op w Hok Hfresh) as [Hok1 Hstay1].
    destruct (IH _ _ Hok1 Hrest) as [Hok2 Hstay2].
    split; [exact Hok2|]. by eapply ended_stay_trans.
Qed.

Lemma registry_ok_initial (c : sip.ContactHeader) :
  registry_ok ∅ (dialogs (NewDialogServer c)) (sessions (NewDialogServer c)).
Proof. by repeat split. Qed.

(** C4, as the code has it: in a sequence of operations, started on a
    new [DialogServer], that answers no session with a final response
    twice, after every operation each session in the registry is
    Established or Confirmed, and a session that is Ended stays Ended
    and is in the registry under no identity. *)
Theorem registry_invariant (c : sip.ContactHeader) (ops : list Op) :
  one_final_answer ∅ ops = true ->
  let w := run ops (NewDialogServer c) in
  (forall k p, dialogs w !! k = Some p ->
     state_of w p = Some sip.DialogStateEstablished \/
     state_of w p = Some sip.DialogStateConfirmed) /\
  (forall pre post p,
     ops = pre ++ post ->
     state_of (run pre (NewDialogServer c)) p = Some sip.DialogStateEnded ->
     state_of w p = Some sip.DialogStateEnded /\
     forall k, dialogs w !! k <> Some p).
Proof.
  intros Hone. cbn zeta.
  assert (Hreg : forall F w k p,
            registry_ok F (dialogs w) (sessions w) -> dialogs w !! k = Some p ->
            state_of w p = Some sip.DialogStateEstablished \/
            state_of w p = Some sip.DialogStateConfirmed).
  { intros F w k p (I1 & _) Hk. destruct (I1 k p Hk) as (s & Hs & _ & Hst & _).
    unfold state_of. rewrite Hs. cbn. destruct Hst as [-> | ->]; auto. }
  destruct (run_keeps ∅ ops _ (registry_ok_initial c) Hone) as [Hok _].
  split; [intros k p; by apply (Hreg _ _ k p Hok)|].
  intros pre post p -> Hend.
  destruct (one_final_answer_split _ _ _ Hone) as [Hpre Hpost].
  destruct (run_keeps ∅ pre _ (registry_ok_initial c) Hpre) as [Hok1 _].
  destruct (run_keeps _ post _ Hok1 Hpost) as [Hok2 Hstay].
  rewrite run_app.
  unfold state_of in Hend.
  destruct (sessions (run pre (NewDialogServer c)) !! p) as [s|] eqn:Hs;
    [|discriminate].
  cbn in Hend. injection Hend as Hend.
  destruct (Hstay p s Hs Hend) as (s' & Hs' & Hend').
  assert (Hst : state_of (run post (run pre (NewDialogServer c))) p =
                Some sip.DialogStateEnded).
  { unfold state_of. rewrite Hs'. cbn. by rewrite Hend'. }
  split; [exact Hst|].
  intros k Hk. destruct (Hreg _ _ k p Hok2 Hk) as [H|H];
    rewrite Hst in H; discriminate.
Qed.

(** ** The answer to the BYE *)

Lemma no_sent_no_split (l tr1 tr2 : list Event) (x : Event) :
  l = tr1 ++ x :: tr2 ->
  is_sent x = true ->
  forallb (fun e => negb (is_sent e)) l = true ->
  False.
Proof.
  intros -> Hx H. rewrite forallb_app in H. cbn in H. rewrite Hx in H.
  cbn in H. by rewrite andb_false_r in H.
Qed.

Lemma quiet_no_sent (tr : list Event) :
  forallb quiet tr = true -> forallb (fun e => negb (is_sent e)) tr = true.
Proof.
  rewrite !forallb_forall. intros Q e He. specialize (Q e He).
  unfold quiet in Q. apply andb_true_iff in Q as [Q _].
  destruct e as [| | | | | | | | | | | | |? []|]; done.
Qed.

(** C8, as the code has it: once [Bye] has a BYE transaction, a
    response with status code 200 sets the state to Ended and [Bye]
    returns nil; a response with any other status code makes [Bye]
    return [ErrDialogResponse] with that response; the end of the
    transaction makes it return the error of the transaction; the
    cancellation of the context makes it return the error of the
    context; in these three cases the state does not become Ended. *)
Theorem Bye_final_outcomes (w : World) (p : ptr) (env : ByeEnv)
    (tr1 tr2 : list Event) (bye : sip.Request) :
  let r := Bye p env w in
  since w r.2 = tr1 ++ EvRequest bye None :: tr2 ->
  match bye_final env with
  | ByeResponse a =>
      if bool_decide (sip.StatusCode a = 200) then
        r.1 = Ret None /\ state_of r.2 p = Some sip.DialogStateEnded
      else
        r.1 = Ret (Some (ErrDialogResponse a)) /\
        state_of r.2 p <> Some sip.DialogStateEnded
  | ByeTxDone err =>
      r.1 = Ret err /\ state_of r.2 p <> Some sip.DialogStateEnded
  | ByeCtxDone err =>
      r.1 = Ret (Some err) /\ state_of r.2 p <> Some sip.DialogStateEnded
  end.
Proof.
  cbn zeta. rewrite Bye_eq.
  assert (Hquiet : forall w' tr,
            log w' = log w ++ tr -> forallb quiet tr = true ->
            since w w' = tr1 ++ EvRequest bye None :: tr2 -> False).
  { intros w' tr Hl Q Hs. rewrite (since_app _ _ _ Hl) in Hs.
    eapply no_sent_no_split; [exact Hs | done | by apply quiet_no_sent]. }
  destruct (sessions w !! p) as [s|] eqn:Hs.
  2:{ intros H. exfalso.
      apply (Hquiet w []); [by rewrite app_nil_r | done | exact H]. }
  cbn zeta.
  destruct (state s =? sip.DialogStateEnded) eqn:Hend.
  { intros H. exfalso. by apply (Hquiet (add_log (EvLoadState p (state s)) w)
                           [EvLoadState p (state s)] eq_refl). }
  destruct (InviteResponse s) as [res|] eqn:Hres.
  2:{ intros H. exfalso. by apply (Hquiet (add_log (EvLoadState p (state s)) w)
                           [EvLoadState p (state s)] eq_refl). }
  destruct (negb (sip.IsSuccess res)).
  { intros H. exfalso. by apply (Hquiet (add_log (EvLoadState p (state s)) w)
                           [EvLoadState p (state s)] eq_refl). }
  destruct (wait_confirmed_log p (bye_waits env)
              (add_log (EvLoadState p (state s)) w)) as (trw & Hw & Rw & Pw).
  pose proof (wait_confirmed_acked p (bye_waits env)
                (add_log (EvLoadState p (state s)) w)) as [_ Hack].
  specialize (Hack p). cbn [sessions add_log] in Hack. rewrite Hs in Hack.
  destruct Hack as (s2 & Hs2 & _ & Hst2).
  assert (Hne2 : state s2 <> sip.DialogStateEnded).
  { apply Z.eqb_neq in Hend. destruct Hst2 as [->|[-> _]]; done. }
  clear Hst2.
  destruct (wait_confirmed p (bye_waits env) (add_log (EvLoadState p (state s)) w))
    as [[[err|]| |] w2]; cbn [fst snd] in *.
  - destruct (Bye_cleanup_log p (inviteTx s) w2) as (trc & Hc & Qc).
    intros H. exfalso.
    assert (Hl : log (Bye_cleanup p (inviteTx s) w2) =
                 log w ++ EvLoadState p (state s) :: trw ++ trc).
    { rewrite Hc, Hw. cbn. by rewrite <- ?app_assoc. }
    rewrite (since_app _ _ _ Hl) in H.
    eapply no_request_no_split; [exact H | done|].
    cbn. by rewrite forallb_app, Rw, (quiet_no_request _ Qc).
  - destruct Pw as [Qw _].
    pose proof (Bye_send_not_blocked p (InviteRequest s) res env w2) as Hnb.
    destruct (Bye_send_cases p (InviteRequest s) res env w2) as [_ Hcases].
    destruct (Bye_send p (InviteRequest s) res env w2) as [o w3].
    cbn [fst snd] in *.
    destruct (Bye_cleanup_log p (inviteTx s) w3) as (trc & Hc & Qc).
    assert (Hss : sessions (Bye_cleanup p (inviteTx s) w3) = sessions w3).
    { rewrite Bye_cleanup_eq. by destruct (sessions w3 !! p). }
    assert (Hout : (match o with
                    | Blocked => (Blocked, w3)
                    | _ => (o, Bye_cleanup p (inviteTx s) w3)
                    end) = (o, Bye_cleanup p (inviteTx s) w3)).
    { by destruct o. }
    rewrite Hout. clear Hout. cbn [fst snd].
    destruct Hcases as [(Hl & _)|[(bye' & e & _ & Hl & _)|
      (bye' & now & _ & Hnow & Hf)]].
    + intros H. exfalso.
      eapply (Hquiet _ (EvLoadState p (state s) :: trw ++ trc)); [| |exact H].
      * rewrite Hc, Hl, Hw. cbn. by rewrite <- ?app_assoc.
      * cbn. by rewrite forallb_app, Qw, Qc.
    + intros H. exfalso.
      assert (Hl' : log (Bye_cleanup p (inviteTx s) w3) =
                    log w ++ EvLoadState p (state s)
                          :: trw ++ EvRequest bye' (Some e) :: trc).
      { rewrite Hc, Hl, Hw. cbn. by rewrite <- ?app_assoc. }
      rewrite (since_app _ _ _ Hl') in H.
      eapply no_sent_no_split; [exact H | done|].
      cbn. rewrite forallb_app. cbn.
      by rewrite (quiet_no_sent _ Qw), (quiet_no_sent _ Qc).
    + intros _. rewrite Hs2 in Hnow. injection Hnow as <-.
      unfold state_of. rewrite Hss.
      destruct (bye_final env) as [a|err|err];
        [destruct (bool_decide (sip.StatusCode a = 200))|..];
        destruct Hf as (-> & _ & ->); (split; [done|]);
        rewrite ?lookup_insert_eq, ?Hs2; cbn; congruence.
  - destruct (Bye_cleanup_log p (inviteTx s) w2) as (trc & Hc & Qc).
    intros H. exfalso.
    eapply (Hquiet _ (EvLoadState p (state s) :: trw ++ trc)); [| |exact H].
    + rewrite Hc, Hw. cbn. by rewrite <- ?app_assoc.
    + cbn. by rewrite forallb_app, Pw, Qc.
  - intros H. exfalso.
    eapply (Hquiet _ (EvLoadState p (state s) :: trw)); [| |exact H].
    + rewrite Hw. cbn. by rewrite <- ?app_assoc.
    + cbn. by rewrite Pw.
Qed.

Lemma Bye_final_outcomes_witness :
  (Bye 0%nat (Example.bye_answered Example.ok200) Example.world_confirmed).1 = Ret None /\
  state_of (Bye 0%nat (Example.bye_answered Example.ok200) Example.world_confirmed).2
           0%nat = Some sip.DialogStateEnded.
Proof.
  assert (H : exists tr1 bye tr2,
            since Example.world_confirmed
              (Bye 0%nat (Example.bye_answered Example.ok200)
                 Example.world_confirmed).2
            = tr1 ++ EvRequest bye None :: tr2).
  { eexists [_; _], _, _. vm_compute. reflexivity. }
  destruct H as (tr1 & bye & tr2 & H).
  exact (Bye_final_outcomes Example.world_confirmed 0%nat
           (Example.bye_answered Example.ok200) tr1 tr2 bye H).
Defined.

(** C8, an input the claim fails on: the BYE of the confirmed session of
    the example is answered 202 Accepted, a final response with a
    success code.  [Bye] returns [ErrDialogResponse] with that response
    and the session stays Confirmed. *)
Lemma Bye_rejects_202 :
  let r := Bye 0%nat (Example.bye_answered Example.accepted202)
             Example.world_confirmed in
  sip.IsSuccess Example.accepted202 = true /\
  sip.IsProvisional Example.accepted202 = false /\
  existsb is_sent (since Example.world_confirmed r.2) = true /\
  r.1 = Ret (Some (ErrDialogResponse Example.accepted202)) /\
  r.1 <> Ret None /\
  state_of r.2 0%nat = Some sip.DialogStateConfirmed.
Proof. by vm_compute. Qed.

(** ** [Bye] on a session that cannot be ended *)

Lemma Bye_already_ended (w : World) (p : ptr) (s : DialogServerSession)
    (env : ByeEnv) :
  sessions w !! p = Some s ->
  state s = sip.DialogStateEnded ->
  Bye p env w = (Ret None, add_log (EvLoadState p (state s)) w).
Proof. intros Hs He. rewrite Bye_eq, Hs. cbn zeta. by rewrite He. Qed.

(** The guard of [Bye]: a stored response that is not a success
    response makes [Bye] return its error at once; nothing is sent,
    nothing is cleaned up. *)
Lemma Bye_refuses_failed_setup (w : World) (p : ptr) (s : DialogServerSession)
    (res : sip.Response) (env : ByeEnv) :
  sessions w !! p = Some s ->
  state s <> sip.DialogStateEnded ->
  InviteResponse s = Some res ->
  sip.IsSuccess res = false ->
  Bye p env w =
    (Ret (Some (ErrorString "can not send bye on NON success response")),
     add_log (EvLoadState p (state s)) w).
Proof.
  intros Hs He Hr Hn. rewrite Bye_eq, Hs. cbn zeta.
  apply Z.eqb_neq in He. by rewrite He, Hr, Hn.
Qed.

(** C7, where the code leaves the claim: a session that is not Ended
    and to which no response was ever written has a nil
    [InviteResponse]; [Bye] dereferences it and panics.  It returns no
    error; it sends nothing and cleans nothing up. *)
Theorem Bye_without_response_panics (w : World) (p : ptr)
    (s : DialogServerSession) (env : ByeEnv) :
  sessions w !! p = Some s ->
  state s <> sip.DialogStateEnded ->
  InviteResponse s = None ->
  Bye p env w = (Panic, add_log (EvLoadState p (state s)) w).
Proof.
  intros Hs He Hr. rewrite Bye_eq, Hs. cbn zeta.
  apply Z.eqb_neq in He. by rewrite He, Hr.
Qed.

Lemma Bye_without_response_panics_witness :
  (Bye 0%nat (Example.bye_answered Example.ok200) Example.world_invited).1 = Panic /\
  since Example.world_invited
    (Bye 0%nat (Example.bye_answered Example.ok200) Example.world_invited).2
  = [EvLoadState 0%nat 0].
Proof.
  assert (Hs : exists s, sessions Example.world_invited !! 0%nat = Some s /\
                         state s = 0 /\ InviteResponse s = None).
  { eexists. split; [vm_compute; reflexivity|]. by split. }
  destruct Hs as (s & Hs & Hst & Hr).
  rewrite (Bye_without_response_panics Example.world_invited 0%nat s
             (Example.bye_answered Example.ok200) Hs).
  - rewrite Hst. split; [reflexivity|]. by vm_compute.
  - rewrite Hst. discriminate.
  - exact Hr.
Defined.

(** The guard reads the stored response, which [WriteResponse] stores
    before it sends: after a 200 whose send failed, [Bye] goes on and
    sends a BYE. *)
Lemma Bye_after_failed_send :
  let r1 := WriteResponse 0%nat Example.ok200 true Example.world_send_fails in
  let r2 := Bye 0%nat (Example.bye_after_timer WaitTxDone) r1.2 in
  r1.1 = Ret (Some (ErrTransaction 9)) /\
  r2.1 = Ret None /\
  existsb is_sent (since r1.2 r2.2) = true.
Proof. by vm_compute. Qed.

(** ** Runs of the confirmation wait *)

(** The ACK arrives while [Bye] waits: the BYE goes out after the state
    was loaded as Confirmed. *)
Lemma Bye_unblocked_by_ack :
  let env := Example.bye_after_timer (WaitTimer [(Example.ack, 2%nat)]) in
  let r := Bye 0%nat env Example.world_established in
  r.1 = Ret None /\
  existsb is_sent (since Example.world_established r.2) = true /\
  state_of r.2 0%nat = Some sip.DialogStateEnded /\
  dialogs r.2 !! Example.dialog_id = None.
Proof. by vm_compute. Qed.

(** The context is cancelled while [Bye] waits: no BYE goes out. *)
Lemma Bye_deadline_before_ack :
  let env := Example.bye_after_timer (WaitCtxDone (ErrContext true)) in
  let r := Bye 0%nat env Example.world_established in
  r.1 = Ret (Some (ErrContext true)) /\
  existsb is_request (since Example.world_established r.2) = false /\
  In (EvWaitCtxDone (ErrContext true)) (since Example.world_established r.2).
Proof. vm_compute. repeat split; auto 10. Qed.

(** ** Runs of whole calls *)

Lemma registry_invariant_witness :
  state_of (run Example.call_ops (NewDialogServer Example.bob_contact)) 0%nat
    = Some sip.DialogStateEnded /\
  forall k,
    dialogs (run Example.call_ops (NewDialogServer Example.bob_contact)) !! k
      <> Some 0%nat.
Proof.
  destruct (registry_invariant Example.bob_contact Example.call_ops eq_refl)
    as [_ Hend].
  apply (Hend Example.call_ops [] 0%nat).
  - by rewrite app_nil_r.
  - by vm_compute.
Defined.

(** C4, a sequence the claim fails on: the session of the example is
    answered 200 and then, while the setup transaction is still alive,
    486.  The second answer sets the state to Ended and leaves the
    session in the registry. *)
Lemma ended_session_still_registered :
  let w := run Example.answered_twice_ops Example.world0 in
  state_of w 0%nat = Some sip.DialogStateEnded /\
  dialogs w !! Example.dialog_id = Some 0%nat.
Proof. by vm_compute. Qed.

(** In the other order the state goes from Ended to Established. *)
Lemma ended_session_established_again :
  state_of (run (take 2 Example.refused_then_accepted_ops) Example.world0) 0%nat
    = Some sip.DialogStateEnded /\
  state_of (run Example.refused_then_accepted_ops Example.world0) 0%nat
    = Some sip.DialogStateEstablished.
Proof. by vm_compute. Qed.

(* ===================================================================== *)
(** * Further properties of the session code *)
(* ===================================================================== *)

(** Computes [since] when the later log is the earlier one with events
    appended. *)
Ltac since_now :=
  unfold since; cbn [fst snd log add_log set_sessions set_dialogs set_txs];
  rewrite <- ?app_assoc; rewrite ?drop_app_length, ?drop_all; cbn [app].

(** ** More on the routing of in-dialog requests *)

Lemma ReadBye_found (req : sip.Request) (tx : txid) (w : World) (id : string)
    (p : ptr) (s : DialogServerSession) :
  sip.MakeDialogIDFromRequest req = inl id ->
  dialogs w !! id = Some p ->
  sessions w !! p = Some s ->
  let sent := next_respond (get_tx w tx) in
  let r := ReadBye req tx w in
  r.1 = Ret sent /\
  dialogs r.2 = delete (ID s) (dialogs w) /\
  sessions r.2 =
    match sent with
    | None => <[p := with_state sip.DialogStateEnded s]> (sessions w)
    | Some _ => sessions w
    end /\
  log r.2 =
    log w ++
    [EvLoad id (Some p);
     EvRespond tx (sip.NewResponseFromRequest req 200 "OK" None) sent] ++
    match sent with
    | None => [EvSetState p sip.DialogStateEnded]
    | Some _ => []
    end ++
    [EvTerminate (inviteTx s); EvDelete (ID s)].
Proof.
  intros Hid Hd Hs. cbn zeta.
  remember (ReadBye req tx w) as r eqn:Hr. unfold ReadBye in Hr.
  rewrite Hid in Hr. unfold_ops. cbn in Hr. rewrite Hd in Hr. cbn in Hr.
  rewrite Hs in Hr. cbn in Hr.
  destruct (tx_respond (default idle_tx (txs w !! tx))) as [|[e|] rs];
    cbn in Hr; rewrite ?Hs in Hr; cbn in Hr; rewrite ?lookup_insert_eq in Hr;
    cbn in Hr; subst r; cbn; rewrite <- ?app_assoc; done.
Qed.

(** X1: a BYE that matches a registered session.  [ReadBye] answers it
    200 OK on the transaction of the BYE; if that send succeeds it sets
    the session to Ended and returns nil, if it fails it returns the
    error of the send and leaves the state.  Either way it then
    terminates the setup transaction and deletes the registry entry
    under the ID of the session, in this order, and touches no other
    entry. *)
Theorem ReadBye_hangs_up (req : sip.Request) (tx : txid) (w : World)
    (id : string) (p : ptr) (s : DialogServerSession) :
  sip.MakeDialogIDFromRequest req = inl id ->
  dialogs w !! id = Some p ->
  sessions w !! p = Some s ->
  let sent := next_respond (get_tx w tx) in
  let r := ReadBye req tx w in
  r.1 = Ret sent /\
  since w r.2 =
    [EvLoad id (Some p);
     EvRespond tx (sip.NewResponseFromRequest req 200 "OK" None) sent] ++
    match sent with
    | None => [EvSetState p sip.DialogStateEnded]
    | Some _ => []
    end ++
    [EvTerminate (inviteTx s); EvDelete (ID s)] /\
  dialogs r.2 !! ID s = None /\
  (forall k, k <> ID s -> dialogs r.2 !! k = dialogs w !! k) /\
  state_of r.2 p =
    Some match sent with None => sip.DialogStateEnded | Some _ => state s end.
Proof.
  intros Hid Hd Hs. cbn zeta.
  destruct (ReadBye_found req tx w id p s Hid Hd Hs) as (Hr & Hdg & Hss & Hl).
  split; [exact Hr|]. split; [by apply since_app|].
  rewrite Hdg. split; [apply lookup_delete_eq|].
  split; [intros k Hk; by apply lookup_delete_ne|].
  unfold state_of. rewrite Hss.
  destruct (next_respond (get_tx w tx)).
  - by rewrite Hs.
  - by rewrite lookup_insert_eq.
Qed.

Lemma ReadBye_hangs_up_witness :
  let r := ReadBye Example.bye_in 3%nat Example.world_confirmed in
  r.1 = Ret None /\
  dialogs r.2 !! Example.dialog_id = None /\
  state_of r.2 0%nat = Some sip.DialogStateEnded.
Proof.
  cbn zeta.
  assert (Hs : exists s, sessions Example.world_confirmed !! 0%nat = Some s /\
                         ID s = Example.dialog_id).
  { eexists. split; [vm_compute; reflexivity | reflexivity]. }
  destruct Hs as (s & Hs & Hids).
  destruct (ReadBye_hangs_up Example.bye_in 3%nat Example.world_confirmed
              Example.dialog_id 0%nat s eq_refl)
    as (Hr & _ & Hgone & _ & Hst); [by vm_compute | exact Hs |].
  rewrite Hids in Hgone. split; [exact Hr|]. split; [exact Hgone | exact Hst].
Defined.

(** X2: a session registered under its own ID is hung up by one BYE
    only: after [ReadBye] matched it, a second [ReadBye] and a late
    [ReadAck] for the same request return [ErrDialogDoesNotExists]. *)
Theorem ReadBye_only_once (req : sip.Request) (tx tx' : txid) (w : World)
    (id : string) (p : ptr) (s : DialogServerSession) :
  sip.MakeDialogIDFromRequest req = inl id ->
  dialogs w !! id = Some p ->
  sessions w !! p = Some s ->
  ID s = id ->
  let w' := (ReadBye req tx w).2 in
  (ReadBye req tx' w').1 = Ret (Some ErrDialogDoesNotExists) /\
  (ReadAck req tx' w').1 = Ret (Some ErrDialogDoesNotExists).
Proof.
  intros Hid Hd Hs Hids. cbn zeta.
  destruct (ReadBye_found req tx w id p s Hid Hd Hs) as (_ & Hdg & _).
  assert (Hgone : dialogs (ReadBye req tx w).2 !! id = None).
  { rewrite Hdg, Hids. apply lookup_delete_eq. }
  rewrite (ReadBye_not_found req tx' _ id Hid Hgone).
  rewrite (ReadAck_not_found req tx' _ id Hid Hgone). done.
Qed.

Lemma ReadBye_only_once_witness :
  let w' := (ReadBye Example.bye_in 3%nat Example.world_confirmed).2 in
  (ReadBye Example.bye_in 4%nat w').1 = Ret (Some ErrDialogDoesNotExists) /\
  (ReadAck Example.bye_in 4%nat w').1 = Ret (Some ErrDialogDoesNotExists).
Proof.
  cbn zeta.
  assert (Hs : exists s, sessions Example.world_confirmed !! 0%nat = Some s /\
                         ID s = Example.dialog_id).
  { eexists. split; [vm_compute; reflexivity | reflexivity]. }
  destruct Hs as (s & Hs & Hids).
  apply (ReadBye_only_once Example.bye_in 3%nat 4%nat Example.world_confirmed
           Example.dialog_id 0%nat s eq_refl); [by vm_compute | exact Hs | exact Hids].
Defined.

(** X3: after the peer hung up (a matching BYE answered with success),
    [Bye] on that session returns nil at once: it loads the state and
    does nothing else, whatever its surroundings. *)
Theorem Bye_after_ReadBye (req : sip.Request) (tx : txid) (w : World)
    (id : string) (p : ptr) (s : DialogServerSession) (env : ByeEnv) :
  sip.MakeDialogIDFromRequest req = inl id ->
  dialogs w !! id = Some p ->
  sessions w !! p = Some s ->
  next_respond (get_tx w tx) = None ->
  let w' := (ReadBye req tx w).2 in
  (Bye p env w').1 = Ret None /\
  since w' (Bye p env w').2 = [EvLoadState p sip.DialogStateEnded].
Proof.
  intros Hid Hd Hs Hsent. cbn zeta.
  destruct (ReadBye_found req tx w id p s Hid Hd Hs) as (_ & _ & Hss & _).
  rewrite Hsent in Hss.
  assert (Hs' : sessions (ReadBye req tx w).2 !! p =
                Some (with_state sip.DialogStateEnded s))
    by (rewrite Hss; apply lookup_insert_eq).
  rewrite (Bye_already_ended _ p _ env Hs' eq_refl). cbn [fst snd].
  split; [done|]. by apply since_app.
Qed.

Lemma Bye_after_ReadBye_witness :
  let w' := (ReadBye Example.bye_in 3%nat Example.world_confirmed).2 in
  (Bye 0%nat (Example.bye_answered Example.ok200) w').1 = Ret None /\
  since w' (Bye 0%nat (Example.bye_answered Example.ok200) w').2
    = [EvLoadState 0%nat sip.DialogStateEnded].
Proof.
  cbn zeta.
  assert (Hs : exists s, sessions Example.world_confirmed !! 0%nat = Some s).
  { eexists. vm_compute; reflexivity. }
  destruct Hs as (s & Hs).
  apply (Bye_after_ReadBye Example.bye_in 3%nat Example.world_confirmed
           Example.dialog_id 0%nat s _ eq_refl); [by vm_compute | exact Hs | by vm_compute].
Defined.

(** X4: [ReadInvite].  Without a Contact in the request it returns
    [ErrDialogInviteNoContact] and changes nothing.  With one it makes
    a session at an address no session had: state 0, no ID, no response,
    holding the request and the transaction; the registry is as before
    and holds the new session under no identity, and every other
    session is as before. *)
Theorem ReadInvite_new_session (req : sip.Request) (tx : txid) (w : World) :
  live w ->
  let r := ReadInvite req tx w in
  match sip.req_Contact req with
  | None => r = (Ret (inr ErrDialogInviteNoContact), w)
  | Some _ =>
      exists p,
        r.1 = Ret (inl p) /\
        sessions w !! p = None /\
        sessions r.2 !! p =
          Some {| ID := ""; InviteRequest := req; InviteResponse := None;
                  state := 0; stateCh := []; cancelled := 0%nat;
                  inviteTx := tx |} /\
        (forall q, q <> p -> sessions r.2 !! q = sessions w !! q) /\
        dialogs r.2 = dialogs w /\
        (forall k, dialogs r.2 !! k <> Some p) /\
        since w r.2 = []
  end.
Proof.
  intros Hlive. cbn zeta. unfold ReadInvite.
  destruct (sip.req_Contact req) as [cont|]; [|done].
  cbn. set (p := fresh (dom (sessions w))).
  assert (Hfresh : sessions w !! p = None).
  { apply not_elem_of_dom. apply is_fresh. }
  exists p. split; [done|]. split; [done|].
  split; [apply lookup_insert_eq|].
  split; [intros q Hq; by apply lookup_insert_ne|].
  split; [done|]. split.
  - intros k Hk. destruct (Hlive k p Hk) as [s Hs]. congruence.
  - unfold since. cbn. apply drop_all.
Qed.

Lemma ReadInvite_new_session_witness :
  exists p,
    (ReadInvite Example.invite 5%nat Example.world_confirmed).1 = Ret (inl p) /\
    sessions Example.world_confirmed !! p = None /\
    forall k,
      dialogs (ReadInvite Example.invite 5%nat Example.world_confirmed).2 !! k
        <> Some p.
Proof.
  assert (Hlive : live Example.world_confirmed).
  { intros k p Hk. destruct (decide (k = Example.dialog_id)) as [->|Hne].
    - vm_compute in Hk. injection Hk as <-. eexists. vm_compute. reflexivity.
    - exfalso. revert Hk.
      replace (dialogs Example.world_confirmed)
        with ({[ Example.dialog_id := 0%nat ]} : gmap string ptr)
        by (by vm_compute).
      by rewrite lookup_singleton_ne. }
  pose proof (ReadInvite_new_session Example.invite 5%nat Example.world_confirmed
                Hlive) as H.
  change (sip.req_Contact Example.invite) with (Some Example.alice_contact) in H.
  destruct H as (p & Hr & Hnew & _ & _ & _ & Hreg & _).
  exists p. split; [exact Hr|]. split; [exact Hnew | exact Hreg].
Defined.

(** X5: [ReadAck] only absorbs.  Whatever the request, it leaves the
    registry and every transaction as they were, sends and terminates
    nothing, and changes no session except that the session registered
    under the identity of the request, if there is one, becomes
    Confirmed, whatever state it was in; then it returns nil. *)
Theorem ReadAck_absorbs (req : sip.Request) (tx : txid) (w : World) :
  let r := ReadAck req tx w in
  dialogs r.2 = dialogs w /\
  txs r.2 = txs w /\
  existsb is_tx_event (since w r.2) = false /\
  (forall q s, sessions w !! q = Some s ->
     exists s', sessions r.2 !! q = Some s' /\ same_dialog s s' /\
       (state s' = state s \/
        (state s' = sip.DialogStateConfirmed /\
         exists id, sip.MakeDialogIDFromRequest req = inl id /\
                    dialogs w !! id = Some q))) /\
  (forall id p s,
     sip.MakeDialogIDFromRequest req = inl id ->
     dialogs w !! id = Some p -> sessions w !! p = Some s ->
     r.1 = Ret None /\ state_of r.2 p = Some sip.DialogStateConfirmed).
Proof.
  cbn zeta.
  assert (Hkeep : forall w', sessions w' = sessions w ->
            forall q s, sessions w !! q = Some s ->
            exists s', sessions w' !! q = Some s' /\ same_dialog s s' /\
              (state s' = state s \/
               (state s' = sip.DialogStateConfirmed /\
                exists id, sip.MakeDialogIDFromRequest req = inl id /\
                           dialogs w !! id = Some q))).
  { intros w' -> q s Hq. exists s. split; [done|].
    split; [apply same_dialog_refl | by left]. }
  destruct (sip.MakeDialogIDFromRequest req) as [id|e] eqn:Hid.
  2:{ destruct (ReadAck_outside_dialog req tx w e Hid) as [-> _]. cbn.
      split; [done|]. split; [done|].
      split; [by since_now|].
      split; [by apply Hkeep | intros; discriminate]. }
  destruct (dialogs w !! id) as [p|] eqn:Hd.
  2:{ rewrite (ReadAck_not_found req tx w id Hid Hd). cbn.
      split; [done|]. split; [done|].
      split; [by since_now|].
      split; [by apply Hkeep|]. intros id' p' s' Hid'. congruence. }
  destruct (sessions w !! p) as [s|] eqn:Hs.
  - rewrite (ReadAck_found req tx w id p s Hid Hd Hs). cbn.
    split; [done|]. split; [done|]. split.
    { by since_now. }
    split.
    + intros q sq Hq. destruct (decide (q = p)) as [->|Hne].
      * rewrite lookup_insert_eq. simplify_eq. eexists. split; [done|].
        split; [apply same_dialog_with_state|]. right. split; [done|]. eauto.
      * rewrite lookup_insert_ne by done. exists sq. split; [done|].
        split; [apply same_dialog_refl | by left].
    + intros id' p' s' Hid' Hd' Hs'. simplify_eq. split; [done|].
      unfold state_of. cbn. by rewrite lookup_insert_eq.
  - unfold ReadAck. rewrite Hid. unfold_ops. cbn. rewrite Hd. cbn.
    rewrite Hs. cbn.
    split; [done|]. split; [done|].
    split; [by since_now|].
    split; [by apply Hkeep|]. intros id' p' s' Hid' Hd' Hs'. congruence.
Qed.

(** ** More on [WriteResponse] *)

Lemma WriteResponse_provisional_rest (w : World) (p : ptr) (s : DialogServerSession)
    (res : sip.Response) (pick : bool) :
  sessions w !! p = Some s ->
  idle w (inviteTx s) ->
  sip.IsProvisional res = true ->
  idle (WriteResponse p res pick w).2 (inviteTx s) /\
  contactHDR (WriteResponse p res pick w).2 = contactHDR w.
Proof.
  intros Hs [Hc Hd] Hp.
  assert (Hn : sip.IsSuccess (sip.res_AppendHeader res (sip.HdrContact (contactHDR w))) = false).
  { unfold sip.IsProvisional, sip.IsSuccess in *. cbn. lia. }
  assert (Hp' : sip.IsProvisional (sip.res_AppendHeader res (sip.HdrContact (contactHDR w))) = true) by exact Hp.
  unfold idle. unfold_ops. exec.
  destruct (tx_respond (default idle_tx (txs w !! inviteTx s))) as [|r rs] eqn:Hr;
    exec; done.
Qed.

Lemma responded_app (tr1 tr2 : list Event) :
  responded (tr1 ++ tr2) = responded tr1 ++ responded tr2.
Proof.
  induction tr1 as [|e tr1 IH]; [done|]. destruct e; cbn; by rewrite ?IH.
Qed.

(** X6: provisional responses, any number of them, written to a session
    whose setup transaction has no CANCEL waiting and is not done: each
    is handed to [Respond] once, in order, with the contact header
    appended; the registry, the state and the ID of the session stay as
    they were. *)
Theorem provisional_responses_change_nothing (w : World) (p : ptr)
    (s : DialogServerSession) (rs : list (sip.Response * bool)) :
  sessions w !! p = Some s ->
  idle w (inviteTx s) ->
  Forall (fun rp => sip.IsProvisional rp.1 = true) rs ->
  let w' := write_all p rs w in
  dialogs w' = dialogs w /\
  state_of w' p = Some (state s) /\
  ID <$> sessions w' !! p = Some (ID s) /\
  responded (since w w') =
    map (fun rp => sip.res_AppendHeader rp.1 (sip.HdrContact (contactHDR w))) rs.
Proof.
  intros Hs Hidle Hall. cbn zeta.
  assert (Hgen : forall w0 s0,
            sessions w0 !! p = Some s0 -> idle w0 (inviteTx s0) ->
            exists tr s1,
              log (write_all p rs w0) = log w0 ++ tr /\
              responded tr =
                map (fun rp => sip.res_AppendHeader rp.1
                                 (sip.HdrContact (contactHDR w0))) rs /\
              dialogs (write_all p rs w0) = dialogs w0 /\
              sessions (write_all p rs w0) !! p = Some s1 /\
              state s1 = state s0 /\ ID s1 = ID s0).
  { induction Hall as [|[res pick] rest Hp _ IH]; intros w0 s0 Hs0 Hi0.
    - exists [], s0. cbn. by rewrite app_nil_r.
    - cbn in Hp. cbn [write_all].
      destruct (WriteResponse_provisional w0 p s0 res pick Hs0 Hi0 Hp)
        as (_ & Hd1 & Hss1 & Hl1).
      destruct (WriteResponse_provisional_rest w0 p s0 res pick Hs0 Hi0 Hp)
        as (Hi1 & Hc1).
      set (w1 := (WriteResponse p res pick w0).2) in *.
      assert (Hs1 : sessions w1 !! p =
                Some (with_InviteResponse
                        (sip.res_AppendHeader res (sip.HdrContact (contactHDR w0))) s0))
        by (rewrite Hss1; apply lookup_insert_eq).
      destruct (IH w1 _ Hs1 Hi1) as (tr & s1 & Hl & Hresp & Hd & Hs' & Hst & Hid).
      eexists _, s1. split.
      { rewrite Hl, Hl1, <- app_assoc. reflexivity. }
      split.
      { rewrite responded_app, Hresp, Hc1. reflexivity. }
      split; [by rewrite Hd, Hd1|]. done. }
  destruct (Hgen w s Hs Hidle) as (tr & s1 & Hl & Hresp & Hd & Hs1 & Hst & Hid).
  split; [exact Hd|]. unfold state_of. rewrite Hs1. cbn. rewrite Hst, Hid.
  split; [done|]. split; [done|]. by rewrite (since_app _ _ _ Hl).
Qed.

Lemma provisional_responses_change_nothing_witness :
  let w' := write_all 0%nat [(Example.response 100 "Trying", true);
                             (Example.ringing180, false);
                             (Example.ringing180, true)]
              Example.world_invited in
  dialogs w' = dialogs Example.world_invited /\
  state_of w' 0%nat = Some 0 /\
  length (responded (since Example.world_invited w')) = 3%nat.
Proof.
  cbn zeta.
  assert (Hs : exists s, sessions Example.world_invited !! 0%nat = Some s /\
                         inviteTx s = 1%nat /\ state s = 0).
  { eexists. split; [vm_compute; reflexivity | by split]. }
  destruct Hs as (s & Hs & Htx & Hst).
  destruct (provisional_responses_change_nothing Example.world_invited 0%nat s
              [(Example.response 100 "Trying", true);
               (Example.ringing180, false); (Example.ringing180, true)] Hs)
    as (Hd & Hstate & _ & Hresp).
  - rewrite Htx. split; by vm_compute.
  - repeat constructor.
  - split; [exact Hd|]. rewrite Hstate, Hresp, Hst. done.
Defined.

(** X7: a final response that is not a success, written while nothing
    is ready on the setup transaction, never registers the session: the
    call hands the response to [Respond] and returns its result; the
    state becomes Ended exactly when the send succeeded, and the
    registry and the ID of the session stay as they were. *)
Theorem WriteResponse_final_failure (w : World) (p : ptr) (s : DialogServerSession)
    (res : sip.Response) (pick : bool) :
  sessions w !! p = Some s ->
  idle w (inviteTx s) ->
  sip.IsProvisional res = false ->
  sip.IsSuccess res = false ->
  let r := WriteResponse p res pick w in
  let sent := next_respond (get_tx w (inviteTx s)) in
  r.1 = Ret sent /\
  responded (since w r.2) =
    [sip.res_AppendHeader res (sip.HdrContact (contactHDR w))] /\
  dialogs r.2 = dialogs w /\
  ID <$> sessions r.2 !! p = Some (ID s) /\
  state_of r.2 p =
    Some match sent with None => sip.DialogStateEnded | Some _ => state s end.
Proof.
  intros Hs Hi Hp Hn. cbn zeta.
  destruct (WriteResponse_failure w p s res pick Hs Hi Hp Hn)
    as (Hr & Hd & Hss & Hl).
  split; [exact Hr|]. rewrite (since_app _ _ _ Hl).
  split; [by destruct (next_respond (get_tx w (inviteTx s)))|].
  split; [exact Hd|]. unfold state_of. rewrite Hss, lookup_insert_eq.
  by destruct (next_respond (get_tx w (inviteTx s))).
Qed.

Lemma WriteResponse_final_failure_witness :
  let r := WriteResponse 0%nat Example.busy486 true Example.world_invited in
  r.1 = Ret None /\
  dialogs r.2 = dialogs Example.world_invited /\
  state_of r.2 0%nat = Some sip.DialogStateEnded.
Proof.
  cbn zeta.
  assert (Hs : exists s, sessions Example.world_invited !! 0%nat = Some s /\
                         inviteTx s = 1%nat).
  { eexists. split; [vm_compute; reflexivity | reflexivity]. }
  destruct Hs as (s & Hs & Htx).
  destruct (WriteResponse_final_failure Example.world_invited 0%nat s
              Example.busy486 true Hs)
    as (Hr & _ & Hd & _ & Hst); [rewrite Htx; split; by vm_compute | done..|].
  rewrite Htx in Hr, Hst.
  split; [exact Hr|]. split; [exact Hd | exact Hst].
Defined.

(** X8: a success response whose identity cannot be computed, written
    while nothing is ready on the setup transaction: the call returns
    the error of the identity, which is not [ErrDialogOutsideDialog],
    hands nothing to [Respond], and leaves the registry, the state and
    the ID of the session as they were. *)
Theorem WriteResponse_without_identity (w : World) (p : ptr)
    (s : DialogServerSession) (res : sip.Response) (pick : bool) (e : sip.IDError) :
  sessions w !! p = Some s ->
  idle w (inviteTx s) ->
  sip.IsSuccess res = true ->
  sip.MakeDialogIDFromResponse
    (sip.res_AppendHeader res (sip.HdrContact (contactHDR w))) = inr e ->
  let r := WriteResponse p res pick w in
  r.1 = Ret (Some (ErrIDError e)) /\
  responded (since w r.2) = [] /\
  dialogs r.2 = dialogs w /\
  ID <$> sessions r.2 !! p = Some (ID s) /\
  state_of r.2 p = Some (state s).
Proof.
  intros Hs Hi Hn Hid. cbn zeta.
  destruct (WriteResponse_no_identity w p s res pick e Hs Hi Hn Hid)
    as (Hr & Hd & Hss & Hl).
  split; [exact Hr|]. rewrite (since_app _ _ _ Hl). split; [done|].
  split; [exact Hd|]. unfold state_of. by rewrite Hss, lookup_insert_eq.
Qed.

Lemma WriteResponse_without_identity_witness :
  let res := sip.mkResponse 200 "OK"
               [sip.HdrFrom Example.alice; sip.HdrTo Example.bob_untagged;
                sip.HdrCallID "call-1"] None in
  let r := WriteResponse 0%nat res true Example.world_invited in
  r.1 = Ret (Some (ErrIDError sip.MissingToTag)) /\
  dialogs r.2 = dialogs Example.world_invited /\
  state_of r.2 0%nat = Some 0.
Proof.
  cbn zeta.
  assert (Hs : exists s, sessions Example.world_invited !! 0%nat = Some s /\
                         inviteTx s = 1%nat /\ state s = 0).
  { eexists. split; [vm_compute; reflexivity | by split]. }
  destruct Hs as (s & Hs & Htx & Hst).
  destruct (WriteResponse_without_identity Example.world_invited 0%nat s
              (sip.mkResponse 200 "OK"
                 [sip.HdrFrom Example.alice; sip.HdrTo Example.bob_untagged;
                  sip.HdrCallID "call-1"] None) true sip.MissingToTag Hs)
    as (Hr & _ & Hd & _ & Hstate);
    [rewrite Htx; split; by vm_compute | done | by vm_compute |].
  split; [exact Hr|]. split; [exact Hd|]. by rewrite Hstate, Hst.
Defined.

(** X9: a session that was answered with a provisional response only
    cannot be hung up: [Bye] returns its error at once, sends nothing,
    terminates no transaction and deletes nothing from the registry. *)
Theorem Bye_after_provisional (w : World) (p : ptr) (s : DialogServerSession)
    (res : sip.Response) (pick : bool) (env : ByeEnv) :
  sessions w !! p = Some s ->
  idle w (inviteTx s) ->
  state s <> sip.DialogStateEnded ->
  sip.IsProvisional res = true ->
  let w' := (WriteResponse p res pick w).2 in
  (Bye p env w').1 =
    Ret (Some (ErrorString "can not send bye on NON success response")) /\
  since w' (Bye p env w').2 = [EvLoadState p (state s)] /\
  dialogs (Bye p env w').2 = dialogs w.
Proof.
  intros Hs Hi He Hp. cbn zeta.
  destruct (WriteResponse_provisional w p s res pick Hs Hi Hp)
    as (_ & Hd & Hss & _).
  set (res' := sip.res_AppendHeader res (sip.HdrContact (contactHDR w))) in *.
  assert (Hs' : sessions (WriteResponse p res pick w).2 !! p =
                Some (with_InviteResponse res' s))
    by (rewrite Hss; apply lookup_insert_eq).
  assert (Hn : sip.IsSuccess res' = false).
  { unfold sip.IsProvisional, sip.IsSuccess in *. cbn. lia. }
  rewrite (Bye_refuses_failed_setup _ p _ res' env Hs' He eq_refl Hn).
  cbn [fst snd]. split; [done|]. split; [by since_now | exact Hd].
Qed.

Lemma Bye_after_provisional_witness :
  let w' := (WriteResponse 0%nat Example.ringing180 true Example.world_invited).2 in
  (Bye 0%nat (Example.bye_answered Example.ok200) w').1 =
    Ret (Some (ErrorString "can not send bye on NON success response")) /\
  dialogs (Bye 0%nat (Example.bye_answered Example.ok200) w').2 =
    dialogs Example.world_invited.
Proof.
  cbn zeta.
  assert (Hs : exists s, sessions Example.world_invited !! 0%nat = Some s /\
                         inviteTx s = 1%nat /\ state s = 0).
  { eexists. split; [vm_compute; reflexivity | by split]. }
  destruct Hs as (s & Hs & Htx & Hst).
  destruct (Bye_after_provisional Example.world_invited 0%nat s
              Example.ringing180 true (Example.bye_answered Example.ok200) Hs)
    as (Hr & _ & Hd);
    [rewrite Htx; split; by vm_compute | by rewrite Hst | done |].
  split; [exact Hr | exact Hd].
Defined.

(** ** [Respond] *)

Lemma fold_AppendHeader_eq (headers : list sip.Header) (res : sip.Response) :
  fold_left sip.res_AppendHeader headers res =
  {| sip.StatusCode := sip.StatusCode res; sip.Reason := sip.Reason res;
     sip.res_headers := sip.res_headers res ++ headers;
     sip.res_body := sip.res_body res |}.
Proof.
  revert res. induction headers as [|h hs IH]; intros res; cbn.
  - rewrite app_nil_r. by destruct res.
  - rewrite IH. cbn. by rewrite <- app_assoc.
Qed.

Lemma WriteResponse_stored (w : World) (p : ptr) (s : DialogServerSession)
    (res : sip.Response) (pick : bool) :
  sessions w !! p = Some s ->
  InviteResponse <$> sessions (WriteResponse p res pick w).2 !! p =
    Some (Some (sip.res_AppendHeader res (sip.HdrContact (contactHDR w)))).
Proof.
  intros Hs.
  destruct (WriteResponse_effect w p s res pick Hs)
    as [[_ ->]|[(_ & _ & ->)|(_ & id & -> & _)]];
    by rewrite lookup_insert_eq.
Qed.

(** X10: the response [Respond] writes.  It is built from the setup
    request of the session with the given status code, reason and body;
    the headers of the caller follow those of the built response in the
    order given, and the contact header of the registry comes last.
    The session holds this response afterwards, whatever was returned.
    A provisional status code leaves the state and the registry as they
    were when nothing is ready on the setup transaction. *)
Theorem Respond_builds_response (w : World) (p : ptr) (s : DialogServerSession)
    (code : Z) (reason : string) (body : option (list byte))
    (headers : list sip.Header) (pick : bool) :
  sessions w !! p = Some s ->
  let r := Respond p code reason body headers pick w in
  let base := sip.NewResponseFromRequest (InviteRequest s) code reason body in
  InviteResponse <$> sessions r.2 !! p =
    Some (Some {| sip.StatusCode := code; sip.Reason := reason;
                  sip.res_headers :=
                    sip.res_headers base ++ headers ++
                    [sip.HdrContact (contactHDR w)];
                  sip.res_body := body |}) /\
  (code < 200 -> idle w (inviteTx s) ->
   dialogs r.2 = dialogs w /\ state_of r.2 p = Some (state s)).
Proof.
  intros Hs. cbn zeta. rewrite Respond_eq, Hs, fold_AppendHeader_eq.
  match goal with |- context [WriteResponse p ?r pick w] => set (res := r) end.
  split.
  - rewrite (WriteResponse_stored w p s res pick Hs).
    unfold res, sip.res_AppendHeader.
    cbn [sip.StatusCode sip.Reason sip.res_headers sip.res_body].
    by rewrite <- app_assoc.
  - intros Hcode Hi.
    destruct (WriteResponse_provisional w p s res pick Hs Hi)
      as (_ & Hd & Hss & _).
    { unfold sip.IsProvisional, res. cbn. lia. }
    split; [exact Hd|].
    unfold state_of. by rewrite Hss, lookup_insert_eq.
Qed.

Lemma Respond_builds_response_witness :
  let r := Respond 0%nat 180 "Ringing" None [sip.NewHeader "X-Note" "a";
                                             sip.NewHeader "X-Note" "b"]
             true Example.world_invited in
  InviteResponse <$> sessions r.2 !! 0%nat <> Some None /\
  dialogs r.2 = dialogs Example.world_invited /\
  state_of r.2 0%nat = Some 0.
Proof.
  cbn zeta.
  assert (Hs : exists s, sessions Example.world_invited !! 0%nat = Some s /\
                         inviteTx s = 1%nat /\ state s = 0).
  { eexists. split; [vm_compute; reflexivity | by split]. }
  destruct Hs as (s & Hs & Htx & Hst).
  destruct (Respond_builds_response Example.world_invited 0%nat s 180 "Ringing"
              None [sip.NewHeader "X-Note" "a"; sip.NewHeader "X-Note" "b"]
              true Hs) as (Hstored & Hprov).
  destruct Hprov as (Hd & Hstate); [done | rewrite Htx; split; by vm_compute |].
  split.
  { intros Heq. pose proof (eq_trans (eq_sym Hstored) Heq). discriminate. }
  split; [exact Hd|]. by rewrite Hstate, Hst.
Defined.

(** ** More on [Bye] *)

(** The Route of a message whose Route headers were built from texts is
    read back from the first of them. *)
Lemma hs_Route_routes (l : list sip.Header) :
  sip.hs_Route (map (fun h => sip.NewHeader "Route" (sip.Header_Value h)) l) =
  match l with
  | [] => None
  | rr :: _ => sip.ParseRouteValue (sip.Header_Value rr)
  end.
Proof. by destruct l. Qed.

(** What [Bye] reads from the BYE it built. *)
Lemma newByeRequestUAS_accessors (req : sip.Request) (res : sip.Response)
    (cont : sip.ContactHeader) (from : sip.FromHeader) (to : sip.ToHeader)
    (callid : string) :
  sip.req_Contact req = Some cont ->
  sip.res_From res = Some from ->
  sip.res_To res = Some to ->
  sip.res_CallID res = Some callid ->
  exists bye,
    newByeRequestUAS req res = Some bye /\
    sip.Recipient bye = sip.contact_Address cont /\
    sip.req_destination bye = "" /\
    sip.req_CallID bye = Some callid /\
    sip.req_From bye =
      Some (sip.mkFrom (sip.to_DisplayName to) (sip.to_Address to) (sip.to_Params to)) /\
    sip.req_To bye =
      Some (sip.mkTo (sip.from_DisplayName from) (sip.from_Address from)
              (sip.from_Params from)) /\
    sip.req_Route bye =
      match rev (sip.req_GetHeaders req "Record-Route") with
      | [] => None
      | rr :: _ => sip.ParseRouteValue (sip.Header_Value rr)
      end.
Proof.
  intros Hc Hf Ht Hid. unfold newByeRequestUAS.
  rewrite Hc, Hf, Ht, Hid, fold_append_routes.
  eexists. split; [reflexivity|]. cbn.
  split; [done|]. split; [done|]. split; [done|]. split; [done|].
  split; [done|]. unfold sip.req_Route. cbn. apply hs_Route_routes.
Qed.

(** [Bye_send] once the BYE is built and the session is read. *)
Lemma Bye_send_eq (p : ptr) (req : sip.Request) (res : sip.Response)
    (env : ByeEnv) (w : World) (bye : sip.Request) (callid : string)
    (newFrom : sip.FromHeader) (newTo : sip.ToHeader) (now : DialogServerSession) :
  newByeRequestUAS req res = Some bye ->
  sip.req_CallID bye = Some callid ->
  sip.req_From bye = Some newFrom ->
  sip.req_To bye = Some newTo ->
  sessions w !! p = Some now ->
  let byeID :=
    sip.MakeDialogID callid (sip.param (sip.from_Params newFrom) "tag")
      (sip.param (sip.to_Params newTo) "tag") in
  let sent :=
    match sip.req_Route bye with
    | Some rr => sip.SetDestination bye (sip.Uri_HostPort rr)
    | None => bye
    end in
  Bye_send p req res env w =
  if negb (bool_decide (ID now = byeID)) then
    (Ret (Some (ErrNonMatchingID (ID now) byeID)), w)
  else
    match bye_request env with
    | Some e => (Ret (Some e), add_log (EvRequest sent (Some e)) w)
    | None =>
        defer (emit EvClientTerminate) (Bye_await p (bye_final env))
          (add_log (EvRequest sent None) w)
    end.
Proof.
  intros Hb Hc Hf Ht Hnow. cbn zeta. unfold Bye_send.
  rewrite Hb, Hc, Hf, Ht. unfold bind at 1. unfold sessionOf at 1.
  rewrite Hnow. destruct (negb (bool_decide (ID now = _))); [done|].
  unfold cli_TransactionRequest, bind, emit, ret. cbn.
  by destruct (bye_request env).
Qed.

(** What [Bye_await] leaves in the log and in the session. *)
Lemma Bye_await_eq (p : ptr) (final : ByeOutcome) (w : World)
    (now : DialogServerSession) :
  sessions w !! p = Some now ->
  defer (emit EvClientTerminate) (Bye_await p final) w =
  match final with
  | ByeResponse a =>
      if bool_decide (sip.StatusCode a = 200) then
        (Ret None,
         add_log EvClientTerminate
           (add_log (EvSetState p sip.DialogStateEnded)
              (set_sessions (<[p := with_state sip.DialogStateEnded now]> (sessions w))
                 w)))
      else (Ret (Some (ErrDialogResponse a)), add_log EvClientTerminate w)
  | ByeTxDone err => (Ret err, add_log EvClientTerminate w)
  | ByeCtxDone err => (Ret (Some err), add_log EvClientTerminate w)
  end.
Proof.
  intros Hnow. unfold Bye_await. destruct final as [a|err|err]; [|done..].
  destruct (bool_decide (sip.StatusCode a = 200)); [|done].
  unfold_ops. cbn. rewrite Hnow. done.
Qed.

Lemma getDialogID_fields (hs : list sip.Header) (id : string) :
  sip.getDialogIDFromMessage hs = inl id ->
  exists callid to from,
    sip.hs_CallID hs = Some callid /\ sip.hs_To hs = Some to /\
    sip.hs_From hs = Some from /\
    id = sip.MakeDialogID callid (sip.param (sip.to_Params to) "tag")
           (sip.param (sip.from_Params from) "tag").
Proof.
  unfold sip.getDialogIDFromMessage, sip.param.
  destruct (sip.hs_CallID hs) as [callid|]; [|done].
  destruct (sip.hs_To hs) as [to|]; [|done].
  destruct (sip.to_Params to !! "tag") as [tt|] eqn:Htt; [|done].
  destruct (sip.hs_From hs) as [from|]; [|done].
  destruct (sip.from_Params from !! "tag") as [ft|] eqn:Hft; [|done].
  intros [= <-]. exists callid, to, from. rewrite Htt, Hft. done.
Qed.

(** X11: [Bye] on a Confirmed session whose ID is the identity of its
    stored success response, as [WriteResponse] sets it.  It does not
    wait; it builds the BYE for the contact of the setup request, finds
    that it belongs to the dialog, and hands exactly this one request
    to the client.  The destination of the request is the next hop of
    the address read from the first Route of the BYE, which is the last
    Record-Route of the setup request; it is left unset when the setup
    request has no Record-Route or the address cannot be read.
    Whatever comes back, the registry entry of the session is deleted
    when [Bye] returns. *)
Theorem Bye_hangs_up_confirmed (w : World) (p : ptr) (s : DialogServerSession)
    (res : sip.Response) (cont : sip.ContactHeader) (env : ByeEnv) :
  sessions w !! p = Some s ->
  state s = sip.DialogStateConfirmed ->
  InviteResponse s = Some res ->
  sip.IsSuccess res = true ->
  sip.MakeDialogIDFromResponse res = inl (ID s) ->
  sip.req_Contact (InviteRequest s) = Some cont ->
  let r := Bye p env w in
  exists bye tr,
    newByeRequestUAS (InviteRequest s) res = Some bye /\
    sip.Recipient bye = sip.contact_Address cont /\
    since w r.2 =
      EvLoadState p sip.DialogStateConfirmed
      :: EvLoadState p sip.DialogStateConfirmed
      :: EvRequest
           match rev (sip.req_GetHeaders (InviteRequest s) "Record-Route") with
           | [] => bye
           | rr :: _ =>
               match sip.ParseRouteValue (sip.Header_Value rr) with
               | Some a => sip.SetDestination bye (sip.Uri_HostPort a)
               | None => bye
               end
           end (bye_request env) :: tr /\
    existsb is_request tr = false /\
    dialogs r.2 !! ID s = None /\
    r.1 <> Panic /\ r.1 <> Blocked.
Proof.
  intros Hs Hst Hres Hsucc Hid Hcont. cbn zeta.
  destruct (getDialogID_fields _ _ Hid) as (callid & to & from & Hc & Ht & Hf & Hids).
  destruct (newByeRequestUAS_accessors (InviteRequest s) res cont from to callid
              Hcont Hf Ht Hc)
    as (bye & Hb & Hrcpt & Hdest & Hbc & Hbf & Hbt & Hbr).
  exists bye.
  assert (Hsent :
    match sip.req_Route bye with
    | Some rr => sip.SetDestination bye (sip.Uri_HostPort rr)
    | None => bye
    end =
    match rev (sip.req_GetHeaders (InviteRequest s) "Record-Route") with
    | [] => bye
    | rr :: _ =>
        match sip.ParseRouteValue (sip.Header_Value rr) with
        | Some a => sip.SetDestination bye (sip.Uri_HostPort a)
        | None => bye
        end
    end).
  { rewrite Hbr.
    by destruct (rev (sip.req_GetHeaders (InviteRequest s) "Record-Route")). }
  rewrite <- Hsent. clear Hsent Hbr.
  rewrite Bye_eq, Hs. cbn zeta. rewrite Hst, Hres, Hsucc. cbn [negb Z.eqb].
  change (sip.DialogStateConfirmed =? sip.DialogStateEnded) with false. cbn iota.
  rewrite wait_confirmed_eq. cbn [sessions add_log]. rewrite Hs. cbn zeta.
  rewrite Hst.
  change (sip.DialogStateConfirmed <? sip.DialogStateConfirmed) with false.
  cbn iota.
  set (w2 := add_log (EvLoadState p sip.DialogStateConfirmed)
               (add_log (EvLoadState p sip.DialogStateConfirmed) w)).
  assert (Hs2 : sessions w2 !! p = Some s) by exact Hs.
  rewrite (Bye_send_eq p (InviteRequest s) res env w2 bye callid _ _ s
             Hb Hbc Hbf Hbt Hs2).
  cbn zeta. cbn [sip.from_Params sip.to_Params]. rewrite <- Hids.
  rewrite bool_decide_eq_true_2 by done. cbn [negb].
  destruct (bye_request env) as [e|].
  - rewrite Bye_cleanup_eq. cbn [sessions add_log]. rewrite Hs2.
    eexists. split; [done|]. split; [done|].
    split; [subst w2; since_now; reflexivity|].
    split; [done|]. split; [cbn; apply lookup_delete_eq | done].
  - rewrite (Bye_await_eq p (bye_final env) _ s) by exact Hs2.
    destruct (bye_final env) as [a|err|err];
      [destruct (bool_decide (sip.StatusCode a = 200))|..];
      rewrite Bye_cleanup_eq; cbn [sessions add_log set_sessions];
      rewrite ?lookup_insert_eq, ?Hs2;
      (eexists; split; [done|]; split; [done|];
       split; [subst w2; since_now; reflexivity|];
       split; [done|]; split; [cbn; apply lookup_delete_eq | done]).
Qed.

Lemma Bye_hangs_up_confirmed_witness :
  exists bye tr,
    since Example.world_confirmed
      (Bye 0%nat (Example.bye_answered Example.ok200) Example.world_confirmed).2 =
      EvLoadState 0%nat 2 :: EvLoadState 0%nat 2
      :: EvRequest (sip.SetDestination bye "p3.example:0") None :: tr /\
    sip.Recipient bye = sip.contact_Address Example.alice_contact.
Proof.
  assert (Hs : exists s, sessions Example.world_confirmed !! 0%nat = Some s /\
                         state s = 2 /\ ID s = Example.dialog_id /\
                         InviteRequest s = Example.invite /\
                         InviteResponse s =
                           Some (sip.res_AppendHeader Example.ok200
                                   (sip.HdrContact Example.bob_contact))).
  { eexists. split; [vm_compute; reflexivity | by repeat split]. }
  destruct Hs as (s & Hs & Hst & Hids & Hreq & Hres).
  destruct (Bye_hangs_up_confirmed Example.world_confirmed 0%nat s _
              Example.alice_contact (Example.bye_answered Example.ok200)
              Hs Hst Hres eq_refl)
    as (bye & tr & _ & Hrcpt & Hlog & _).
  - rewrite Hids. by vm_compute.
  - rewrite Hreq. reflexivity.
  - exists bye, tr. split; [|exact Hrcpt].
    rewrite Hlog, Hreq. reflexivity.
Defined.

(** [Bye] past its guard: the confirmation wait, and what it keeps. *)
Lemma Bye_guarded (w : World) (p : ptr) (s : DialogServerSession)
    (res : sip.Response) (env : ByeEnv) :
  sessions w !! p = Some s ->
  state s <> sip.DialogStateEnded ->
  InviteResponse s = Some res ->
  sip.IsSuccess res = true ->
  exists ow w2 s2 trw,
    wait_confirmed p (bye_waits env) (add_log (EvLoadState p (state s)) w) = (ow, w2) /\
    dialogs w2 = dialogs w /\
    sessions w2 !! p = Some s2 /\ same_dialog s s2 /\
    state s2 <> sip.DialogStateEnded /\
    log w2 = log w ++ EvLoadState p (state s) :: trw /\
    forallb (fun e => negb (is_request e)) trw = true /\
    Bye p env w =
      match ow with
      | Blocked => (Blocked, w2)
      | Panic => (Panic, Bye_cleanup p (inviteTx s) w2)
      | Ret (Some err) => (Ret (Some err), Bye_cleanup p (inviteTx s) w2)
      | Ret None =>
          match Bye_send p (InviteRequest s) res env w2 with
          | (Blocked, w3) => (Blocked, w3)
          | (r, w3) => (r, Bye_cleanup p (inviteTx s) w3)
          end
      end.
Proof.
  intros Hs He Hres Hsucc.
  destruct (wait_confirmed_log p (bye_waits env)
              (add_log (EvLoadState p (state s)) w)) as (trw & Hw & Rw & _).
  pose proof (wait_confirmed_acked p (bye_waits env)
                (add_log (EvLoadState p (state s)) w)) as [Hd Hack].
  specialize (Hack p). cbn [sessions dialogs add_log] in Hack, Hd.
  rewrite Hs in Hack. destruct Hack as (s2 & Hs2 & Hsame & Hst2).
  destruct (wait_confirmed p (bye_waits env) (add_log (EvLoadState p (state s)) w))
    as [ow w2] eqn:Hwait.
  cbn [fst snd] in *.
  exists ow, w2, s2, trw. split; [done|]. split; [done|]. split; [done|].
  split; [done|]. split; [destruct Hst2 as [->|[-> _]]; done|].
  split; [rewrite Hw; cbn; by rewrite <- app_assoc|]. split; [done|].
  rewrite Bye_eq, Hs. cbn zeta.
  apply Z.eqb_neq in He. rewrite He, Hres, Hsucc. cbn [negb]. rewrite Hwait.
  by destruct ow as [[err|]| |].
Qed.

(** X12: the deferred cleanup of [Bye].  Once a session that is not
    Ended and holds a success response gets past the guard, [Bye]
    deletes nothing while it is still blocked in its wait; and whenever
    it returns or panics after the wait, its last two effects are the
    termination of the setup transaction and then the deletion of the
    registry entry under the ID of the session, whatever it returns. *)
Theorem Bye_always_cleans_up (w : World) (p : ptr) (s : DialogServerSession)
    (res : sip.Response) (env : ByeEnv) :
  sessions w !! p = Some s ->
  state s <> sip.DialogStateEnded ->
  InviteResponse s = Some res ->
  sip.IsSuccess res = true ->
  let r := Bye p env w in
  (r.1 = Blocked -> dialogs r.2 = dialogs w) /\
  (r.1 <> Blocked ->
   dialogs r.2 = delete (ID s) (dialogs w) /\
   exists tr, since w r.2 = tr ++ [EvTerminate (inviteTx s); EvDelete (ID s)]).
Proof.
  intros Hs He Hres Hsucc. cbn zeta.
  destruct (Bye_guarded w p s res env Hs He Hres Hsucc)
    as (ow & w2 & s2 & trw & _ & Hd2 & Hs2 & (Hid2 & _) & _ & Hl2 & _ & ->).
  assert (Hclean : forall w3 s3 tr3,
            dialogs w3 = dialogs w -> sessions w3 !! p = Some s3 -> ID s3 = ID s ->
            log w3 = log w ++ tr3 ->
            dialogs (Bye_cleanup p (inviteTx s) w3) = delete (ID s) (dialogs w) /\
            exists tr, since w (Bye_cleanup p (inviteTx s) w3) =
                       tr ++ [EvTerminate (inviteTx s); EvDelete (ID s)]).
  { intros w3 s3 tr3 Hd3 Hs3 Hid3 Hl3. rewrite Bye_cleanup_eq, Hs3. cbn.
    rewrite Hd3, Hid3. split; [done|]. exists tr3.
    unfold since. cbn. rewrite Hl3, <- !app_assoc. by rewrite drop_app_length. }
  destruct ow as [[err|]| |]; cbn [fst snd].
  - split; [done|]. intros _. by eapply Hclean.
  - pose proof (Bye_send_not_blocked p (InviteRequest s) res env w2) as Hnb.
    destruct (Bye_send_cases p (InviteRequest s) res env w2) as [Hd3 Hcases].
    assert (H3 : exists s3 tr3,
              sessions (Bye_send p (InviteRequest s) res env w2).2 !! p = Some s3 /\
              ID s3 = ID s /\
              log (Bye_send p (InviteRequest s) res env w2).2 = log w ++ tr3).
    { destruct Hcases as [(Hl & Hss & _)|[(bye & e & _ & Hl & Hss & _)|
        (bye & now & _ & Hnow & Hf)]].
      - exists s2. eexists. rewrite Hss, Hl, Hl2. done.
      - exists s2. eexists. rewrite Hss, Hl, Hl2, <- app_assoc. done.
      - rewrite Hs2 in Hnow. injection Hnow as <-.
        destruct (bye_final env) as [a| |];
          [destruct (bool_decide (sip.StatusCode a = 200))|..];
          destruct Hf as (_ & Hl & Hss); rewrite Hss, Hl, Hl2, <- app_assoc;
          rewrite ?lookup_insert_eq; eauto. }
    destruct H3 as (s3 & tr3 & Hs3 & Hid3 & Hl3).
    destruct (Bye_send p (InviteRequest s) res env w2) as [o w3].
    cbn [fst snd] in *.
    destruct o as [a| |]; cbn [fst snd]; [| |done];
      (split; [done|]; intros _; eapply Hclean; [congruence | done..]).
  - split; [done|]. intros _. by eapply Hclean.
  - split; [done | intros H; by destruct H].
Qed.

Lemma Bye_always_cleans_up_witness :
  let env := Example.bye_after_timer (WaitCtxDone (ErrContext true)) in
  let r := Bye 0%nat env Example.world_established in
  dialogs r.2 = delete Example.dialog_id (dialogs Example.world_established).
Proof.
  cbn zeta.
  assert (Hs : exists s, sessions Example.world_established !! 0%nat = Some s /\
                         state s = 1 /\ ID s = Example.dialog_id /\
                         InviteResponse s =
                           Some (sip.res_AppendHeader Example.ok200
                                   (sip.HdrContact Example.bob_contact))).
  { eexists. split; [vm_compute; reflexivity | by repeat split]. }
  destruct Hs as (s & Hs & Hst & Hids & Hres).
  destruct (Bye_always_cleans_up Example.world_established 0%nat s
              (sip.res_AppendHeader Example.ok200
                 (sip.HdrContact Example.bob_contact))
              (Example.bye_after_timer (WaitCtxDone (ErrContext true))) Hs)
    as [_ Hclean]; [by rewrite Hst | exact Hres | reflexivity |].
  destruct Hclean as [Hd _]; [by vm_compute|].
  rewrite <- Hids. exact Hd.
Defined.

Lemma Bye_cleanup_sessions (p : ptr) (tx : txid) (w : World) :
  sessions (Bye_cleanup p tx w) = sessions w.
Proof. rewrite Bye_cleanup_eq. by destruct (sessions w !! p). Qed.

(** X13: [Bye] makes a session Ended only through a 200 to its BYE.  If
    a session that was not Ended is Ended after [Bye], then the client
    gave a transaction for the BYE, the answer awaited on it was a
    response with status code 200, and [Bye] returned nil. *)
Theorem Bye_ends_only_on_200 (w : World) (p : ptr) (s : DialogServerSession)
    (env : ByeEnv) :
  sessions w !! p = Some s ->
  state s <> sip.DialogStateEnded ->
  let r := Bye p env w in
  state_of r.2 p = Some sip.DialogStateEnded ->
  r.1 = Ret None /\
  bye_request env = None /\
  (exists a, bye_final env = ByeResponse a /\ sip.StatusCode a = 200) /\
  existsb is_sent (since w r.2) = true.
Proof.
  intros Hs He. cbn zeta.
  assert (Hearly : forall o : Outcome (option error),
            state_of (o, add_log (EvLoadState p (state s)) w).2 p =
              Some sip.DialogStateEnded -> False).
  { intros o. unfold state_of. cbn. rewrite Hs. cbn. congruence. }
  destruct (InviteResponse s) as [res|] eqn:Hres.
  2:{ rewrite Bye_eq, Hs. cbn zeta. apply Z.eqb_neq in He. rewrite He, Hres.
      intros H. by apply (Hearly Panic) in H. }
  destruct (sip.IsSuccess res) eqn:Hsucc.
  2:{ rewrite (Bye_refuses_failed_setup w p s res env Hs He Hres Hsucc).
      intros H. by apply (Hearly (Ret (Some (ErrorString _)))) in H. }
  destruct (Bye_guarded w p s res env Hs He Hres Hsucc)
    as (ow & w2 & s2 & trw & _ & _ & Hs2 & _ & He2 & Hl2 & _ & ->).
  assert (Hno : forall w3, sessions w3 = sessions w2 ->
            state_of (Bye_cleanup p (inviteTx s) w3) p =
              Some sip.DialogStateEnded -> False).
  { intros w3 Hss. unfold state_of. rewrite Bye_cleanup_sessions, Hss, Hs2.
    cbn. congruence. }
  destruct ow as [[err|]| |]; cbn [fst snd].
  - intros H. by apply (Hno w2) in H.
  - pose proof (Bye_send_not_blocked p (InviteRequest s) res env w2) as Hnb.
    destruct (Bye_send_cases p (InviteRequest s) res env w2) as [_ Hcases].
    destruct (Bye_send p (InviteRequest s) res env w2) as [o w3].
    cbn [fst snd] in *.
    assert (Hout : (match o with
                    | Blocked => (Blocked, w3)
                    | _ => (o, Bye_cleanup p (inviteTx s) w3)
                    end) = (o, Bye_cleanup p (inviteTx s) w3)) by (by destruct o).
    rewrite Hout. clear Hout. cbn [fst snd].
    destruct Hcases as [(_ & Hss & _)|[(bye & e & _ & _ & Hss & _)|
      (bye & now & Hreq & _ & Hf)]].
    + intros H. by apply (Hno w3) in H.
    + intros H. by apply (Hno w3) in H.
    + destruct (bye_final env) as [a|err|err];
        [destruct (bool_decide (sip.StatusCode a = 200)) eqn:Hcode|..];
        destruct Hf as (-> & Hl & Hss);
        try (intros H; by apply (Hno w3) in H).
      intros _. split; [done|]. split; [done|].
      split; [exists a; split; [done|]; by apply bool_decide_eq_true in Hcode|].
      destruct (Bye_cleanup_log p (inviteTx s) w3) as (trc & Hc & _).
      unfold since. rewrite Hc, Hl, Hl2, <- !app_assoc, drop_app_length.
      cbn. rewrite !existsb_app. cbn. by rewrite orb_true_r.
  - intros H. by apply (Hno w2) in H.
  - unfold state_of. rewrite Hs2. cbn. congruence.
Qed.

Lemma Bye_ends_only_on_200_witness :
  let r := Bye 0%nat (Example.bye_answered Example.ok200) Example.world_confirmed in
  r.1 = Ret None /\ existsb is_sent (since Example.world_confirmed r.2) = true.
Proof.
  cbn zeta.
  assert (Hs : exists s, sessions Example.world_confirmed !! 0%nat = Some s /\
                         state s = 2).
  { eexists. split; [vm_compute; reflexivity | reflexivity]. }
  destruct Hs as (s & Hs & Hst).
  destruct (Bye_ends_only_on_200 Example.world_confirmed 0%nat s
              (Example.bye_answered Example.ok200) Hs)
    as (Hr & _ & _ & Hsent); [by rewrite Hst | by vm_compute |].
  split; [exact Hr | exact Hsent].
Defined.

(** X14: the identity check of [Bye].  When the ID of the session is
    not the identity recomputed from the BYE (the Call-ID of the stored
    response, the tag of its To, the tag of its From), [Bye] never hands
    a BYE to the client, never returns nil and never sets the session
    to Ended; with nothing to wait for it returns the error that names
    both identities. *)
Theorem Bye_identity_mismatch (w : World) (p : ptr) (s : DialogServerSession)
    (res : sip.Response) (cont : sip.ContactHeader) (from : sip.FromHeader)
    (to : sip.ToHeader) (callid : string) (env : ByeEnv) :
  sessions w !! p = Some s ->
  state s <> sip.DialogStateEnded ->
  InviteResponse s = Some res ->
  sip.IsSuccess res = true ->
  sip.req_Contact (InviteRequest s) = Some cont ->
  sip.res_From res = Some from ->
  sip.res_To res = Some to ->
  sip.res_CallID res = Some callid ->
  let byeID :=
    sip.MakeDialogID callid (sip.param (sip.to_Params to) "tag")
      (sip.param (sip.from_Params from) "tag") in
  ID s <> byeID ->
  let r := Bye p env w in
  existsb is_request (since w r.2) = false /\
  r.1 <> Ret None /\
  state_of r.2 p <> Some sip.DialogStateEnded /\
  (sip.DialogStateConfirmed <= state s ->
   r.1 = Ret (Some (ErrNonMatchingID (ID s) byeID))).
Proof.
  intros Hs He Hres Hsucc Hcont Hf Ht Hc. cbn zeta. intros Hne.
  destruct (newByeRequestUAS_accessors (InviteRequest s) res cont from to callid
              Hcont Hf Ht Hc)
    as (bye & Hb & _ & _ & Hbc & Hbf & Hbt & _).
  destruct (Bye_guarded w p s res env Hs He Hres Hsucc)
    as (ow & w2 & s2 & trw & Hwait & _ & Hs2 & (Hid2 & _) & He2 & Hl2 & Rw & ->).
  assert (Hsend : Bye_send p (InviteRequest s) res env w2 =
                  (Ret (Some (ErrNonMatchingID (ID s)
                     (sip.MakeDialogID callid (sip.param (sip.to_Params to) "tag")
                        (sip.param (sip.from_Params from) "tag")))), w2)).
  { rewrite (Bye_send_eq p (InviteRequest s) res env w2 bye callid _ _ s2
               Hb Hbc Hbf Hbt Hs2).
    cbn zeta. cbn [sip.from_Params sip.to_Params]. rewrite Hid2.
    by rewrite bool_decide_eq_false_2. }
  assert (Hclean : existsb is_request (since w (Bye_cleanup p (inviteTx s) w2)) = false /\
                   state_of (Bye_cleanup p (inviteTx s) w2) p <>
                     Some sip.DialogStateEnded).
  { split.
    - destruct (Bye_cleanup_log p (inviteTx s) w2) as (trc & Hcl & Qc).
      unfold since. rewrite Hcl, Hl2, <- !app_assoc, drop_app_length.
      apply no_request_existsb. cbn.
      by rewrite forallb_app, Rw, (quiet_no_request _ Qc).
    - unfold state_of. rewrite Bye_cleanup_sessions, Hs2. cbn. congruence. }
  assert (Hgoal123 :
    existsb is_request
      (since w (match ow with
                | Ret (Some err) => (Ret (Some err), Bye_cleanup p (inviteTx s) w2)
                | Ret None =>
                    match Bye_send p (InviteRequest s) res env w2 with
                    | (Blocked, w3) => (Blocked, w3)
                    | (r, w3) => (r, Bye_cleanup p (inviteTx s) w3)
                    end
                | Panic => (Panic, Bye_cleanup p (inviteTx s) w2)
                | Blocked => (Blocked, w2)
                end).2) = false /\
    (match ow with
     | Ret (Some err) => (Ret (Some err), Bye_cleanup p (inviteTx s) w2)
     | Ret None =>
         match Bye_send p (InviteRequest s) res env w2 with
         | (Blocked, w3) => (Blocked, w3)
         | (r, w3) => (r, Bye_cleanup p (inviteTx s) w3)
         end
     | Panic => (Panic, Bye_cleanup p (inviteTx s) w2)
     | Blocked => (Blocked, w2)
     end).1 <> Ret None /\
    state_of (match ow with
              | Ret (Some err) => (Ret (Some err), Bye_cleanup p (inviteTx s) w2)
              | Ret None =>
                  match Bye_send p (InviteRequest s) res env w2 with
                  | (Blocked, w3) => (Blocked, w3)
                  | (r, w3) => (r, Bye_cleanup p (inviteTx s) w3)
                  end
              | Panic => (Panic, Bye_cleanup p (inviteTx s) w2)
              | Blocked => (Blocked, w2)
              end).2 p <> Some sip.DialogStateEnded).
  { rewrite Hsend. destruct Hclean as [Hc1 Hc2].
    destruct ow as [[err|]| |]; cbn [fst snd]; try done.
    split; [|split; [done|]].
    - unfold since. rewrite Hl2, drop_app_length.
      apply no_request_existsb. cbn. exact Rw.
    - unfold state_of. rewrite Hs2. cbn. congruence. }
  destruct Hgoal123 as (G1 & G2 & G3).
  split; [exact G1|]. split; [exact G2|]. split; [exact G3|].
  intros Hconf. rewrite wait_confirmed_eq in Hwait. cbn [sessions add_log] in Hwait.
  rewrite Hs in Hwait. cbn zeta in Hwait.
  assert (Hlt : (state s <? sip.DialogStateConfirmed) = false) by lia.
  rewrite Hlt in Hwait. injection Hwait as <- <-.
  by rewrite Hsend.
Qed.

Lemma Bye_identity_mismatch_witness :
  let w := (WriteResponse 0%nat Example.ok200 true (Example.world_cancelled false)).2 in
  let r := Bye 0%nat (Example.bye_after_timer WaitTxDone) w in
  existsb is_request (since w r.2) = false /\ r.1 <> Ret None.
Proof.
  cbn zeta.
  set (w := (WriteResponse 0%nat Example.ok200 true (Example.world_cancelled false)).2).
  assert (Hs : exists s, sessions w !! 0%nat = Some s /\
                         state s = 0 /\ ID s = "" /\
                         InviteRequest s = Example.invite /\
                         InviteResponse s =
                           Some (sip.res_AppendHeader Example.ok200
                                   (sip.HdrContact Example.bob_contact))).
  { eexists. split; [vm_compute; reflexivity | by repeat split]. }
  destruct Hs as (s & Hs & Hst & Hids & Hreq & Hres).
  destruct (Bye_identity_mismatch w 0%nat s
              (sip.res_AppendHeader Example.ok200 (sip.HdrContact Example.bob_contact))
              Example.alice_contact Example.alice Example.bob "call-1"
              (Example.bye_after_timer WaitTxDone) Hs)
    as (Hnone & Hret & _); try done.
  - by rewrite Hst.
  - by rewrite Hreq.
  - by rewrite Hids.
Defined.

(** ** No registry entry points to nothing *)

Lemma WriteResponse_live (w : World) (p : ptr) (res : sip.Response) (pick : bool) :
  live w -> live (WriteResponse p res pick w).2.
Proof.
  intros Hl. destruct (sessions w !! p) as [s|] eqn:Hs.
  2:{ by rewrite (WriteResponse_no_session w p res pick Hs). }
  destruct (WriteResponse_effect w p s res pick Hs)
    as [[Hd Hss]|[(_ & Hd & Hss)|(_ & id & Hss & Hd)]];
    (eapply live_next; [exact Hl | | intros q; rewrite Hss; apply insert_keeps]).
  - intros k q Hk. left. by rewrite <- Hd.
  - intros k q Hk. left. by rewrite <- Hd.
  - intros k q Hk. destruct Hd as [Hd|Hd]; rewrite Hd in Hk.
    + destruct (decide (k = id)) as [->|Hne].
      * rewrite lookup_insert_eq in Hk. injection Hk as <-. right.
        rewrite Hss, lookup_insert_eq. eauto.
      * rewrite lookup_insert_ne in Hk by done. by left.
    + apply lookup_delete_Some in Hk as [_ Hk]. by left.
Qed.

Lemma Bye_live (w : World) (p : ptr) (env : ByeEnv) :
  live w -> live (Bye p env w).2.
Proof.
  intros Hl.
  destruct (sessions w !! p) as [s|] eqn:Hs;
    [|rewrite Bye_eq, Hs; exact Hl].
  destruct (decide (state s = sip.DialogStateEnded)) as [He|He];
    [by rewrite (Bye_already_ended w p s env Hs He)|].
  destruct (InviteResponse s) as [res|] eqn:Hres.
  2:{ rewrite Bye_eq, Hs. cbn zeta. apply Z.eqb_neq in He.
      by rewrite He, Hres. }
  destruct (sip.IsSuccess res) eqn:Hsucc;
    [|by rewrite (Bye_refuses_failed_setup w p s res env Hs He Hres Hsucc)].
  destruct (Bye_guarded w p s res env Hs He Hres Hsucc)
    as (ow & w2 & s2 & trw & Hwait & Hd2 & Hs2 & _ & _ & _ & _ & ->).
  pose proof (wait_confirmed_acked p (bye_waits env)
                (add_log (EvLoadState p (state s)) w)) as [_ Hack].
  rewrite Hwait in Hack. cbn [fst snd sessions add_log] in Hack.
  assert (Hl2 : live w2).
  { eapply live_next; [exact Hl | intros k q Hk; left; by rewrite <- Hd2|].
    intros q [sq Hq]. specialize (Hack q). rewrite Hq in Hack.
    destruct Hack as (s' & -> & _). eauto. }
  assert (Hclean : forall w3, live w3 -> live (Bye_cleanup p (inviteTx s) w3)).
  { intros w3 Hl3. rewrite Bye_cleanup_eq.
    destruct (sessions w3 !! p) as [s3|]; [|exact Hl3].
    intros k q Hk. cbn in Hk |- *. apply lookup_delete_Some in Hk as [_ Hk].
    by eapply Hl3. }
  destruct ow as [[err|]| |]; cbn [fst snd]; [by apply Hclean| |by apply Hclean|done].
  pose proof (Bye_send_not_blocked p (InviteRequest s) res env w2) as Hnb.
  destruct (Bye_send_cases p (InviteRequest s) res env w2) as [Hd3 Hcases].
  assert (Hl3 : live (Bye_send p (InviteRequest s) res env w2).2).
  { eapply live_next; [exact Hl2 | intros k q Hk; left; by rewrite <- Hd3|].
    destruct Hcases as [(_ & -> & _)|[(bye & e & _ & _ & -> & _)|
      (bye & now & _ & _ & Hf)]]; [done..|].
    destruct (bye_final env) as [a| |];
      [destruct (bool_decide (sip.StatusCode a = 200))|..];
      destruct Hf as (_ & _ & ->); try done.
    intros q. apply insert_keeps. }
  destruct (Bye_send p (InviteRequest s) res env w2) as [o w3].
  cbn [fst snd] in *. destruct o; cbn [snd]; [by apply Hclean..|done].
Qed.

Lemma run_op_live (op : Op) (w : World) : live w -> live (run_op op w).
Proof.
  intros Hl.
  destruct op as [req tx|req tx|req tx|p|p res pick|p code reason body hs pick|
                  p sdp pick|p env|t tx]; cbn [run_op].
  - unfold ReadInvite. destruct (sip.req_Contact req); [|exact Hl]. cbn.
    eapply live_next; [exact Hl | intros k q Hk; by left|].
    intros q. apply insert_keeps.
  - pose proof (ReadAck_acked req tx w) as [Hd Hack].
    eapply live_next; [exact Hl | intros k q Hk; left; by rewrite <- Hd|].
    intros q [sq Hq]. specialize (Hack q). rewrite Hq in Hack.
    destruct Hack as (s' & -> & _). eauto.
  - destruct (ReadBye_effect req tx w)
      as [[Hd Hss]|(id & p & s & _ & _ & Hd & [Hss|Hss])];
      (eapply live_next; [exact Hl | intros k q Hk; left; rewrite Hd in Hk |
                          intros q; rewrite Hss; try apply insert_keeps; done]);
      try done; by apply lookup_delete_Some in Hk as [_ Hk].
  - destruct (sessions w !! p) as [s|] eqn:Hs.
    + rewrite (Close_eq w p s Hs). intros k q Hk. cbn in Hk |- *.
      apply lookup_delete_Some in Hk as [_ Hk]. by eapply Hl.
    + unfold Close, bind, sessionOf. by rewrite Hs.
  - by apply WriteResponse_live.
  - rewrite Respond_eq. destruct (sessions w !! p); [|exact Hl].
    by apply WriteResponse_live.
  - rewrite RespondSDP_eq. destruct sdp as [sdp|]; [|exact Hl].
    destruct (sessions w !! p); [|exact Hl]. by apply WriteResponse_live.
  - by apply Bye_live.
  - exact Hl.
Qed.

Lemma run_live (ops : list Op) (w : World) : live w -> live (run ops w).
Proof.
  revert w. induction ops as [|op ops IH]; intros w Hl; [done|].
  cbn. apply IH. by apply run_op_live.
Qed.

(** X15: after any sequence of operations on a new [DialogServer],
    every registry entry points to a session that exists; so [ReadAck]
    and [ReadBye] never dereference nil, whatever request they get. *)
Theorem routing_never_panics (c : sip.ContactHeader) (ops : list Op)
    (req : sip.Request) (tx : txid) :
  let w := run ops (NewDialogServer c) in
  live w /\ (ReadAck req tx w).1 <> Panic /\ (ReadBye req tx w).1 <> Panic.
Proof.
  cbn zeta.
  assert (Hl : live (run ops (NewDialogServer c))).
  { apply run_live. intros k p Hk. unfold NewDialogServer in Hk.
    cbn [dialogs] in Hk. by rewrite lookup_empty in Hk. }
  split; [exact Hl|].
  set (w := run ops (NewDialogServer c)) in *.
  destruct (sip.MakeDialogIDFromRequest req) as [id|e] eqn:Hid.
  2:{ destruct (ReadAck_outside_dialog req tx w e Hid) as [-> _].
      by rewrite (ReadBye_outside_dialog req tx w e Hid). }
  destruct (dialogs w !! id) as [p|] eqn:Hd.
  2:{ by rewrite (ReadAck_not_found req tx w id Hid Hd),
                 (ReadBye_not_found req tx w id Hid Hd). }
  destruct (Hl id p Hd) as [s Hs].
  rewrite (ReadAck_found req tx w id p s Hid Hd Hs).
  destruct (ReadBye_found req tx w id p s Hid Hd Hs) as (-> & _).
  done.
Qed.
